(** * The analysis request orchestrator of the AI product optimizer

    A shallow embedding of [app/services/rate-limiter.server.ts],
    [app/services/error-handler.server.ts] and
    [app/services/llm-analysis.server.ts]: the fixed-window rate limiter,
    the in-memory analysis cache, the content hash, the retry loop around
    the upstream call, the score transformation, the fallback analysis and
    the function [analyzeLLMDiscoverability] that composes them.

    Conventions.  [Date.now()] is an integer number of milliseconds, a [Z]
    handed to each operation that reads the clock.  A JavaScript string is a
    [string] of bytes (its UTF-8 encoding); its [length] is counted in UTF-16
    code units, as the language counts it.  A [Map] whose iteration order
    does not matter is a [gmap]; the cache, whose eviction depends on the
    insertion order of the [Map], is an association list in that order.
    Mutable module state is passed explicitly: an operation takes the state
    before and returns the state after. *)

From Stdlib Require Import ZArith List String Ascii Bool Lia Permutation.
From Stdlib Require Import QArith Floats Uint63.
From stdpp Require Import gmap strings list sorting pretty.
Import ListNotations.

Local Open Scope Z_scope.
#[local] Set Warnings "-register-all,-inexact-float".

(* ===================================================================== *)
(** * The rate limiter ([rate-limiter.server.ts]) *)
(* ===================================================================== *)

Module RateLimiter.

(** [interface RateLimitEntry { count: number; resetTime: number }] *)
Record RateLimitEntry : Type := mkEntry { count : Z; resetTime : Z }.

(** An instance of [class RateLimiter]: the private map [limits] and the
    two read-only configuration fields, both whole numbers.  (The module
    passes [parseInt] of a setting as [maxRequests]; a setting that is not
    numeric makes that [NaN], which an instance of this record does not
    stand for: against [NaN] the test [count >= maxRequests] never holds.) *)
Record t : Type := mk {
  limits : gmap string RateLimitEntry;
  maxRequests : Z;
  windowMs : Z
}.

(** [new RateLimiter(maxRequests, windowMs)] *)
Definition create (maxRequests windowMs : Z) : t :=
  {| limits := ∅; maxRequests := maxRequests; windowMs := windowMs |}.

Definition with_limits (rl : t) (m : gmap string RateLimitEntry) : t :=
  {| limits := m; maxRequests := maxRequests rl; windowMs := windowMs rl |}.

(** [isAllowed(identifier)]; [now] is the value of [Date.now()].  The
    entry object of a live window is updated in place ([entry.count++]). *)
Definition isAllowed (now : Z) (identifier : string) (rl : t) : bool * t :=
  match limits rl !! identifier with
  | None =>
      (true, with_limits rl
               (<[identifier := mkEntry 1 (now + windowMs rl)]> (limits rl)))
  | Some entry =>
      if now >=? resetTime entry then
        (true, with_limits rl
                 (<[identifier := mkEntry 1 (now + windowMs rl)]> (limits rl)))
      else if count entry >=? maxRequests rl then
        (false, rl)
      else
        (true, with_limits rl
                 (<[identifier := mkEntry (count entry + 1) (resetTime entry)]>
                    (limits rl)))
  end.

(** [getRemainingRequests(identifier)]; [now] is the value of [Date.now()]. *)
Definition getRemainingRequests (now : Z) (identifier : string) (rl : t) : Z :=
  match limits rl !! identifier with
  | None => maxRequests rl
  | Some entry =>
      if now >=? resetTime entry then maxRequests rl
      else Z.max 0 (maxRequests rl - count entry)
  end.

(** [getResetTime(identifier)], which reads the clock in its test and again
    for the value it returns: [now] and [again] are the first and the second
    value of [Date.now()].  Without an entry the test does not read the
    clock, and the value returned is the first. *)
Definition getResetTime (now again : Z) (identifier : string) (rl : t) : Z :=
  match limits rl !! identifier with
  | None => now
  | Some entry => if now >=? resetTime entry then again else resetTime entry
  end.

(** [cleanup()]: drops the windows that have expired. *)
Definition cleanup (now : Z) (rl : t) : t :=
  with_limits rl (filter (λ kv, ¬ (resetTime kv.2 ≤ now)) (limits rl)).

(** The window of [identifier] that is live at time [now], if any. *)
Definition liveWindow (now : Z) (identifier : string) (rl : t)
  : option RateLimitEntry :=
  match limits rl !! identifier with
  | Some entry => if now >=? resetTime entry then None else Some entry
  | None => None
  end.

(** A run of requests of one tenant at the given clock readings; the
    answers come back in the order of the requests. *)
Fixpoint requests (times : list Z) (identifier : string) (rl : t)
  : list bool * t :=
  match times with
  | [] => ([], rl)
  | now :: rest =>
      let '(ok, rl1) := isAllowed now identifier rl in
      let '(oks, rl2) := requests rest identifier rl1 in
      (ok :: oks, rl2)
  end.

(** What one call of [isAllowed] does, as the fixed-window counter
    describes it. *)
Definition fixed_window_step (now : Z) (identifier : string) (rl : t) : Prop :=
  let ok := (isAllowed now identifier rl).1 in
  let rl' := (isAllowed now identifier rl).2 in
  maxRequests rl' = maxRequests rl ∧ windowMs rl' = windowMs rl ∧
  (∀ other, other ≠ identifier → limits rl' !! other = limits rl !! other) ∧
  match liveWindow now identifier rl with
  | None =>
      (* first request, or the window has elapsed *)
      ok = true ∧
      limits rl' !! identifier = Some (mkEntry 1 (now + windowMs rl))
  | Some entry =>
      (ok = true ↔ count entry < maxRequests rl) ∧
      (ok = true →
         limits rl' !! identifier
         = Some (mkEntry (count entry + 1) (resetTime entry))) ∧
      (ok = false → rl' = rl)
  end.

(** The boundary scenario with [maxRequests = 5]: six requests inside one
    window, then one after the window has elapsed. *)
Definition quota_boundary (identifier : string) (rl : t)
           (t1 t2 t3 t4 t5 t6 t7 : Z) : Prop :=
  let run := requests [t1; t2; t3; t4; t5; t6] identifier rl in
  run.1 = [true; true; true; true; true; false] ∧
  limits run.2 !! identifier = Some (mkEntry 5 (t1 + windowMs rl)) ∧
  (isAllowed t7 identifier run.2).1 = true ∧
  limits (isAllowed t7 identifier run.2).2 !! identifier
  = Some (mkEntry 1 (t7 + windowMs rl)).

(** The two module-level instances, [openaiRateLimiter] and
    [bulkAnalysisLimiter]. *)
Record Limiters : Type := mkLimiters {
  openaiRateLimiter : t;
  bulkAnalysisLimiter : t
}.

(** The instances as the module creates them: [openaiLimit] and [bulkLimit]
    are [parseInt(process.env.OPENAI_RATE_LIMIT || '50')] and
    [parseInt(process.env.BULK_ANALYSIS_LIMIT || '5')]; both windows last
    one hour. *)
Definition initialLimiters (openaiLimit bulkLimit : Z) : Limiters :=
  {| openaiRateLimiter := create openaiLimit (60 * 60 * 1000);
     bulkAnalysisLimiter := create bulkLimit (60 * 60 * 1000) |}.

(** A session, as far as the limiter reads it: [session.shop]. *)
Record Session : Type := mkSession { shop : option string }.

(** [getRateLimitIdentifier(session)]: [session.shop || 'anonymous'] *)
Definition getRateLimitIdentifier (session : Session) : string :=
  match shop session with
  | Some s => if String.eqb s "" then "anonymous" else s
  | None => "anonymous"
  end%string.

Inductive LimitType : Type := OpenAI | Bulk.

Record RateLimit : Type := mkRateLimit {
  allowed : bool;
  remaining : Z;
  resetAt : Z        (* the property [resetTime] of the returned object *)
}.

(** The values of [Date.now()] during one call of [checkRateLimit], in the
    order they are read: by [isAllowed], by [getRemainingRequests], and by
    [getResetTime] in its test and for the value it returns. *)
Record Readings : Type := mkReadings {
  atRequest : Z;
  atRemaining : Z;
  atReset : Z;
  atResetAgain : Z
}.

(** [checkRateLimit(identifier, type = 'openai')]: the three calls are made
    one after the other, and each reads the clock for itself. *)
Definition checkRateLimit (clock : Readings) (identifier : string) (type : LimitType)
           (ls : Limiters) : RateLimit * Limiters :=
  match type with
  | Bulk =>
      let '(ok, limiter) :=
        isAllowed (atRequest clock) identifier (bulkAnalysisLimiter ls) in
      ({| allowed := ok;
          remaining := getRemainingRequests (atRemaining clock) identifier limiter;
          resetAt := getResetTime (atReset clock) (atResetAgain clock)
                                  identifier limiter |},
       {| openaiRateLimiter := openaiRateLimiter ls;
          bulkAnalysisLimiter := limiter |})
  | OpenAI =>
      let '(ok, limiter) :=
        isAllowed (atRequest clock) identifier (openaiRateLimiter ls) in
      ({| allowed := ok;
          remaining := getRemainingRequests (atRemaining clock) identifier limiter;
          resetAt := getResetTime (atReset clock) (atResetAgain clock)
                                  identifier limiter |},
       {| openaiRateLimiter := limiter;
          bulkAnalysisLimiter := bulkAnalysisLimiter ls |})
  end.

End RateLimiter.

(* ===================================================================== *)
(** * JavaScript values and the string built-ins the services use *)
(* ===================================================================== *)

Module Js.

(** A run-time value.  A number is kept as the text [Number::toString]
    prints for it (the services only test such a number for truthiness and
    serialize it); scores, on which arithmetic is done, are floats and live
    in [Scores] below.  An object is the list of its own enumerable
    properties in creation order. *)
Inductive Value : Type :=
| VUndefined
| VNull
| VBool (b : bool)
| VNum (literal : string)
| VStr (s : string)
| VArr (items : list Value)
| VObj (props : list (string * Value)).

(** [ToBoolean]: what [!v], [v && ...] and [v || ...] test. *)
Definition truthy (v : Value) : bool :=
  match v with
  | VUndefined | VNull => false
  | VBool b => b
  | VNum n => negb (String.eqb n "0" || String.eqb n "NaN")
  | VStr s => negb (String.eqb s "")
  | VArr _ | VObj _ => true
  end.

(** [typeof v === 'string'] *)
Definition isString (v : Value) : bool :=
  match v with VStr _ => true | _ => false end.

(** [s.length]: the number of UTF-16 code units of the string whose UTF-8
    bytes are [s].  A continuation byte ([10xxxxxx]) adds nothing; the lead
    byte of a four-byte sequence ([11110xxx]) stands for a character outside
    the basic plane, which takes two code units; every other byte starts a
    character of one code unit. *)
Fixpoint length (s : string) : nat :=
  match s with
  | EmptyString => 0
  | String c rest =>
      let n := nat_of_ascii c in
      ((if (128 <=? n) && (n <? 192) then 0 else if 240 <=? n then 2 else 1)
       + length rest)%nat
  end.

(** [String.prototype.toLowerCase].  The ASCII capitals give their small
    letters.  Two characters outside ASCII have a lower case with an ASCII
    letter in it: U+212A (the Kelvin sign, bytes E2 84 AA) gives [k], and
    U+0130 (bytes C4 B0) gives [i] followed by U+0307 (bytes CC 87).  The
    lower case of every other character outside ASCII is outside ASCII
    again; such a character is left as it is, which the services cannot
    tell: they only search the result for words of ASCII letters. *)
Definition lowerAscii (c : ascii) : ascii :=
  let n := nat_of_ascii c in
  if ((65 <=? n) && (n <=? 90))%nat then ascii_of_nat (n + 32) else c.

Fixpoint toLowerCase (s : string) : string :=
  match s with
  | EmptyString => EmptyString
  | String c1 rest1 =>
      if (nat_of_ascii c1 =? 226)%nat then
        match rest1 with
        | String c2 (String c3 rest3) =>
            if ((nat_of_ascii c2 =? 132) && (nat_of_ascii c3 =? 170))%nat
            then String "k" (toLowerCase rest3)
            else String c1 (toLowerCase rest1)
        | _ => String c1 (toLowerCase rest1)
        end
      else if (nat_of_ascii c1 =? 196)%nat then
        match rest1 with
        | String c2 rest2 =>
            if (nat_of_ascii c2 =? 176)%nat
            then String "i" (String (ascii_of_nat 204) (String (ascii_of_nat 135)
                                                               (toLowerCase rest2)))
            else String c1 (toLowerCase rest1)
        | EmptyString => String c1 EmptyString
        end
      else String (lowerAscii c1) (toLowerCase rest1)
  end.

(** [s.includes(needle)] *)
Fixpoint includes (needle s : string) : bool :=
  String.prefix needle s
  || match s with
     | EmptyString => false
     | String _ rest => includes needle rest
     end.

(** [parts.join(sep)] *)
Fixpoint join (sep : string) (parts : list string) : string :=
  match parts with
  | [] => ""
  | [p] => p
  | p :: rest => p +:+ sep +:+ join sep rest
  end.

(** The hexadecimal digit of [n < 16], lower case. *)
Definition hexDigit (n : N) : ascii :=
  match n with
  | 0 => "0" | 1 => "1" | 2 => "2" | 3 => "3" | 4 => "4" | 5 => "5"
  | 6 => "6" | 7 => "7" | 8 => "8" | 9 => "9" | 10 => "a" | 11 => "b"
  | 12 => "c" | 13 => "d" | 14 => "e" | _ => "f"
  end%N%char.

(** [QuoteJSONString], character by character: the two-character escapes,
    [\u00xx] for the other control characters, everything else as it is. *)
Definition escapeChar (c : ascii) : string :=
  let n := N_of_ascii c in
  if (n =? 34)%N then String "\" (String (ascii_of_nat 34) "")
  else if (n =? 92)%N then "\\"
  else if (n =? 8)%N then "\b"
  else if (n =? 9)%N then "\t"
  else if (n =? 10)%N then "\n"
  else if (n =? 12)%N then "\f"
  else if (n =? 13)%N then "\r"
  else if (n <? 32)%N then
    "\u00" +:+ String (hexDigit (n / 16)) (String (hexDigit (n mod 16)) "")
  else String c "".

Fixpoint escapeString (s : string) : string :=
  match s with
  | EmptyString => EmptyString
  | String c rest => escapeChar c +:+ escapeString rest
  end.

Definition quote (s : string) : string :=
  String (ascii_of_nat 34) (escapeString s +:+ String (ascii_of_nat 34) "").

(** [JSON.stringify(v)] without indentation; [None] is the [undefined] that
    [JSON.stringify(undefined)] returns.  In an array [undefined] prints as
    [null]; in an object a property whose value is [undefined] is left
    out. *)
Fixpoint stringify (v : Value) : option string :=
  match v with
  | VUndefined => None
  | VNull => Some "null"
  | VBool true => Some "true"
  | VBool false => Some "false"
  | VNum n =>
      if String.eqb n "NaN" || String.eqb n "Infinity" || String.eqb n "-Infinity"
      then Some "null" else Some n
  | VStr s => Some (quote s)
  | VArr items =>
      Some ("[" +:+ join "," (List.map (λ x, default "null" (stringify x)) items)
                +:+ "]")
  | VObj props =>
      Some ("{" +:+ join ","
                    (omap (λ kv, match stringify kv.2 with
                                 | Some s => Some (quote kv.1 +:+ ":" +:+ s)
                                 | None => None
                                 end) props)
                +:+ "}")
  end.

End Js.

(* ===================================================================== *)
(** * The analysis result ([types/analysis.ts]) *)
(* ===================================================================== *)

(** [ProductAnalysis['scores']]: JavaScript numbers, that is binary64
    floats. *)
Module Scores.

Record t : Type := mk {
  semanticClarity : float;
  intentMatching : float;
  featureBenefitStructure : float;
  naturalLanguage : float;
  structuredInfo : float;
  discoveryPotential : float
}.

(** [Math.round(x)]: the integer nearest to [x], the larger one at a tie;
    [NaN], the infinities and the zeros are returned as they are, and a
    negative [x >= -0.5] gives [-0].  A finite non-zero [x] is [±m·2^e];
    for [e < 0] its magnitude is below [2^52] and the rounded integer is
    computed exactly in [Z]. *)
Definition Math_round (x : float) : float :=
  match Prim2SF x with
  | S754_finite s m e =>
      if e >=? 0 then x
      else
        let half := 2 ^ (- e) in
        if s then
          let n := (- (2 * Z.pos m) + half) / (2 * half) in
          if n =? 0 then (-0)%float
          else PrimFloat.opp (PrimFloat.of_uint63 (Uint63.of_Z (- n)))
        else
          let n := (2 * Z.pos m + half) / (2 * half) in
          PrimFloat.of_uint63 (Uint63.of_Z n)
  | _ => x
  end.

(** The expression of [transformOpenAIResponse] that computes the
    composite score, with its literals and its order of evaluation. *)
Definition weightedSum (sc im fb nl si : float) : float :=
  ((sc * 0.25) + (im * 0.25) + (fb * 0.20) + (nl * 0.15) + (si * 0.15))%float.

(** The invariant of the data model, as the specification writes it:
    [discoveryPotential = round(0.25*semanticClarity + 0.25*intentMatching
    + 0.20*featureBenefitStructure + 0.15*naturalLanguage
    + 0.15*structuredInfo)], in binary64 arithmetic. *)
Definition composite_ok (s : t) : Prop :=
  discoveryPotential s
  = Math_round (0.25 * semanticClarity s + 0.25 * intentMatching s
                + 0.20 * featureBenefitStructure s + 0.15 * naturalLanguage s
                + 0.15 * structuredInfo s)%float.

(** The five weights as the decimal fractions the source writes. *)
Definition weights : list Q := [(25#100); (25#100); (20#100); (15#100); (15#100)]%Q.

End Scores.

Module Optimization.
(** An element of [ProductAnalysis['llmOptimizations']]. *)
Record t : Type := mk {
  category : string;
  score : float;
  suggestions : list string;
  specificContent : Js.Value
}.
End Optimization.

Module SpecificEnhancements.
Record t : Type := mk {
  copyPasteTitle : Js.Value;
  copyPasteDescriptionSentences : list string;
  suggestedTags : list string;
  featureBenefitPairs : list Js.Value;
  specifications : list string
}.
End SpecificEnhancements.

Module ImprovedContent.
(** [title] and [copyPasteTitle] are declared [string]; the fallback puts
    the caller's [product.title] there as it is, whatever its run-time
    type, so both are kept as values. *)
Record t : Type := mk {
  title : Js.Value;
  suggestions : list string;
  description : string;
  descriptionSuggestions : list string;
  specificEnhancements : option SpecificEnhancements.t
}.
End ImprovedContent.

Module ReviewRecommendations.
Record t : Type := mk {
  customerLanguageSuggestions : list string;
  addressedConcerns : list string;
  highlightedBenefits : list string;
  missingKeywords : list string;
  socialProofSuggestions : list string
}.
End ReviewRecommendations.

Module ProductAnalysis.
Record t : Type := mk {
  scores : Scores.t;
  contentStrengths : list string;
  contentGaps : list string;
  llmOptimizations : list Optimization.t;
  improvedContent : ImprovedContent.t;
  reviewEnhancedRecommendations : option ReviewRecommendations.t
}.
End ProductAnalysis.

(** [ProductContent] / [ProductContentWithReviews].  [title],
    [description] and [tags] are what [validateProductData] inspects at run
    time, so they are run-time values: a well-typed product has
    [title = VStr _], [description = VStr _] and [tags = TagsArray _].
    [reviewData] is [None] for [ProductContent] and for an [undefined]
    review block. *)
Module Product.

Record Metafield : Type := mkMetafield { key : string; value : string }.

(** The [tags] property: an array of strings, or some other value. *)
Inductive Tags : Type :=
| TagsArray (items : list string)
| TagsOther (v : Js.Value).

Record t : Type := mk {
  title : Js.Value;
  description : Js.Value;
  tags : Tags;
  vendor : string;
  productType : string;
  metafields : list Metafield;
  reviewData : option Js.Value
}.

Definition tagsValue (g : Tags) : Js.Value :=
  match g with
  | TagsArray items => Js.VArr (List.map Js.VStr items)
  | TagsOther v => v
  end.

Definition metafieldValue (m : Metafield) : Js.Value :=
  Js.VObj [("key"%string, Js.VStr (key m)); ("value"%string, Js.VStr (value m))].

End Product.

(* ===================================================================== *)
(** * Errors and the fallback analysis ([error-handler.server.ts]) *)
(* ===================================================================== *)

Module ErrorHandler.

(** An error object, with the properties the services read: [message],
    [status] (set by the upstream client on an HTTP error), [statusCode]
    (set by [AppError]) and [code]. *)
Record JsError : Type := mkError {
  name : string;
  message : option string;
  status : option Z;
  statusCode : option Z;
  code : option string
}.

(** [new Error(message)] *)
Definition Error (msg : string) : JsError :=
  {| name := "Error"; message := Some msg; status := None;
     statusCode := None; code := None |}.

(** [new TypeError(message)], as the engine throws it. *)
Definition TypeError (msg : string) : JsError :=
  {| name := "TypeError"; message := Some msg; status := None;
     statusCode := None; code := None |}.

(** [new SyntaxError(message)], as [JSON.parse] throws it. *)
Definition SyntaxError (msg : string) : JsError :=
  {| name := "SyntaxError"; message := Some msg; status := None;
     statusCode := None; code := None |}.

(** [new AppError(message, statusCode, code)] *)
Definition AppError (msg : string) (statusCode : Z) (code : string) : JsError :=
  {| name := "AppError"; message := Some msg; status := None;
     statusCode := Some statusCode; code := Some code |}.

(** [new OpenAIError(message, originalError)]: the original error is
    written to the console and not stored. *)
Definition OpenAIError (msg : string) : JsError :=
  AppError ("OpenAI API Error: " +:+ msg) 503 "OPENAI_ERROR".

(** [new ValidationError(message)] *)
Definition ValidationError (msg : string) : JsError :=
  AppError ("Validation Error: " +:+ msg) 400 "VALIDATION_ERROR".

(** What a [throw] carries: an error object, or [undefined]. *)
Inductive Thrown : Type :=
| ThrowError (e : JsError)
| ThrowUndefined.

(** A computation that returns or throws. *)
Definition Result (A : Type) : Type := (Thrown + A)%type.
Definition ret {A : Type} (a : A) : Result A := inr a.
Definition throw {A : Type} (e : JsError) : Result A := inl (ThrowError e).
Definition bind {A B : Type} (r : Result A) (k : A → Result B) : Result B :=
  match r with
  | inl e => inl e
  | inr a => k a
  end.

(** [createFallbackAnalysis(productTitle = 'Unknown Product')]: the default
    applies when the argument is [undefined]. *)
Definition createFallbackAnalysis (productTitle : Js.Value) : ProductAnalysis.t :=
  let productTitle :=
    match productTitle with
    | Js.VUndefined => Js.VStr "Unknown Product"
    | v => v
    end in
  {| ProductAnalysis.scores :=
       {| Scores.semanticClarity := 0;
          Scores.intentMatching := 0;
          Scores.featureBenefitStructure := 0;
          Scores.naturalLanguage := 0;
          Scores.structuredInfo := 0;
          Scores.discoveryPotential := 0 |};
     ProductAnalysis.contentStrengths := ["Product information is present"%string];
     ProductAnalysis.contentGaps :=
       ["Analysis temporarily unavailable - please try again"%string];
     ProductAnalysis.llmOptimizations :=
       [ {| Optimization.category := "System Error";
            Optimization.score := 0;
            Optimization.suggestions :=
              ["Analysis service is temporarily unavailable. Please try again in a few moments."%string];
            Optimization.specificContent := Js.VObj [] |} ];
     ProductAnalysis.improvedContent :=
       {| ImprovedContent.title := productTitle;
          ImprovedContent.suggestions :=
            ["Analysis service temporarily unavailable"%string];
          ImprovedContent.description := "Please try analyzing this product again";
          ImprovedContent.descriptionSuggestions :=
            ["Analysis service temporarily unavailable"%string];
          ImprovedContent.specificEnhancements :=
            Some {| SpecificEnhancements.copyPasteTitle := productTitle;
                    SpecificEnhancements.copyPasteDescriptionSentences := [];
                    SpecificEnhancements.suggestedTags := [];
                    SpecificEnhancements.featureBenefitPairs := [];
                    SpecificEnhancements.specifications := [] |} |};
     ProductAnalysis.reviewEnhancedRecommendations :=
       Some {| ReviewRecommendations.customerLanguageSuggestions :=
                 ["Analysis service temporarily unavailable"%string];
               ReviewRecommendations.addressedConcerns :=
                 ["Analysis service temporarily unavailable"%string];
               ReviewRecommendations.highlightedBenefits :=
                 ["Analysis service temporarily unavailable"%string];
               ReviewRecommendations.missingKeywords :=
                 ["Analysis service temporarily unavailable"%string];
               ReviewRecommendations.socialProofSuggestions :=
                 ["Analysis service temporarily unavailable"%string] |} |}.

(** [validateProductData(product)], for a [product] that is an object: the
    guard [!product] at its head is for a call without one, which no caller
    of the service makes ([product] is a [ProductContent]). *)
Definition validateProductData (product : Product.t) : Result unit :=
  if negb (Js.truthy (Product.title product))
     || negb (Js.isString (Product.title product)) then
    throw (ValidationError "Product title is required and must be a string")
  else if match Product.title product with
          | Js.VStr s => (255 <? Z.of_nat (Js.length s))
          | _ => false
          end then
    throw (ValidationError "Product title must be less than 255 characters")
  else if Js.truthy (Product.description product)
          && negb (Js.isString (Product.description product)) then
    throw (ValidationError "Product description must be a string")
  else if match Product.tags product with
          | Product.TagsArray _ => false
          | Product.TagsOther v => Js.truthy v
          end then
    throw (ValidationError "Product tags must be an array")
  else ret tt.

(** [handleAnalysisError(error, productTitle)]: reads [error.message] for
    the log, which throws a [TypeError] when [error] is [undefined]; then
    returns the fallback analysis. *)
Definition handleAnalysisError (error : Thrown) (productTitle : Js.Value)
  : Result ProductAnalysis.t :=
  match error with
  | ThrowUndefined =>
      throw (TypeError "Cannot read properties of undefined (reading 'message')")
  | ThrowError _ => ret (createFallbackAnalysis productTitle)
  end.

(** [isRateLimitError(error)], for an error object. *)
Definition isRateLimitError (error : JsError) : bool :=
  match message error with
  | Some m => Js.includes "rate limit" (Js.toLowerCase m)
  | None => false
  end
  || bool_decide (status error = Some 429)
  || bool_decide (code error = Some "rate_limit_exceeded"%string).

(** [isNetworkError(error)], for an error object. *)
Definition isNetworkError (error : JsError) : bool :=
  match message error with
  | Some m => Js.includes "network" (Js.toLowerCase m)
  | None => false
  end
  || match message error with
     | Some m => Js.includes "timeout" (Js.toLowerCase m)
     | None => false
     end
  || bool_decide (code error = Some "ECONNRESET"%string)
  || bool_decide (code error = Some "ENOTFOUND"%string).

End ErrorHandler.

(* ===================================================================== *)
(** * SHA-256 ([crypto.createHash('sha256')], FIPS 180-4) *)
(* ===================================================================== *)

Module Sha256.

(** A 32-bit word is a [Z] in [[0, 2^32)]; additions wrap. *)
Definition w32 (x : Z) : Z := x mod 2 ^ 32.
Definition add32 (x y : Z) : Z := w32 (x + y).
Definition not32 (x : Z) : Z := Z.lxor x 0xffffffff.
Definition rotr (n x : Z) : Z :=
  w32 (Z.lor (Z.shiftr x n) (Z.shiftl x (32 - n))).
Definition shr (n x : Z) : Z := Z.shiftr x n.

Definition Ch (x y z : Z) : Z := Z.lxor (Z.land x y) (Z.land (not32 x) z).
Definition Maj (x y z : Z) : Z :=
  Z.lxor (Z.lxor (Z.land x y) (Z.land x z)) (Z.land y z).
Definition bigSigma0 (x : Z) : Z := Z.lxor (Z.lxor (rotr 2 x) (rotr 13 x)) (rotr 22 x).
Definition bigSigma1 (x : Z) : Z := Z.lxor (Z.lxor (rotr 6 x) (rotr 11 x)) (rotr 25 x).
Definition sigma0 (x : Z) : Z := Z.lxor (Z.lxor (rotr 7 x) (rotr 18 x)) (shr 3 x).
Definition sigma1 (x : Z) : Z := Z.lxor (Z.lxor (rotr 17 x) (rotr 19 x)) (shr 10 x).

(** The integer part of the [k]-th root of [n], by bisection between [lo]
    and [hi]. *)
Fixpoint rootBetween (fuel : nat) (k n lo hi : Z) : Z :=
  match fuel with
  | O => lo
  | S fuel' =>
      if hi - lo <=? 1 then lo
      else
        let mid := (lo + hi) / 2 in
        if mid ^ k <=? n then rootBetween fuel' k n mid hi
        else rootBetween fuel' k n lo mid
  end.

Definition isPrime (n : Z) : bool :=
  (2 <=? n)
  && List.forallb (λ d : nat, negb (n mod Z.of_nat d =? 0) || (n <=? Z.of_nat d))
                  (seq 2 18).

(** The primes below 312: the first sixty-four. *)
Definition primes64 : list Z :=
  List.filter isPrime (List.map Z.of_nat (seq 0 312)).

(** The first 32 bits of the fractional part of the [k]-th root of [p]. *)
Definition rootFraction (k p : Z) : Z :=
  rootBetween 64 k (p * 2 ^ (32 * k)) 0 (2 ^ 40) mod 2 ^ 32.

(** The round constants: from the cube roots of the first 64 primes. *)
Definition K : list Z := Eval vm_compute in List.map (rootFraction 3) primes64.

(** The initial hash value: from the square roots of the first 8 primes. *)
Definition H0 : list Z :=
  Eval vm_compute in List.map (rootFraction 2) (List.firstn 8 primes64).

(** The bytes of a string. *)
Fixpoint bytes (s : string) : list Z :=
  match s with
  | EmptyString => []
  | String c rest => Z.of_N (N_of_ascii c) :: bytes rest
  end.

(** The [n] low bytes of [x], most significant first. *)
Fixpoint bigEndian (n : nat) (x : Z) : list Z :=
  match n with
  | O => []
  | S n' => Z.shiftr x (8 * Z.of_nat n') mod 256 :: bigEndian n' x
  end.

(** Padding: a [1] bit, zeros up to 56 modulo 64 bytes, and the length of
    the message in bits on 64 bits. *)
Definition pad (msg : list Z) : list Z :=
  let len := Z.of_nat (List.length msg) in
  let zeros := Z.to_nat ((55 - len) mod 64) in
  msg ++ [0x80] ++ List.repeat 0 zeros ++ bigEndian 8 (8 * len).

(** Big-endian 32-bit words of a list of bytes. *)
Fixpoint words (fuel : nat) (bs : list Z) : list Z :=
  match fuel, bs with
  | S fuel', b0 :: b1 :: b2 :: b3 :: rest =>
      (((b0 * 256 + b1) * 256 + b2) * 256 + b3) :: words fuel' rest
  | _, _ => []
  end.

(** The message schedule, most recent word first: [n] more words after
    the ones in [w]. *)
Fixpoint schedule (n : nat) (w : list Z) : list Z :=
  match n with
  | O => w
  | S n' =>
      let x := add32 (add32 (sigma1 (nth 1 w 0)) (nth 6 w 0))
                     (add32 (sigma0 (nth 14 w 0)) (nth 15 w 0)) in
      schedule n' (x :: w)
  end.

Definition round (st : list Z) (kw : Z * Z) : list Z :=
  match st with
  | [a; b; c; d; e; f; g; h] =>
      let t1 := add32 (add32 (add32 h (bigSigma1 e)) (add32 (Ch e f g) kw.1)) kw.2 in
      let t2 := add32 (bigSigma0 a) (Maj a b c) in
      [add32 t1 t2; a; b; c; add32 d t1; e; f; g]
  | _ => st
  end.

(** One 16-word block folded into the hash value. *)
Definition compress (h : list Z) (block : list Z) : list Z :=
  let w := List.rev (schedule 48 (List.rev block)) in
  let st := List.fold_left round (List.combine K w) h in
  List.map (λ p : Z * Z, add32 p.1 p.2) (List.combine h st).

Fixpoint blocks (fuel : nat) (h : list Z) (ws : list Z) : list Z :=
  match fuel, ws with
  | S fuel', _ :: _ => blocks fuel' (compress h (List.firstn 16 ws)) (List.skipn 16 ws)
  | _, _ => h
  end.

Definition hexByte (b : Z) : string :=
  String (Js.hexDigit (Z.to_N (b / 16))) (String (Js.hexDigit (Z.to_N (b mod 16))) "").

(** [crypto.createHash('sha256').update(s).digest('hex')] *)
Definition sha256_hex (s : string) : string :=
  let padded := pad (bytes s) in
  let ws := words (List.length padded) padded in
  let h := blocks (List.length ws) H0 ws in
  String.concat "" (List.map hexByte (List.flat_map (bigEndian 4) h)).

End Sha256.

(* ===================================================================== *)
(** * The built-ins supplied by the host *)
(* ===================================================================== *)

(** What [JSON.parse] makes of the text of an upstream answer, as far as
    [transformOpenAIResponse] reads it: the own properties of the value, in
    order (of an object its properties; a number or boolean has none).  Of
    a category the model keeps the properties the code reads. *)
Module Response.

(** A property that the code tests and then spreads into an array
    ([if (x) target.push(...x)]).  The test skips a falsy value
    ([undefined], [null], [false], [0], [NaN], the empty string); an array
    is spread into its elements and a non-empty string into its
    characters ([Items], whose elements are kept as strings, the type the
    system prompt asks for); every other value (a number, [true], an
    object) passes the test and is not iterable. *)
Inductive Spread (A : Type) : Type :=
| Skipped
| Items (items : list A)
| NotIterable.
Arguments Skipped {A}.
Arguments Items {A} items.
Arguments NotIterable {A}.

Record Specific : Type := mkSpecific {
  titleAdditions : Spread string;
  descriptionSentences : Spread string;
  suggestedTags : Spread string;
  featureBenefitPairs : Spread Js.Value;
  conversationalPhrases : Spread string;
  specifications : Spread string;
  specificRaw : Js.Value       (* the value itself *)
}.

(** The properties read with [|| 0] and [|| []] are kept when they have the
    type the system prompt asks for (a number, an array of strings);
    reading them never throws. *)
Record Category : Type := mkCategory {
  score : option float;
  strengths : Spread string;
  areasForImprovement : Spread string;
  optimizationSuggestions : option (list string);
  specificContentSuggestions : option Specific;
  customerLanguageSuggestions : option (list string);
  addressedConcerns : option (list string);
  highlightedBenefits : option (list string);
  missingKeywords : option (list string);
  socialProofSuggestions : option (list string)
}.

(** The value of a top-level property: [null], an object, or a value none
    of whose properties the code reads is defined (a number, a boolean). *)
Inductive Entry : Type :=
| CatNull
| CatObject (c : Category)
| CatOther (v : Js.Value).

(** The parsed answer: [null], or an object with its properties in order. *)
Inductive t : Type :=
| ParsedNull
| ParsedObject (entries : list (string * Entry)).

End Response.

(** The two built-ins whose result the language leaves to the host:
    [String.prototype.localeCompare] (a collation) and [JSON.parse] (on a
    text it rejects, the message of the [SyntaxError]). *)
Class Host : Type := mkHost {
  localeCompare : string → string → Z;
  JSON_parse : string → string + Response.t
}.

(** A comparator that [Array.prototype.sort] sorts consistently with: the
    relation "does not come after" is total and transitive. *)
Class Consistent {A : Type} (cmp : A → A → Z) : Prop := mkConsistent {
  consistent_total : ∀ a b, cmp a b ≤ 0 ∨ cmp b a ≤ 0;
  consistent_trans : ∀ a b c, cmp a b ≤ 0 → cmp b c ≤ 0 → cmp a c ≤ 0
}.

(* ===================================================================== *)
(** * [Array.prototype.sort] and [Map] *)
(* ===================================================================== *)

Module Builtins.

Section Sort.
Context {A : Type} (cmp : A → A → Z).

(** [x] is put before the first element it does not come after; [x] stood
    before every element of [l] in the array being sorted, so ties keep
    their order. *)
Fixpoint insertBy (x : A) (l : list A) : list A :=
  match l with
  | [] => [x]
  | y :: rest => if cmp x y <=? 0 then x :: l else y :: insertBy x rest
  end.

(** [array.sort(cmp)]: a stable sort. *)
Definition sortBy (l : list A) : list A := List.fold_right insertBy [] l.

(** "[a] does not come after [b]". *)
Definition notAfter (a b : A) : Prop := cmp a b ≤ 0.

End Sort.

(** The rank of a byte in the order of the UTF-16 code units.  The bytes
    of UTF-8 compare as the characters do by their number, but a character
    outside the basic plane (lead byte F0 and above) is a pair of code
    units from D800 on, and so sorts after U+D7FF (lead byte ED) and before
    U+E000 (lead byte EE). *)
Definition unitRank (c : ascii) : N :=
  let n := N_of_ascii c in
  if (240 <=? n)%N then (256 * 237 + n)%N else (256 * n)%N.

(** The order of two strings by their code units. *)
Fixpoint compareUnits (a b : string) : comparison :=
  match a, b with
  | EmptyString, EmptyString => Eq
  | EmptyString, String _ _ => Lt
  | String _ _, EmptyString => Gt
  | String x a', String y b' =>
      match N.compare (unitRank x) (unitRank y) with
      | Eq => compareUnits a' b'
      | c => c
      end
  end.

(** The comparison of [array.sort()] without a comparator, on strings:
    code unit by code unit. *)
Definition compareStrings (a b : string) : Z :=
  match compareUnits a b with
  | Lt => -1
  | Eq => 0
  | Gt => 1
  end.

Section Map.
Context {V : Type}.

(** A [Map<string, V>]: its entries in insertion order, no key twice. *)
Definition JsMap : Type := list (string * V).

(** The keys of a map, in insertion order. *)
Definition keys (m : JsMap) : list string := List.map fst m.

(** [map.get(k)] *)
Fixpoint mapGet (k : string) (m : JsMap) : option V :=
  match m with
  | [] => None
  | (k', v) :: rest => if String.eqb k k' then Some v else mapGet k rest
  end.

(** [map.set(k, v)]: an existing key keeps its place. *)
Fixpoint mapSet (k : string) (v : V) (m : JsMap) : JsMap :=
  match m with
  | [] => [(k, v)]
  | (k', v') :: rest =>
      if String.eqb k k' then (k, v) :: rest else (k', v') :: mapSet k v rest
  end.

(** [map.delete(k)] *)
Fixpoint mapDelete (k : string) (m : JsMap) : JsMap :=
  match m with
  | [] => []
  | (k', v) :: rest =>
      if String.eqb k k' then rest else (k', v) :: mapDelete k rest
  end.

End Map.
Arguments JsMap V : clear implicits.

End Builtins.

(* ===================================================================== *)
(** * The analysis service ([llm-analysis.server.ts]) *)
(* ===================================================================== *)

Module LlmAnalysis.
Import ErrorHandler Builtins.

(** ** The cache *)

(** An entry of [analysisCache]. *)
Record CacheEntry : Type := mkCacheEntry {
  analysis : ProductAnalysis.t;
  timestamp : Z;
  contentHash : string
}.

(** [CACHE_EXPIRATION_MS] *)
Definition CACHE_EXPIRATION_MS : Z := 24 * 60 * 60 * 1000.

(** [getCachedAnalysis(contentHash)] at [Date.now() = now]: the answer and
    the cache afterwards. *)
Definition getCachedAnalysis (now : Z) (contentHash : string)
           (analysisCache : JsMap CacheEntry)
  : option ProductAnalysis.t * JsMap CacheEntry :=
  match mapGet contentHash analysisCache with
  | None => (None, analysisCache)
  | Some cached =>
      if now - timestamp cached >? CACHE_EXPIRATION_MS then
        (None, mapDelete contentHash analysisCache)
      else (Some (analysis cached), analysisCache)
  end.

(** [setCachedAnalysis(contentHash, analysis)] at [Date.now() = now]. *)
Definition setCachedAnalysis (now : Z) (contentHash : string)
           (analysis : ProductAnalysis.t) (analysisCache : JsMap CacheEntry)
  : JsMap CacheEntry :=
  let analysisCache :=
    mapSet contentHash (mkCacheEntry analysis now contentHash) analysisCache in
  if Z.of_nat (List.length analysisCache) >? 1000 then
    let entries := analysisCache in
    match sortBy (λ a b : string * CacheEntry, timestamp a.2 - timestamp b.2)
                 entries with
    | oldestEntry :: _ => mapDelete oldestEntry.1 analysisCache
    | [] => analysisCache
    end
  else analysisCache.

(** ** The content hash *)

(** The argument of [JSON.stringify] in [generateContentHash], once the two
    arrays are sorted. *)
Definition contentObject (title description : Js.Value) (tags : list string)
           (vendor productType : string) (metafields : list Product.Metafield)
           (reviewData : option Js.Value) : Js.Value :=
  Js.VObj [ ("title"%string, title);
            ("description"%string, description);
            ("tags"%string, Js.VArr (List.map Js.VStr tags));
            ("vendor"%string, Js.VStr vendor);
            ("productType"%string, Js.VStr productType);
            ("metafields"%string, Js.VArr (List.map Product.metafieldValue metafields));
            ("reviewData"%string, default Js.VUndefined reviewData) ].

(** [generateContentHash(product)]: the digest, and the product after the
    call.  [Array.prototype.sort] sorts the array it is called on and
    returns that same array, so [product.tags] and [product.metafields]
    are sorted when the call returns.  When [product.tags] is not an array
    the call of [sort] throws before anything is changed. *)
Definition generateContentHash `{Host} (product : Product.t)
  : Result (string * Product.t) :=
  match Product.tags product with
  | Product.TagsArray items =>
      let tags := sortBy compareStrings items in
      let metafields :=
        sortBy (λ a b, localeCompare (Product.key a) (Product.key b))
               (Product.metafields product) in
      let contentString :=
        default ""%string
          (Js.stringify
             (contentObject (Product.title product) (Product.description product)
                tags (Product.vendor product) (Product.productType product)
                metafields (Product.reviewData product))) in
      ret (Sha256.sha256_hex contentString,
           {| Product.title := Product.title product;
              Product.description := Product.description product;
              Product.tags := Product.TagsArray tags;
              Product.vendor := Product.vendor product;
              Product.productType := Product.productType product;
              Product.metafields := metafields;
              Product.reviewData := Product.reviewData product |})
  | Product.TagsOther Js.VUndefined =>
      throw (TypeError "Cannot read properties of undefined (reading 'sort')")
  | Product.TagsOther Js.VNull =>
      throw (TypeError "Cannot read properties of null (reading 'sort')")
  | Product.TagsOther _ =>
      throw (TypeError "product.tags.sort is not a function")
  end.

(** ** The upstream call *)

(** What [response.choices[0].message.content] finds. *)
Inductive ApiResponse : Type :=
| ResponseNoChoices
| ResponseContent (content : option string).

(** How one call of [openai.chat.completions.create] behaves: it resolves
    or rejects after some milliseconds, or it never settles. *)
Inductive ApiOutcome : Type :=
| ApiResolves (afterMs : Z) (response : ApiResponse)
| ApiRejects (afterMs : Z) (reason : Thrown)
| ApiPending.

(** What the retry loop does that the outside can see. *)
Inductive Event : Type :=
| EvUpstreamCall (attempt : nat)
| EvSleep (ms : Z).

(** The timeout of one request, in milliseconds. *)
Definition REQUEST_TIMEOUT_MS : Z := 30000.

(** [Promise.race([apiPromise, timeoutPromise])]: the call wins when it
    settles before the timer fires; at a tie the timer, started first,
    wins. *)
Definition race (api : ApiOutcome) : Result ApiResponse :=
  match api with
  | ApiResolves ms r =>
      if ms <? REQUEST_TIMEOUT_MS then ret r else throw (Error "Request timeout")
  | ApiRejects ms reason =>
      if ms <? REQUEST_TIMEOUT_MS then inl reason else throw (Error "Request timeout")
  | ApiPending => throw (Error "Request timeout")
  end.

(** [error.status === 400 || error.status === 401 || error.status === 403] *)
Definition isClientStatus (error : JsError) : bool :=
  bool_decide (status error = Some 400)
  || bool_decide (status error = Some 401)
  || bool_decide (status error = Some 403).

(** [error.message || 'Unknown OpenAI error'] *)
Definition messageOrUnknown (error : JsError) : string :=
  match message error with
  | Some m => if String.eqb m "" then "Unknown OpenAI error" else m
  | None => "Unknown OpenAI error"
  end.

(** The loop of [callOpenAIWithRetry] from iteration [attempt] on, with
    [left] iterations to go ([left = maxRetries + 1 - attempt]); [upstream k]
    is the behaviour of the call made by iteration [k]. *)
Fixpoint retryLoop (upstream : nat → ApiOutcome) (maxRetries : nat)
         (left attempt : nat) (lastError : Thrown)
  : Result ApiResponse * list Event :=
  match left with
  | O => (inl lastError, [])                      (* throw lastError *)
  | S left' =>
      match race (upstream attempt) with
      | inr response => (ret response, [EvUpstreamCall attempt])
      | inl ThrowUndefined =>
          (* reading [error.status] of [undefined] *)
          (throw (TypeError "Cannot read properties of undefined (reading 'status')"),
           [EvUpstreamCall attempt])
      | inl (ThrowError error) =>
          if isClientStatus error then
            (throw (OpenAIError ("API Error (" +:+ pretty (default 0 (status error))
                                   +:+ ")")),
             [EvUpstreamCall attempt])
          else if (attempt <? maxRetries)%nat
                  && (isRateLimitError error || isNetworkError error) then
            let delay := 2 ^ Z.of_nat attempt * 1000 in
            let '(result, events) :=
              retryLoop upstream maxRetries left' (S attempt) (ThrowError error) in
            (result, EvUpstreamCall attempt :: EvSleep delay :: events)
          else
            (throw (OpenAIError (messageOrUnknown error)), [EvUpstreamCall attempt])
      end
  end.

(** [callOpenAIWithRetry(params, maxRetries = 3)] *)
Definition callOpenAIWithRetry (upstream : nat → ApiOutcome) (maxRetries : nat)
  : Result ApiResponse * list Event :=
  retryLoop upstream maxRetries maxRetries 1%nat ThrowUndefined.

(** The number of calls made and the delays slept, read off the events. *)
Definition upstreamCalls (events : list Event) : nat :=
  List.length (List.filter (λ e, match e with EvUpstreamCall _ => true | _ => false end)
                           events).
Definition delays (events : list Event) : list Z :=
  omap (λ e, match e with EvSleep ms => Some ms | _ => None end) events.

(** ** The transformation of the upstream answer *)

(** [score || 0]: [undefined], the zeros and [NaN] give [0]. *)
Definition scoreOrZero (score : option float) : float :=
  match score with
  | Some x => if PrimFloat.is_zero x || PrimFloat.is_nan x then 0%float else x
  | None => 0%float
  end.

(** [openaiResponse.Key?.score || 0] *)
Definition scoreOf (entries : list (string * Response.Entry)) (k : string) : float :=
  match mapGet k entries with
  | Some (Response.CatObject c) => scoreOrZero (Response.score c)
  | _ => 0%float
  end.

Definition isUpper (c : ascii) : bool :=
  let n := nat_of_ascii c in ((65 <=? n) && (n <=? 90))%nat.

(** The white space and the line terminators of the language
    ([WhiteSpace] and [LineTerminator], which [trim] strips), by the bytes of
    their UTF-8 encoding.  One byte: U+0009 to U+000D and U+0020. *)
Definition isSpace (c : ascii) : bool :=
  let n := nat_of_ascii c in ((9 <=? n) && (n <=? 13) || (n =? 32))%nat.

(** Two bytes: U+00A0. *)
Definition isSpace2 (c1 c2 : ascii) : bool :=
  ((nat_of_ascii c1 =? 194) && (nat_of_ascii c2 =? 160))%nat.

(** Three bytes: U+1680, U+2000 to U+200A, U+2028, U+2029, U+202F, U+205F,
    U+3000 and U+FEFF. *)
Definition isSpace3 (c1 c2 c3 : ascii) : bool :=
  let a := nat_of_ascii c1 in
  let b := nat_of_ascii c2 in
  let c := nat_of_ascii c3 in
  ((a =? 225) && ((b =? 154) && (c =? 128))
   || (a =? 226) && ((b =? 128) && ((128 <=? c) && (c <=? 138)
                                    || (c =? 168) || (c =? 169) || (c =? 175)))
   || (a =? 226) && ((b =? 129) && (c =? 159))
   || (a =? 227) && ((b =? 128) && (c =? 128))
   || (a =? 239) && ((b =? 187) && (c =? 191)))%nat.

(** The text after the white-space character at the head of [s], if [s]
    starts with one. *)
Definition afterSpace (s : string) : option string :=
  match s with
  | String c1 rest1 =>
      if isSpace c1 then Some rest1
      else match rest1 with
           | String c2 rest2 =>
               if isSpace2 c1 c2 then Some rest2
               else match rest2 with
                    | String c3 rest3 =>
                        if isSpace3 c1 c2 c3 then Some rest3 else None
                    | EmptyString => None
                    end
           | EmptyString => None
           end
  | EmptyString => None
  end.

(** [key.replace(/([A-Z])/g, ' $1')] *)
Fixpoint spaceCapitals (s : string) : string :=
  match s with
  | EmptyString => EmptyString
  | String c rest =>
      if isUpper c then String " " (String c (spaceCapitals rest))
      else String c (spaceCapitals rest)
  end.

(** [s.trimStart()]: the white-space characters at the head are dropped. *)
Fixpoint trimStart (s : string) : string :=
  match s with
  | String c1 rest1 =>
      if isSpace c1 then trimStart rest1
      else match rest1 with
           | String c2 rest2 =>
               if isSpace2 c1 c2 then trimStart rest2
               else match rest2 with
                    | String c3 rest3 =>
                        if isSpace3 c1 c2 c3 then trimStart rest3 else s
                    | EmptyString => s
                    end
           | EmptyString => s
           end
  | EmptyString => EmptyString
  end.

(** The text consists of white space. *)
Definition whiteSpaceOnly (s : string) : bool := String.eqb (trimStart s) "".

(** [s.trimEnd()]: the text is cut where only white space follows. *)
Fixpoint trimEnd (s : string) : string :=
  match s with
  | EmptyString => EmptyString
  | String c rest =>
      if whiteSpaceOnly (String c rest) then EmptyString else String c (trimEnd rest)
  end.

(** [s.trim()] *)
Definition trim (s : string) : string := trimEnd (trimStart s).

(** The object a category is read as: an entry that is not an object has
    none of the properties. *)
Definition noCategory : Response.Category :=
  Response.mkCategory None Response.Skipped Response.Skipped
                      None None None None None None None.

Definition asCategory (e : Response.Entry) : Response.Category :=
  match e with
  | Response.CatObject c => c
  | _ => noCategory
  end.

Definition isNullEntry (e : Response.Entry) : bool :=
  match e with Response.CatNull => true | _ => false end.

Definition entryTruthy (e : Response.Entry) : bool :=
  match e with
  | Response.CatNull => false
  | Response.CatObject _ => true
  | Response.CatOther v => Js.truthy v
  end.

(** [array[0] || fallback], for an array of strings. *)
Definition firstOr (l : list string) (fallback : string) : string :=
  match l with
  | s :: _ => if String.eqb s "" then fallback else s
  | [] => fallback
  end.

(** What the engine throws when the operand of a spread is not iterable. *)
Definition notIterable : JsError :=
  TypeError "Spread syntax requires ...iterable[Symbol.iterator] to be a function".

(** [if (x) target.push(...x)]: what is pushed. *)
Definition spread {A : Type} (x : Response.Spread A) : Result (list A) :=
  match x with
  | Response.Skipped => ret []
  | Response.Items items => ret items
  | Response.NotIterable => throw notIterable
  end.

(** A [forEach] over the properties of the answer that pushes what [pushed]
    gives for each: the array it fills, or what the first failing step
    throws. *)
Fixpoint pushAll {A : Type} (pushed : Response.Entry → Result (list A))
         (entries : list (string * Response.Entry)) : Result (list A) :=
  match entries with
  | [] => ret []
  | kv :: rest =>
      bind (pushed kv.2) (λ items,
      bind (pushAll pushed rest) (λ more, ret (items ++ more)))
  end.

(** [category.strengths] and [category.areasForImprovement] of the first
    two loops: reading a property of [null] throws. *)
Definition spreadOf (name : string) (field : Response.Category → Response.Spread string)
           (e : Response.Entry) : Result (list string) :=
  match e with
  | Response.CatNull =>
      throw (TypeError ("Cannot read properties of null (reading '" +:+ name +:+ "')"))
  | _ => spread (field (asCategory e))
  end.

(** Everything the categories hold under one property of
    [specificContentSuggestions], in the order of the categories.  The
    third loop spreads six properties of each category; whichever of them
    is not iterable, what is thrown is the same, so the six arrays are
    gathered one after the other. *)
Definition collect {A : Type} (entries : list (string * Response.Entry))
           (field : Response.Specific → Response.Spread A) : Result (list A) :=
  pushAll
    (λ e, match Response.specificContentSuggestions (asCategory e) with
          | Some specific => spread (field specific)
          | None => ret []
          end) entries.

(** The scores of [transformOpenAIResponse]. *)
Definition transformScores (entries : list (string * Response.Entry)) : Scores.t :=
  let sc := scoreOf entries "SemanticClarity" in
  let im := scoreOf entries "IntentMatching" in
  let fb := scoreOf entries "FeatureBenefitStructure" in
  let nl := scoreOf entries "NaturalLanguageOptimization" in
  let si := scoreOf entries "StructuredInformation" in
  {| Scores.semanticClarity := sc;
     Scores.intentMatching := im;
     Scores.featureBenefitStructure := fb;
     Scores.naturalLanguage := nl;
     Scores.structuredInfo := si;
     Scores.discoveryPotential := Scores.Math_round (Scores.weightedSum sc im fb nl si) |}.

(** The guidance block used when the product has no review data. *)
Definition reviewGuidance : ReviewRecommendations.t :=
  {| ReviewRecommendations.customerLanguageSuggestions :=
       ["Install Judge.me or similar review app to unlock customer language insights"%string];
     ReviewRecommendations.addressedConcerns :=
       ["Customer concerns will be identified once review data is available"%string];
     ReviewRecommendations.highlightedBenefits :=
       ["Customer-praised benefits will be highlighted when reviews are collected"%string];
     ReviewRecommendations.missingKeywords :=
       ["Customer-used keywords will be suggested after gathering review data"%string];
     ReviewRecommendations.socialProofSuggestions :=
       ["Set up Judge.me to start collecting reviews automatically";
        "Enable review request emails after purchase";
        "Display star ratings in product listings";
        "Add review widgets to product pages"]%string |}.

(** [transformOpenAIResponse(openaiResponse, reviewData)].  Reading a
    property of [null] throws: of the answer itself, or of a category that
    is [null] when the first [forEach] reaches it; so does spreading a
    value that is not iterable. *)
Definition transformOpenAIResponse (openaiResponse : Response.t)
           (reviewData : option Js.Value) : Result ProductAnalysis.t :=
  match openaiResponse with
  | Response.ParsedNull =>
      throw (TypeError "Cannot read properties of null (reading 'SemanticClarity')")
  | Response.ParsedObject entries =>
      bind (pushAll (spreadOf "strengths" Response.strengths) entries)
        (λ contentStrengths,
      bind (pushAll (spreadOf "areasForImprovement" Response.areasForImprovement) entries)
        (λ contentGaps,
        let llmOptimizations :=
          List.map
            (λ kv : string * Response.Entry,
               let category := asCategory kv.2 in
               {| Optimization.category := trim (spaceCapitals kv.1);
                  Optimization.score := scoreOrZero (Response.score category);
                  Optimization.suggestions :=
                    default [] (Response.optimizationSuggestions category);
                  Optimization.specificContent :=
                    match Response.specificContentSuggestions category with
                    | Some specific => Response.specificRaw specific
                    | None => Js.VObj []
                    end |}) entries in
      bind (collect entries Response.titleAdditions) (λ titleSuggestions,
      bind (collect entries Response.descriptionSentences) (λ descriptionSuggestions,
      bind (collect entries Response.suggestedTags) (λ tagSuggestions,
      bind (collect entries Response.featureBenefitPairs) (λ featureBenefitPairs,
      bind (collect entries Response.conversationalPhrases) (λ _,
      bind (collect entries Response.specifications) (λ specifications,
        ret {| ProductAnalysis.scores := transformScores entries;
               ProductAnalysis.contentStrengths := contentStrengths;
               ProductAnalysis.contentGaps := contentGaps;
               ProductAnalysis.llmOptimizations := llmOptimizations;
               ProductAnalysis.improvedContent :=
                 {| ImprovedContent.title :=
                      Js.VStr (firstOr titleSuggestions
                                 "Enhanced title suggestions would appear here");
                    ImprovedContent.suggestions := titleSuggestions;
                    ImprovedContent.description :=
                      firstOr descriptionSuggestions
                        "Enhanced description would appear here";
                    ImprovedContent.descriptionSuggestions := descriptionSuggestions;
                    ImprovedContent.specificEnhancements :=
                      Some {| SpecificEnhancements.copyPasteTitle :=
                                Js.VStr (firstOr titleSuggestions "");
                              SpecificEnhancements.copyPasteDescriptionSentences :=
                                descriptionSuggestions;
                              SpecificEnhancements.suggestedTags := tagSuggestions;
                              SpecificEnhancements.featureBenefitPairs :=
                                featureBenefitPairs;
                              SpecificEnhancements.specifications := specifications |} |};
               ProductAnalysis.reviewEnhancedRecommendations :=
                 match reviewData, mapGet "reviewEnhancedRecommendations" entries with
                 | Some _, Some recs =>
                     if entryTruthy recs then
                       let r := asCategory recs in
                       Some {| ReviewRecommendations.customerLanguageSuggestions :=
                                 default [] (Response.customerLanguageSuggestions r);
                               ReviewRecommendations.addressedConcerns :=
                                 default [] (Response.addressedConcerns r);
                               ReviewRecommendations.highlightedBenefits :=
                                 default [] (Response.highlightedBenefits r);
                               ReviewRecommendations.missingKeywords :=
                                 default [] (Response.missingKeywords r);
                               ReviewRecommendations.socialProofSuggestions :=
                                 default [] (Response.socialProofSuggestions r) |}
                     else None
                 | Some _, None => None
                 | None, _ => Some reviewGuidance
                 end |}))))))))
  end.

(** ** [analyzeLLMDiscoverability] *)

Inductive CacheStatus : Type := Cached | Fresh.

(** [ProductAnalysis & { cacheStatus?: ...; rateLimited?: boolean }]: the
    properties of the analysis, and the two that the service adds. *)
Record AnalyzeResult : Type := mkResult {
  analysisOf : ProductAnalysis.t;
  cacheStatus : option CacheStatus;
  rateLimited : option bool
}.

(** The second argument of [analyzeLLMDiscoverability]. *)
Record Options : Type := mkOptions {
  shopDomain : option string;
  productId : option string;
  judgeMeApiToken : option string;
  session : option RateLimiter.Session
}.

(** [options?.session] *)
Definition sessionOf (options : option Options) : option RateLimiter.Session :=
  match options with
  | Some o => session o
  | None => None
  end.

(** The module state of the server: the cache and the two limiters. *)
Record Server : Type := mkServer {
  analysisCache : JsMap CacheEntry;
  limiters : RateLimiter.Limiters
}.

(** What one call meets outside the service: the clock when the limiter,
    the cache lookup and the cache store read it, what
    [fetchProductReviewData] resolves to (it catches its own errors and
    resolves to [null] then), and how the upstream calls behave.  Of the
    limiter, [isAllowed] reads the clock at [nowQuota]; the three further
    values are those read for the report of [checkRateLimit], which the
    service only writes to the log. *)
Record Env : Type := mkEnv {
  nowQuota : Z;
  nowRemaining : Z;
  nowReset : Z;
  nowResetAgain : Z;
  fetchedReviewData : option Js.Value;
  nowLookup : Z;
  upstream : nat → ApiOutcome;
  nowStore : Z
}.

(** The state a call runs in: the server, the caller's product object
    (whose arrays [productWithReviews] shares) and what was done
    upstream. *)
Record Run : Type := mkRun {
  server : Server;
  product : Product.t;
  events : list Event
}.

(** A step of the call: it returns or throws, and leaves a state. *)
Definition M (A : Type) : Type := Run → Result A * Run.

Definition retM {A : Type} (a : A) : M A := λ run, (ret a, run).

Definition bindM {A B : Type} (m : M A) (k : A → M B) : M B :=
  λ run, match m run with
         | (inl e, run') => (inl e, run')
         | (inr a, run') => k a run'
         end.

Definition liftM {A : Type} (r : Result A) : M A := λ run, (r, run).

Notation "x <- m ;; k" := (bindM m (λ x, k))
  (at level 100, m at next level, right associativity).

(** [checkRateLimit(rateLimitId, 'openai')] on the module's limiters. *)
Definition checkRateLimitM (clock : RateLimiter.Readings) (identifier : string)
  : M RateLimiter.RateLimit :=
  λ run,
    let '(rl, ls) :=
      RateLimiter.checkRateLimit clock identifier RateLimiter.OpenAI
                                 (limiters (server run)) in
    (ret rl,
     {| server := {| analysisCache := analysisCache (server run); limiters := ls |};
        product := product run; events := events run |}).

(** [generateContentHash(productWithReviews)] with
    [productWithReviews = { ...product, reviewData: reviewData || undefined }]:
    the copy shares the arrays [tags] and [metafields] with [product], which
    therefore has them sorted afterwards. *)
Definition generateContentHashM `{Host} (reviewData : option Js.Value) : M string :=
  λ run,
    let p := product run in
    let productWithReviews :=
      {| Product.title := Product.title p;
         Product.description := Product.description p;
         Product.tags := Product.tags p;
         Product.vendor := Product.vendor p;
         Product.productType := Product.productType p;
         Product.metafields := Product.metafields p;
         Product.reviewData := reviewData |} in
    match generateContentHash productWithReviews with
    | inl e => (inl e, run)
    | inr (contentHash, after) =>
        (ret contentHash,
         {| server := server run;
            product := {| Product.title := Product.title p;
                          Product.description := Product.description p;
                          Product.tags := Product.tags after;
                          Product.vendor := Product.vendor p;
                          Product.productType := Product.productType p;
                          Product.metafields := Product.metafields after;
                          Product.reviewData := Product.reviewData p |};
            events := events run |})
    end.

Definition getCachedAnalysisM (now : Z) (contentHash : string)
  : M (option ProductAnalysis.t) :=
  λ run,
    let '(found, cache) :=
      getCachedAnalysis now contentHash (analysisCache (server run)) in
    (ret found,
     {| server := {| analysisCache := cache; limiters := limiters (server run) |};
        product := product run; events := events run |}).

Definition setCachedAnalysisM (now : Z) (contentHash : string)
           (analysis : ProductAnalysis.t) : M unit :=
  λ run,
    (ret tt,
     {| server := {| analysisCache :=
                       setCachedAnalysis now contentHash analysis
                                         (analysisCache (server run));
                     limiters := limiters (server run) |};
        product := product run; events := events run |}).

(** [callOpenAIWithRetry({...})], with the default [maxRetries = 3]. *)
Definition callOpenAIWithRetryM (upstream : nat → ApiOutcome) : M ApiResponse :=
  λ run,
    let '(result, evs) := callOpenAIWithRetry upstream 3 in
    (result,
     {| server := server run; product := product run;
        events := events run ++ evs |}).

(** [response.choices[0].message.content], then the test [!content]. *)
Definition contentOf (response : ApiResponse) : Result string :=
  match response with
  | ResponseNoChoices =>
      throw (TypeError "Cannot read properties of undefined (reading 'message')")
  | ResponseContent None => throw (OpenAIError "Empty response received")
  | ResponseContent (Some content) =>
      if String.eqb content "" then throw (OpenAIError "Empty response received")
      else ret content
  end.

(** [JSON.parse(content)] *)
Definition parseContent `{Host} (content : string) : Result Response.t :=
  match JSON_parse content with
  | inl msg => throw (SyntaxError msg)
  | inr parsed => ret parsed
  end.

(** "Check rate limits if session is provided": [Some result] is the early
    [return] of the denied request. *)
Definition quotaStage (options : option Options) (env : Env)
  : M (option AnalyzeResult) :=
  match sessionOf options with
  | Some session =>
      let rateLimitId := RateLimiter.getRateLimitIdentifier session in
      rateLimit <- checkRateLimitM
                     (RateLimiter.mkReadings (nowQuota env) (nowRemaining env)
                                             (nowReset env) (nowResetAgain env))
                     rateLimitId ;;
      if negb (RateLimiter.allowed rateLimit) then
        (λ run,
           (bind (handleAnalysisError (ThrowError (Error "Rate limit exceeded"))
                                      (Product.title (product run)))
                 (λ fallback, ret (Some (mkResult fallback (Some Fresh) (Some true)))),
            run))
      else retM None
  | None => retM None
  end.

(** "Call OpenAI with timeout and retry logic", down to the [return] of the
    fresh analysis. *)
Definition upstreamStage `{Host} (env : Env) (reviewData : option Js.Value)
           (contentHash : string) : M AnalyzeResult :=
  response <- callOpenAIWithRetryM (upstream env) ;;
  content <- liftM (contentOf response) ;;
  openaiResponse <- liftM (parseContent content) ;;
  analysis <- liftM (transformOpenAIResponse openaiResponse reviewData) ;;
  _ <- setCachedAnalysisM (nowStore env) contentHash analysis ;;
  retM (mkResult analysis (Some Fresh) None).

(** From "Fetch review data if available" on: the hash, the cache lookup
    and, on a miss, the upstream call. *)
Definition cacheStage `{Host} (env : Env) : M AnalyzeResult :=
  let reviewData := fetchedReviewData env in
  contentHash <- generateContentHashM reviewData ;;
  cachedAnalysis <- getCachedAnalysisM (nowLookup env) contentHash ;;
  match cachedAnalysis with
  | Some cached => retM (mkResult cached (Some Cached) None)
  | None => upstreamStage env reviewData contentHash
  end.

(** The body of the [try] block. *)
Definition tryBlock `{Host} (options : option Options) (env : Env)
  : M AnalyzeResult :=
  _ <- (λ run, (validateProductData (product run), run)) ;;
  denied <- quotaStage options env ;;
  match denied with
  | Some result => retM result
  | None => cacheStage env
  end.

(** The [catch] block: [isRateLimitError(error)] reads [error.message],
    which throws when [error] is [undefined]. *)
Definition catchBlock (error : Thrown) (title : Js.Value) : Result AnalyzeResult :=
  match error with
  | ThrowUndefined =>
      throw (TypeError "Cannot read properties of undefined (reading 'message')")
  | ThrowError e =>
      if isRateLimitError e then
        bind (handleAnalysisError error title)
             (λ fallback, ret (mkResult fallback (Some Fresh) (Some true)))
      else
        bind (handleAnalysisError error title)
             (λ fallback, ret (mkResult fallback (Some Fresh) None))
  end.

(** [analyzeLLMDiscoverability(product, options)], run on a server state:
    what the promise settles to, and the state the call leaves. *)
Definition analyzeLLMDiscoverability `{Host} (product : Product.t)
           (options : option Options) (env : Env) (server : Server)
  : Result AnalyzeResult * Run :=
  match tryBlock options env (mkRun server product []) with
  | (inr result, run) => (inr result, run)
  | (inl error, run) => (catchBlock error (Product.title (LlmAnalysis.product run)), run)
  end.

End LlmAnalysis.

(* ===================================================================== *)
(** * Sample data *)
(* ===================================================================== *)

Module Samples.
Import ErrorHandler LlmAnalysis.

(** A category with a score and one entry under each list. *)
Definition sampleCategory (score : float) : Response.Entry :=
  Response.CatObject
    {| Response.score := Some score;
       Response.strengths := Response.Items ["Clear product type"%string];
       Response.areasForImprovement := Response.Items ["No use cases"%string];
       Response.optimizationSuggestions := Some ["Add a use case sentence"%string];
       Response.specificContentSuggestions := None;
       Response.customerLanguageSuggestions := None;
       Response.addressedConcerns := None;
       Response.highlightedBenefits := None;
       Response.missingKeywords := None;
       Response.socialProofSuggestions := None |}.

(** An answer with the five categories of the system prompt. *)
Definition sampleEntries : list (string * Response.Entry) :=
  [ ("SemanticClarity"%string, sampleCategory 80);
    ("IntentMatching"%string, sampleCategory 70);
    ("FeatureBenefitStructure"%string, sampleCategory 60);
    ("NaturalLanguageOptimization"%string, sampleCategory 50);
    ("StructuredInformation"%string, sampleCategory 17) ].

(** The analysis [transformOpenAIResponse] makes of it. *)
Definition sampleAnalysis : ProductAnalysis.t :=
  match transformOpenAIResponse (Response.ParsedObject sampleEntries) None with
  | inr analysis => analysis
  | inl _ => ErrorHandler.createFallbackAnalysis Js.VUndefined
  end.

(** A host whose collation is the code-unit order and whose [JSON.parse]
    knows three texts: ["null"], the text [{}] and, standing for the
    serialization of [sampleEntries], the text [{"sample":true}]; any
    other text is rejected with the message that quotes its first
    characters. *)
Definition sampleHost : Host :=
  {| localeCompare := Builtins.compareStrings;
     JSON_parse := λ content,
       if String.eqb content "null" then inr Response.ParsedNull
       else if String.eqb content "{}" then inr (Response.ParsedObject [])
       else if String.eqb content
                 ("{" +:+ Js.quote "sample" +:+ ":true}") then
         inr (Response.ParsedObject sampleEntries)
       else inl ("Unexpected token, " +:+ Js.quote (String.substring 0 10 content)
                   +:+ "... is not valid JSON") |}.

(** A host with the same collation whose [JSON.parse] gives every text it
    rejects the same message, as engines did that do not quote the text. *)
Definition plainHost : Host :=
  {| localeCompare := Builtins.compareStrings;
     JSON_parse := λ content,
       if String.eqb content "null" then inr Response.ParsedNull
       else if String.eqb content "{}" then inr (Response.ParsedObject [])
       else inl "Unexpected token in JSON at position 0"%string |}.

(** A well-typed product. *)
Definition sampleProduct : Product.t :=
  {| Product.title := Js.VStr "Test Snowboard";
     Product.description := Js.VStr "A great snowboard for beginners";
     Product.tags := Product.TagsArray ["snowboard"; "winter"; "sports"]%string;
     Product.vendor := "Test Vendor";
     Product.productType := "Snowboard";
     Product.metafields := [];
     Product.reviewData := None |}.

(** The answer of the upstream that [Samples.sampleHost] parses into
    [Samples.sampleEntries]. *)
Definition sampleContent : string := "{" +:+ Js.quote "sample" +:+ ":true}".

(** The first call times out, the second answers after 1.2 s. *)
Definition flakyUpstream (attempt : nat) : ApiOutcome :=
  match attempt with
  | 1%nat => ApiPending
  | _ => ApiResolves 1200 (ResponseContent (Some sampleContent))
  end.

(** The upstream answers every call with HTTP 429. *)
Definition tooManyRequests : JsError :=
  {| name := "RateLimitError"; message := Some "429 Rate limit reached for requests";
     status := Some 429; statusCode := None; code := Some "rate_limit_exceeded" |}.
Definition throttledUpstream (attempt : nat) : ApiOutcome :=
  ApiRejects 150 (ThrowError tooManyRequests).


(** No call of the upstream ever settles. *)
Definition silentUpstream (attempt : nat) : ApiOutcome := ApiPending.

(** The upstream answers the first call, with HTTP 200, and the answer is
    prose instead of JSON. *)
Definition proseUpstream (attempt : nat) : ApiOutcome :=
  ApiResolves 1200 (ResponseContent (Some "rate limit exceeded, please retry later")).

(** The server as the module starts it, with the default limits. *)
Definition initialServer : Server :=
  mkServer [] (RateLimiter.initialLimiters 50 5).

(** A server on which the shop has used its 50 requests of the window
    that ends at 3 600 000. *)
Definition shop : string := "test-shop.myshopify.com".
Definition exhaustedServer : Server :=
  mkServer []
    (RateLimiter.mkLimiters
       (RateLimiter.mk {[ shop := RateLimiter.mkEntry 50 3600000 ]} 50 3600000)
       (RateLimiter.create 5 3600000)).

Definition withSession : option Options :=
  Some (mkOptions (Some shop) None None (Some (RateLimiter.mkSession (Some shop)))).

Definition envWith (upstream : nat → ApiOutcome) : Env :=
  {| nowQuota := 1000; nowRemaining := 1000; nowReset := 1000; nowResetAgain := 1000;
     fetchedReviewData := None; nowLookup := 1001;
     upstream := upstream; nowStore := 2500 |}.

(** Ten minutes later, with an upstream that would never answer. *)
Definition laterEnv : Env :=
  {| nowQuota := 601000; nowRemaining := 601000; nowReset := 601000;
     nowResetAgain := 601000; fetchedReviewData := None; nowLookup := 601001;
     upstream := silentUpstream; nowStore := 602500 |}.

(** The product of the repository's test "should reject products with
    invalid data types", which has a valid title, and a well-typed product
    with the same title. *)
Definition illTypedProduct : Product.t :=
  {| Product.title := Js.VStr "Test";
     Product.description := Js.VNum "123";
     Product.tags := Product.TagsOther (Js.VStr "not-array");
     Product.vendor := "test";
     Product.productType := "test";
     Product.metafields := [];
     Product.reviewData := None |}.

Definition wellTypedProduct : Product.t :=
  {| Product.title := Js.VStr "Test";
     Product.description := Js.VStr "test";
     Product.tags := Product.TagsArray [];
     Product.vendor := "test";
     Product.productType := "test";
     Product.metafields := [];
     Product.reviewData := None |}.

End Samples.

(* ===================================================================== *)
(** * The vocabulary of the statements *)
(* ===================================================================== *)

(** Runs of cache operations. *)
Module CacheSpec.
Import Builtins LlmAnalysis.

(** The comparator [setCachedAnalysis] sorts the entries with. *)
Definition byTimestamp (a b : string * CacheEntry) : Z :=
  timestamp a.2 - timestamp b.2.

(** One operation on the cache, with the clock value it reads. *)
Inductive CacheOp : Type :=
| OpGet (now : Z) (contentHash : string)
| OpSet (now : Z) (contentHash : string) (analysis : ProductAnalysis.t).

Definition runOp (cache : JsMap CacheEntry) (op : CacheOp) : JsMap CacheEntry :=
  match op with
  | OpGet now h => (getCachedAnalysis now h cache).2
  | OpSet now h a => setCachedAnalysis now h a cache
  end.

(** The cache after a sequence of operations on the empty cache the module
    starts with. *)
Definition runOps (ops : list CacheOp) : JsMap CacheEntry :=
  fold_left runOp ops [].

(** An insertion: when, under which hash, what. *)
Record Insertion : Type := mkInsertion {
  insertedAt : Z;
  insertedHash : string;
  inserted : ProductAnalysis.t
}.

Definition entryOf (i : Insertion) : string * CacheEntry :=
  (insertedHash i, mkCacheEntry (inserted i) (insertedAt i) (insertedHash i)).

Definition insertAll (items : list Insertion) (cache : JsMap CacheEntry)
  : JsMap CacheEntry :=
  fold_left (λ c i, setCachedAnalysis (insertedAt i) (insertedHash i) (inserted i) c)
            items cache.

Definition minutes (n : Z) : Z := n * 60 * 1000.

(** The 1001 insertions of the capacity scenario: hash ["i"] at clock
    value [i], for [i] from 0 to 1000. *)
Definition insertionNumber (i : nat) : Insertion :=
  mkInsertion (Z.of_nat i) (pretty i) Samples.sampleAnalysis.

End CacheSpec.

(** Records and their digests. *)
Module FingerprintSpec.
Import Builtins ErrorHandler LlmAnalysis.

(** The comparator [generateContentHash] sorts the metafields with. *)
Definition byKey `{Host} (a b : Product.Metafield) : Z :=
  localeCompare (Product.key a) (Product.key b).

(** The digest of a record; [None] when [generateContentHash] throws. *)
Definition fingerprint `{Host} (r : Product.t) : option string :=
  match generateContentHash r with
  | inr (digest, _) => Some digest
  | inl _ => None
  end.

(** Two records that are equal field by field, up to the order of the
    [tags] array and of the [metafields] array. *)
Definition sameUpToOrder (r1 r2 : Product.t) : Prop :=
  Product.title r1 = Product.title r2 ∧
  Product.description r1 = Product.description r2 ∧
  Product.vendor r1 = Product.vendor r2 ∧
  Product.productType r1 = Product.productType r2 ∧
  Product.reviewData r1 = Product.reviewData r2 ∧
  Product.metafields r1 ≡ₚ Product.metafields r2 ∧
  ∃ t1 t2, Product.tags r1 = Product.TagsArray t1
           ∧ Product.tags r2 = Product.TagsArray t2 ∧ t1 ≡ₚ t2.

(** No two different metafields of the list have keys that the collation
    ranks equal. *)
Definition keysSeparate `{Host} (metafields : list Product.Metafield) : Prop :=
  ∀ a b, a ∈ metafields → b ∈ metafields →
         byKey a b ≤ 0 → byKey b a ≤ 0 → a = b.

(** The record of the repository's test with two metafields under the same
    key, in the two orders. *)
Definition twoColours (first second : string) : Product.t :=
  {| Product.title := Js.VStr "Test Snowboard";
     Product.description := Js.VStr "A great snowboard for beginners";
     Product.tags := Product.TagsArray ["snowboard"; "winter"; "sports"]%string;
     Product.vendor := "Test Vendor";
     Product.productType := "Snowboard";
     Product.metafields := [ Product.mkMetafield "color" first;
                             Product.mkMetafield "color" second ];
     Product.reviewData := None |}.

(** What [generateContentHash] leaves of the record it is given. *)
Definition sortedInPlace `{Host} (before after : Product.t) : Prop :=
  Product.title after = Product.title before ∧
  Product.description after = Product.description before ∧
  Product.vendor after = Product.vendor before ∧
  Product.productType after = Product.productType before ∧
  Product.reviewData after = Product.reviewData before ∧
  Product.metafields after = sortBy byKey (Product.metafields before) ∧
  Product.metafields after ≡ₚ Product.metafields before ∧
  ∃ items, Product.tags before = Product.TagsArray items
           ∧ Product.tags after = Product.TagsArray (sortBy compareStrings items)
           ∧ sortBy compareStrings items ≡ₚ items.

End FingerprintSpec.

(** Failures the retry loop tells apart. *)
Module RetrySpec.
Import ErrorHandler LlmAnalysis.

(** The error the timer of [Promise.race] rejects with. *)
Definition timeoutError : JsError := Error "Request timeout".

(** The test of the [catch] block for sleeping and trying again, apart
    from the attempt count: the status is none of 400, 401, 403 (that test
    comes first), and the error is a rate-limit or a network error. *)
Definition retryable (error : JsError) : bool :=
  negb (isClientStatus error) && (isRateLimitError error || isNetworkError error).

(** The delay slept after the failure of [attempt], in milliseconds. *)
Definition backoff (attempt : nat) : Z := 2 ^ Z.of_nat attempt * 1000.

End RetrySpec.

(** Outcomes of a call and where a rate-limit mark comes from. *)
Module OrchestratorSpec.
Import Builtins ErrorHandler LlmAnalysis.

(** What the service returns for a failure: the fallback for the title,
    marked fresh, with [rateLimited: true] when [marked]. *)
Definition failureResult (title : Js.Value) (marked : bool) : AnalyzeResult :=
  mkResult (createFallbackAnalysis title) (Some Fresh)
           (if marked then Some true else None).

(** A structurally complete fallback, as the specification describes it:
    zero scores, the fixed "temporarily unavailable" gap message, one
    optimization entry of the system-error category, and placeholders
    instead of empty collections under the review recommendations; the
    improved content carries the title of the product, with a notice where
    suggestions would stand and no enhancement. *)
Definition structurallyComplete (title : Js.Value) (a : ProductAnalysis.t) : Prop :=
  let notice := "Analysis service temporarily unavailable"%string in
  ProductAnalysis.scores a = Scores.mk 0 0 0 0 0 0 ∧
  ProductAnalysis.contentStrengths a = ["Product information is present"%string] ∧
  ProductAnalysis.contentGaps a
  = ["Analysis temporarily unavailable - please try again"%string] ∧
  ProductAnalysis.llmOptimizations a
  = [Optimization.mk
       "System Error" 0
       ["Analysis service is temporarily unavailable. Please try again in a few moments."%string]
       (Js.VObj [])] ∧
  ProductAnalysis.improvedContent a
  = ImprovedContent.mk title [notice] "Please try analyzing this product again" [notice]
                       (Some (SpecificEnhancements.mk title [] [] [] [])) ∧
  ProductAnalysis.reviewEnhancedRecommendations a
  = Some (ReviewRecommendations.mk [notice] [notice] [notice] [notice] [notice]).

(** Some upstream attempt failed with an error that [isRateLimitError]
    classifies as a rate limit. *)
Definition upstreamRateLimited (env : Env) : Prop :=
  ∃ attempt error,
    (1 ≤ attempt ≤ 3)%nat ∧
    race (upstream env attempt) = inl (ThrowError error) ∧
    isRateLimitError error = true.

(** [JSON.parse] rejected the answer of the upstream with a message that
    contains "rate limit". *)
Definition parseErrorMentionsRateLimit `{Host} (env : Env) : Prop :=
  ∃ attempt ms content msg,
    (1 ≤ attempt ≤ 3)%nat ∧
    upstream env attempt = ApiResolves ms (ResponseContent (Some content)) ∧
    JSON_parse content = inl msg ∧
    Js.includes "rate limit" (Js.toLowerCase msg) = true.

(** The messages with which [JSON.parse] rejects a text never contain
    "rate limit". *)
Definition parseErrorsPlain `{Host} : Prop :=
  ∀ content msg, JSON_parse content = inl msg →
                 Js.includes "rate limit" (Js.toLowerCase msg) = false.

(** Every analysis in the cache satisfies the invariant of the scores. *)
Definition cacheScoresOk (cache : JsMap CacheEntry) : Prop :=
  ∀ kv, kv ∈ cache → Scores.composite_ok (ProductAnalysis.scores (analysis kv.2)).

(** The server states reached from the initial one (empty cache, fresh
    limiters) by calls of [analyzeLLMDiscoverability]. *)
Inductive reachable `{Host} : Server → Prop :=
| reachable_initial openaiLimit bulkLimit :
    reachable (mkServer [] (RateLimiter.initialLimiters openaiLimit bulkLimit))
| reachable_call server product options env :
    reachable server →
    reachable (LlmAnalysis.server
                 (analyzeLLMDiscoverability product options env server).2).

End OrchestratorSpec.

(* ===================================================================== *)
(** * Further parts of the application *)
(* ===================================================================== *)

(** [array.length] as a number. *)
Module JsArray.

Definition lengthNumber {A : Type} (l : list A) : float :=
  PrimFloat.of_uint63 (Uint63.of_Z (Z.of_nat (length l))).

End JsArray.

(** The course of a retry loop. *)
Module RetryTrace.
Import ErrorHandler LlmAnalysis RetrySpec.

(** The events of the attempts [attempt], ..., [attempt + more], with the
    sleeps between them. *)
Fixpoint attemptsFrom (attempt more : nat) : list Event :=
  match more with
  | O => [EvUpstreamCall attempt]
  | S more' =>
      EvUpstreamCall attempt :: EvSleep (backoff attempt)
        :: attemptsFrom (S attempt) more'
  end.

(** What the loop makes of the attempt it ends with. *)
Definition lastAttempt (settled : Result ApiResponse) : Result ApiResponse :=
  match settled with
  | inr response => ret response
  | inl ThrowUndefined =>
      throw (TypeError "Cannot read properties of undefined (reading 'status')")
  | inl (ThrowError error) =>
      if isClientStatus error then
        throw (OpenAIError ("API Error (" +:+ pretty (default 0 (status error)) +:+ ")"))
      else throw (OpenAIError (messageOrUnknown error))
  end.

(** The attempt failed with an error the loop sleeps and tries again on. *)
Definition failsRetryably (settled : Result ApiResponse) : Prop :=
  ∃ error, settled = inl (ThrowError error) ∧ retryable error = true.

End RetryTrace.

(** Labels of the optimization categories. *)
Module LabelSpec.
Import LlmAnalysis.

(** The string without its space characters. *)
Fixpoint withoutSpaces (s : string) : string :=
  match s with
  | EmptyString => EmptyString
  | String c rest =>
      if Ascii.eqb c " " then withoutSpaces rest else String c (withoutSpaces rest)
  end.

(** No white-space character stands anywhere in the string. *)
Fixpoint noWhiteSpace (s : string) : bool :=
  match s with
  | EmptyString => true
  | String c rest =>
      match afterSpace (String c rest) with
      | Some _ => false
      | None => noWhiteSpace rest
      end
  end.

(** A property of the category that the code spreads is not iterable. *)
Definition isNotIterable {A : Type} (x : Response.Spread A) : bool :=
  match x with
  | Response.NotIterable => true
  | _ => false
  end.

Definition spreadsNotIterable (c : Response.Category) : bool :=
  isNotIterable (Response.strengths c)
  || isNotIterable (Response.areasForImprovement c)
  || match Response.specificContentSuggestions c with
     | Some specific =>
         isNotIterable (Response.titleAdditions specific)
         || isNotIterable (Response.descriptionSentences specific)
         || isNotIterable (Response.suggestedTags specific)
         || isNotIterable (Response.featureBenefitPairs specific)
         || isNotIterable (Response.conversationalPhrases specific)
         || isNotIterable (Response.specifications specific)
     | None => false
     end.

End LabelSpec.

(* ===================================================================== *)
(** * The edit form of the route ([routes/app._index.tsx]) *)
(* ===================================================================== *)

Module EditForm.
Import LlmAnalysis.

(** [s.split(sep)] for a separator of one character: the pieces between
    the separators, in order; the empty string gives one empty piece. *)
Fixpoint split (sep : ascii) (s : string) : list string :=
  match s with
  | EmptyString => [EmptyString]
  | String c rest =>
      if Ascii.eqb c sep then EmptyString :: split sep rest
      else match split sep rest with
           | piece :: pieces => String c piece :: pieces
           | [] => [String c EmptyString]
           end
  end.

(** The [tags] field of the form, as [handleEditProduct] fills it:
    [Array.isArray(product.tags) ? product.tags.join(', ') : ''] *)
Definition formTags (tags : Product.Tags) : string :=
  match tags with
  | Product.TagsArray items => Js.join ", " items
  | Product.TagsOther _ => ""
  end.

(** The tags the [update] action sends to the shop:
    [tags.split(',').map(tag => tag.trim())] *)
Definition submittedTags (tags : string) : list string :=
  List.map trim (split "," tags).

(** The string has no comma. *)
Fixpoint noComma (s : string) : bool :=
  match s with
  | EmptyString => true
  | String c rest => negb (Ascii.eqb c ",") && noComma rest
  end.

End EditForm.

(* ===================================================================== *)
(** * The bulk analysis of the route ([routes/app._index.tsx]) *)
(* ===================================================================== *)

Module BulkAnalysis.
Import ErrorHandler Builtins LlmAnalysis.

(** A product node of the GraphQL answer. *)
Record ProductNode : Type := mkNode {
  nodeId : string;
  nodeTitle : Js.Value;
  nodeDescription : Js.Value;
  nodeHandle : string;
  nodeTags : Product.Tags;
  nodeVendor : string;
  nodeProductType : string;
  nodeMetafields : list Product.Metafield
}.

(** The first argument of the call of [analyzeLLMDiscoverability]:
    [description] is [product.description || ""]. *)
Definition contentOfNode (node : ProductNode) : Product.t :=
  {| Product.title := nodeTitle node;
     Product.description :=
       if Js.truthy (nodeDescription node) then nodeDescription node
       else Js.VStr "";
     Product.tags := nodeTags node;
     Product.vendor := nodeVendor node;
     Product.productType := nodeProductType node;
     Product.metafields := nodeMetafields node;
     Product.reviewData := None |}.

(** The second argument: [{ shopDomain: session.shop, productId: product.id }],
    without a [session]. *)
Definition optionsOfNode (shop : option string) (node : ProductNode) : option Options :=
  Some {| shopDomain := shop; productId := Some (nodeId node);
          judgeMeApiToken := None; session := None |}.

(** An element of [bulkResults]; [failed] is the property [error]. *)
Record BulkResult : Type := mkBulkResult {
  resultId : string;
  resultTitle : Js.Value;
  resultHandle : string;
  discoveryScore : float;
  resultScores : option Scores.t;
  needsImprovement : bool;
  topGap : string;
  topSuggestion : string;
  failed : bool
}.

(** The result pushed for an analysis that returned. *)
Definition productResult (node : ProductNode) (analysis : ProductAnalysis.t)
  : BulkResult :=
  let score := Scores.discoveryPotential (ProductAnalysis.scores analysis) in
  {| resultId := nodeId node;
     resultTitle := nodeTitle node;
     resultHandle := nodeHandle node;
     discoveryScore := score;
     resultScores := Some (ProductAnalysis.scores analysis);
     needsImprovement := (score <? 60)%float;
     topGap := firstOr (ProductAnalysis.contentGaps analysis)
                       "No specific gaps identified";
     topSuggestion :=
       match ProductAnalysis.llmOptimizations analysis with
       | first :: _ =>
           firstOr (Optimization.suggestions first)
                   "No specific suggestions available"
       | [] => "No specific suggestions available"
       end;
     failed := false |}.

(** The result pushed by the [catch] block of the loop. *)
Definition failedResult (node : ProductNode) : BulkResult :=
  {| resultId := nodeId node;
     resultTitle := nodeTitle node;
     resultHandle := nodeHandle node;
     discoveryScore := 0;
     resultScores := None;
     needsImprovement := true;
     topGap := "Analysis failed";
     topSuggestion := "Please analyze this product individually";
     failed := true |}.

(** The variables of the loop, with the server state and the upstream
    events of the calls made so far. *)
Record Loop : Type := mkLoop {
  loopServer : Server;
  pushed : list BulkResult;
  totalScore : float;
  lowScoreCount : nat;
  loopEvents : list Event
}.

(** One iteration: the product and what its call meets. *)
Definition iteration `{Host} (shop : option string) (loop : Loop)
           (item : ProductNode * Env) : Loop :=
  let '(node, env) := item in
  let '(settled, run) :=
    analyzeLLMDiscoverability (contentOfNode node) (optionsOfNode shop node)
                              env (loopServer loop) in
  match settled with
  | inr result =>
      let analysis := analysisOf result in
      let score := Scores.discoveryPotential (ProductAnalysis.scores analysis) in
      {| loopServer := LlmAnalysis.server run;
         pushed := pushed loop ++ [productResult node analysis];
         totalScore := (totalScore loop + score)%float;
         lowScoreCount :=
           if (score <? 60)%float then S (lowScoreCount loop) else lowScoreCount loop;
         loopEvents := loopEvents loop ++ events run |}
  | inl _ =>
      {| loopServer := LlmAnalysis.server run;
         pushed := pushed loop ++ [failedResult node];
         totalScore := totalScore loop;
         lowScoreCount := lowScoreCount loop;
         loopEvents := loopEvents loop ++ events run |}
  end.

(** The comparator of [bulkResults.sort]: the sign of
    [a.discoveryScore - b.discoveryScore], a [NaN] counting as 0. *)
Definition byScore (a b : BulkResult) : Z :=
  let v := (discoveryScore a - discoveryScore b)%float in
  if (v <? 0)%float then -1 else if (0 <? v)%float then 1 else 0.

Record StoreMetrics : Type := mkStoreMetrics {
  totalProducts : nat;
  averageScore : float;
  lowScores : nat;               (* the property [lowScoreCount] *)
  highPerformers : nat;
  mediumPerformers : nat;
  topPriorityFixes : list BulkResult
}.

(** What the [bulkAnalyze] branch of the action answers, the server state
    it leaves and the upstream events of its calls. *)
Record BulkOutcome : Type := mkBulkOutcome {
  bulkResults : list BulkResult;
  storeMetrics : StoreMetrics;
  bulkServer : Server;
  bulkEvents : list Event
}.

Definition bulkAnalyze `{Host} (shop : option string)
           (products : list (ProductNode * Env)) (server : Server) : BulkOutcome :=
  let loop :=
    fold_left (iteration shop) products (mkLoop server [] 0%float 0%nat []) in
  let averageScore :=
    if (0 <? length products)%nat
    then Scores.Math_round (totalScore loop / JsArray.lengthNumber products)%float
    else 0%float in
  let highPerformers :=
    length (List.filter (λ r, (80 <=? discoveryScore r)%float) (pushed loop)) in
  let mediumPerformers :=
    length (List.filter (λ r, (60 <=? discoveryScore r)%float
                              && (discoveryScore r <? 80)%float) (pushed loop)) in
  let sorted := sortBy byScore (pushed loop) in
  {| bulkResults := sorted;
     storeMetrics :=
       {| totalProducts := length products;
          averageScore := averageScore;
          lowScores := lowScoreCount loop;
          highPerformers := highPerformers;
          mediumPerformers := mediumPerformers;
          topPriorityFixes := take 5 (List.filter needsImprovement sorted) |};
     bulkServer := loopServer loop;
     bulkEvents := loopEvents loop |}.

(** What the loop keeps: the results pushed so far did not fail, each needs
    improvement exactly when its score is below 60, and [lowScoreCount]
    counts those that need improvement. *)
Definition loopOk (loop : Loop) : Prop :=
  Forall (λ r, failed r = false ∧ is_Some (resultScores r)
               ∧ needsImprovement r = (discoveryScore r <? 60)%float)
         (pushed loop) ∧
  lowScoreCount loop = length (List.filter needsImprovement (pushed loop)).

(** Two products of a shop: the product of the repository's test, and one
    without a title. *)
Definition sampleNodes : list (ProductNode * Env) :=
  [ (mkNode "gid://shopify/Product/1" (Js.VStr "Test Snowboard")
            (Js.VStr "A great snowboard for beginners") "test-snowboard"
            (Product.TagsArray ["snowboard"; "winter"; "sports"]%string)
            "Test Vendor" "Snowboard" [],
     Samples.envWith Samples.flakyUpstream);
    (mkNode "gid://shopify/Product/2" (Js.VStr "") Js.VNull "untitled"
            (Product.TagsArray []) "Test Vendor" "" [],
     Samples.laterEnv) ].

End BulkAnalysis.

(* ===================================================================== *)
(** * Review data ([review-data.server.ts]) *)
(* ===================================================================== *)

(** The conversions between numbers and strings, whose results the model
    takes from the host: [parseFloat], [parseInt(_, 10)] and the
    [Number::toString] of a template literal; and [JSON.parse] on the value
    of a metafield ([None] when it throws). *)
Class NumberHost : Type := mkNumberHost {
  parseFloat : string → float;
  parseInt10 : string → float;
  numberToString : float → string;
  JSON_parseValue : string → option Js.Value
}.

Module ReviewData.
Import ErrorHandler Builtins LlmAnalysis.

(** [interface JudgeMeReview] *)
Record Reviewer : Type := mkReviewer { reviewerName : string; verified : bool }.

Record JudgeMeReview : Type := mkReview {
  reviewId : string;
  rating : float;
  reviewTitle : option string;
  body : string;
  reviewer : option Reviewer;
  created_at : string;
  helpful_count : option float
}.

(** [interface JudgeMeMetafields] *)
Record Rating : Type := mkRating {
  ratingValue : float;
  scale_min : float;
  scale_max : float
}.

Record JudgeMeMetafields : Type := mkJudgeMe {
  ratingOf : option Rating;
  rating_count : option float
}.

(** A metafield as [extractJudgeMeMetafields] reads it: with an optional
    [namespace]. *)
Record Field : Type := mkField {
  fieldKey : string;
  fieldValue : string;
  fieldNamespace : option string
}.

(** The metafields of a [ProductContent] have no [namespace]. *)
Definition fieldOf (m : Product.Metafield) : Field :=
  mkField (Product.key m) (Product.value m) None.

(** [interface ReviewData] ([types/analysis.ts]) *)
Inductive Sentiment : Type := Positive | Negative | Neutral.

Record RecentReview : Type := mkRecent {
  recentRating : float;
  recentTitle : option string;
  recentBody : string;
  customerName : option string;
  verifiedPurchase : option bool;
  helpful : bool;
  date : string;
  sentiment : Sentiment
}.

Record t : Type := mk {
  averageRating : option float;
  reviewCount : option float;
  recentReviews : option (list RecentReview);
  commonPhrases : option (list string);
  frequentComplaints : option (list string);
  frequentPraises : option (list string)
}.

(** ** [extractJudgeMeMetafields] *)

(** [s.replace(pattern, '')] for a pattern that is a string: the first
    occurrence is taken out. *)
Fixpoint removeFirst (pattern s : string) : string :=
  if String.prefix pattern s then
    String.substring (String.length pattern)
                     (String.length s - String.length pattern) s
  else match s with
       | EmptyString => EmptyString
       | String c rest => String c (removeFirst pattern rest)
       end.

(** [ToString(v)], which [parseFloat] applies to its argument. *)
Fixpoint toStringValue (v : Js.Value) : string :=
  match v with
  | Js.VUndefined => "undefined"
  | Js.VNull => "null"
  | Js.VBool true => "true"
  | Js.VBool false => "false"
  | Js.VNum literal => literal
  | Js.VStr s => s
  | Js.VArr items =>
      Js.join "," (List.map (λ item, match item with
                                     | Js.VUndefined | Js.VNull => ""%string
                                     | _ => toStringValue item
                                     end) items)
  | Js.VObj _ => "[object Object]"
  end.

(** [v.name] for a property [name] that only an object of [JSON.parse] can
    have ([value], [scale_min], [scale_max]): reading it of [null] throws;
    a string, number, boolean or array has no such property. *)
Definition property (v : Js.Value) (name : string) : Result Js.Value :=
  match v with
  | Js.VUndefined =>
      throw (TypeError ("Cannot read properties of undefined (reading '"
                          +:+ name +:+ "')"))
  | Js.VNull =>
      throw (TypeError ("Cannot read properties of null (reading '" +:+ name +:+ "')"))
  | Js.VObj props => ret (default Js.VUndefined (mapGet name props))
  | _ => ret Js.VUndefined
  end.

(** The body of the [try] of [case 'rating'].  The [catch] does not read
    what was thrown. *)
Definition ratingFromJson `{NumberHost} (value : string) : Result Rating :=
  match JSON_parseValue value with
  | None => throw (SyntaxError "Unexpected token")
  | Some ratingData =>
      bind (property ratingData "value") (λ v,
      bind (property ratingData "scale_min") (λ lo,
      bind (property ratingData "scale_max") (λ hi,
      ret {| ratingValue := parseFloat (toStringValue v);
             scale_min := parseFloat (toStringValue lo);
             scale_max := parseFloat (toStringValue hi) |})))
  end.

(** What one metafield does to [reviewMetafields]. *)
Definition readField `{NumberHost} (acc : JudgeMeMetafields) (field : Field)
  : JudgeMeMetafields :=
  if bool_decide (fieldNamespace field = Some "reviews"%string)
     || String.prefix "reviews." (fieldKey field) then
    let key := removeFirst "reviews." (fieldKey field) in
    if String.eqb key "rating" then
      match ratingFromJson (fieldValue field) with
      | inr r => {| ratingOf := Some r; rating_count := rating_count acc |}
      | inl _ =>
          let rating := parseFloat (fieldValue field) in
          if PrimFloat.is_nan rating then acc
          else {| ratingOf := Some {| ratingValue := rating; scale_min := 1;
                                     scale_max := 5 |};
                  rating_count := rating_count acc |}
      end
    else if String.eqb key "rating_count" then
      {| ratingOf := ratingOf acc;
         rating_count := Some (parseInt10 (fieldValue field)) |}
    else acc
  else acc.

Definition extractJudgeMeMetafields `{NumberHost} (metafields : list Field)
  : JudgeMeMetafields :=
  fold_left readField metafields (mkJudgeMe None None).

(** ** [fetchJudgeMeReviews] *)

(** [network] is what the request to the Judge.me API comes to: the
    reviews of the answer, or the empty array for an answer that is not
    [ok] and for a failed request. *)
Definition fetchJudgeMeReviews (network : list JudgeMeReview)
           (apiToken : option string) : list JudgeMeReview :=
  match apiToken with
  | Some token => if String.eqb token "" then [] else network
  | None => []
  end.

(** ** [extractCommonPhrases] *)

(** [\w]: a letter, a digit or the underscore. *)
Definition isWordChar (c : ascii) : bool :=
  let n := nat_of_ascii c in
  ((48 <=? n) && (n <=? 57) || (65 <=? n) && (n <=? 90)
   || (97 <=? n) && (n <=? 122) || (n =? 95))%nat.

(** [text.match(/\b\w+\b/g) || []]: the maximal runs of word characters,
    from left to right. *)
Fixpoint matchWords (text : string) : list string :=
  match text with
  | EmptyString => []
  | String c rest =>
      if isWordChar c then
        match rest with
        | String c' _ =>
            if isWordChar c' then
              match matchWords rest with
              | word :: more => String c word :: more
              | [] => [String c EmptyString]
              end
            else String c EmptyString :: matchWords rest
        | EmptyString => [String c EmptyString]
        end
      else matchWords rest
  end.

(** The loop that fills [wordCount]. *)
Definition countWord (wordCount : JsMap Z) (word : string) : JsMap Z :=
  if 3 <? Z.of_nat (String.length word) then
    mapSet word (default 0 (mapGet word wordCount) + 1) wordCount
  else wordCount.

Definition countWords (words : list string) : JsMap Z :=
  fold_left countWord words [].

(** [extractCommonPhrases(text, keywords?)] *)
Definition extractCommonPhrases (text : string) (keywords : option (list string))
  : list string :=
  let wordCount := countWords (matchWords text) in
  match keywords with
  | Some keywords =>
      List.filter (λ keyword, Js.includes keyword text
                              && (1 <? default 0 (mapGet keyword wordCount)))
                  keywords
  | None =>
      List.map fst
        (take 10 (sortBy (λ a b : string * Z, b.2 - a.2) wordCount))
  end.

(** ** [analyzeReviewSentiment] *)

Record SentimentAnalysis : Type := mkSentiment {
  positiveReviews : list JudgeMeReview;
  negativeReviews : list JudgeMeReview;
  analysisPhrases : list string;       (* [commonPhrases] *)
  analysisComplaints : list string;    (* [frequentComplaints] *)
  analysisPraises : list string        (* [frequentPraises] *)
}.

Definition complaintKeywords : list string :=
  ["disappointed"; "poor"; "bad"; "terrible"; "awful"; "hate"; "worst";
   "cheap"; "flimsy"; "broke"; "broken"; "defective"; "problem"; "issue"]%string.

Definition praiseKeywords : list string :=
  ["love"; "amazing"; "perfect"; "excellent"; "fantastic"; "great"; "awesome";
   "quality"; "durable"; "comfortable"; "beautiful"; "stylish"; "recommend"]%string.

Definition analyzeReviewSentiment (reviews : list JudgeMeReview) : SentimentAnalysis :=
  let positiveReviews := List.filter (λ r, (4 <=? rating r)%float) reviews in
  let negativeReviews := List.filter (λ r, (rating r <=? 2)%float) reviews in
  let allText :=
    Js.toLowerCase
      (Js.join " " (List.map (λ r, (match reviewTitle r with
                                    | Some title => title
                                    | None => ""
                                    end) +:+ " " +:+ body r) reviews)) in
  let complaintText :=
    Js.join " " (List.map (λ r, Js.toLowerCase (body r)) negativeReviews) in
  let praiseText :=
    Js.join " " (List.map (λ r, Js.toLowerCase (body r)) positiveReviews) in
  {| positiveReviews := positiveReviews;
     negativeReviews := negativeReviews;
     analysisPhrases := extractCommonPhrases allText None;
     analysisComplaints := extractCommonPhrases complaintText (Some complaintKeywords);
     analysisPraises := extractCommonPhrases praiseText (Some praiseKeywords) |}.

(** ** [convertToReviewData] *)

Definition recentOf (review : JudgeMeReview) : RecentReview :=
  {| recentRating := rating review;
     recentTitle := reviewTitle review;
     recentBody := body review;
     customerName := option_map reviewerName (reviewer review);
     verifiedPurchase := option_map verified (reviewer review);
     helpful := (0 <? scoreOrZero (helpful_count review))%float;
     date := created_at review;
     sentiment := if (4 <=? rating review)%float then Positive
                  else if (rating review <=? 2)%float then Negative
                  else Neutral |}.

Definition convertToReviewData (metafields : JudgeMeMetafields)
           (reviews : list JudgeMeReview) : t :=
  let analysis := analyzeReviewSentiment reviews in
  {| averageRating := option_map ratingValue (ratingOf metafields);
     reviewCount := rating_count metafields;
     recentReviews := Some (List.map recentOf (take 20 reviews));
     commonPhrases := Some (analysisPhrases analysis);
     frequentComplaints := Some (analysisComplaints analysis);
     frequentPraises := Some (analysisPraises analysis) |}.

(** ** [fetchProductReviewData] *)

(** [!x] for an optional number: [undefined], the zeros and [NaN]. *)
Definition numberFalsy (x : option float) : bool :=
  match x with
  | Some v => PrimFloat.is_zero v || PrimFloat.is_nan v
  | None => true
  end.

Definition stringTruthy (s : option string) : bool :=
  match s with
  | Some v => negb (String.eqb v "")
  | None => false
  end.

(** [fetchProductReviewData(metafields, shopDomain, productId, judgeMeApiToken)];
    [None] is the [null] it resolves to. *)
Definition fetchProductReviewData `{NumberHost} (network : list JudgeMeReview)
           (metafields : list Field)
           (shopDomain productId judgeMeApiToken : option string) : option t :=
  let metafieldData := extractJudgeMeMetafields metafields in
  if match ratingOf metafieldData with Some _ => false | None => true end
     && numberFalsy (rating_count metafieldData) then None
  else
    let detailedReviews :=
      if stringTruthy shopDomain && stringTruthy productId
         && stringTruthy judgeMeApiToken
      then fetchJudgeMeReviews network judgeMeApiToken
      else [] in
    Some (convertToReviewData metafieldData detailedReviews).

(** ** [buildReviewContext] ([llm-analysis.server.ts]) *)

Definition nonEmpty {A : Type} (l : option (list A)) : bool :=
  match l with
  | Some (_ :: _) => true
  | _ => false
  end.

(** The array [context]. *)
Definition reviewContextLines `{NumberHost} (reviewData : t) : list string :=
  (if negb (numberFalsy (averageRating reviewData))
      && negb (numberFalsy (reviewCount reviewData))
   then ["Average Rating: "
           +:+ numberToString (default 0%float (averageRating reviewData))
           +:+ "/5 ("
           +:+ numberToString (default 0%float (reviewCount reviewData))
           +:+ " reviews)"]
   else [])
  ++ (if nonEmpty (frequentPraises reviewData)
      then ["Frequently Praised: "
              +:+ Js.join ", " (default [] (frequentPraises reviewData))]
      else [])
  ++ (if nonEmpty (frequentComplaints reviewData)
      then ["Common Complaints: "
              +:+ Js.join ", " (default [] (frequentComplaints reviewData))]
      else [])
  ++ (if nonEmpty (commonPhrases reviewData)
      then ["Customer Language: "
              +:+ Js.join ", " (default [] (commonPhrases reviewData))]
      else [])
  ++ (if nonEmpty (recentReviews reviewData)
      then
        let sampleReviews :=
          List.map (λ review,
                      String (ascii_of_nat 34)
                        (recentBody review
                           +:+ String (ascii_of_nat 34)
                                 (" (" +:+ numberToString (recentRating review)
                                       +:+ "/5)")))
                   (take 3 (default [] (recentReviews reviewData))) in
        ["Sample Reviews: " +:+ Js.join " | " sampleReviews]
      else []).

Definition buildReviewContext `{NumberHost} (reviewData : t) : string :=
  Js.join (String (ascii_of_nat 10) "") (reviewContextLines reviewData).

(** ** The vocabulary of the statements *)

(** How often [word] is among [words]. *)
Definition occurrences (word : string) (words : list string) : Z :=
  Z.of_nat (length (List.filter (String.eqb word) words)).

(** The comparator [extractCommonPhrases] sorts the entries of [wordCount]
    with. *)
Definition byCount (a b : string * Z) : Z := b.2 - a.2.

(** What [wordCount] holds for a word after the words [seen]. *)
Definition counted (word : string) (seen : list string) : option Z :=
  if (3 <? Z.of_nat (String.length word)) && (0 <? occurrences word seen)
  then Some (occurrences word seen) else None.

(** A host that knows the numbers of the examples: the texts [4.3] and
    [12], and the JSON texts [4.3] and [{"value":"4.3"}]. *)
Definition sampleNumbers : NumberHost :=
  {| parseFloat := λ s, if String.eqb s "4.3" then 4.3%float else nan;
     parseInt10 := λ s, if String.eqb s "12" then 12%float else nan;
     numberToString := λ x, if (x =? 4.3)%float then "4.3"%string
                            else if (x =? 12)%float then "12"%string
                            else "NaN"%string;
     JSON_parseValue := λ s,
       if String.eqb s "4.3" then Some (Js.VNum "4.3")
       else if String.eqb s ("{" +:+ Js.quote "value" +:+ ":" +:+ Js.quote "4.3" +:+ "}")
       then Some (Js.VObj [("value"%string, Js.VStr "4.3")])
       else None |}.

End ReviewData.

(* ===================================================================== *)
(** * The site metrics of the scraper ([scraper.server.ts]) *)
(* ===================================================================== *)

Module Scraper.
Import LlmAnalysis.

(** [interface ScrapedProductContent] ([types/scraping.ts]), without the
    date of the scrape. *)
Record ScrapedProductContent : Type := mkScraped {
  scrapedTitle : string;
  scrapedDescription : string;
  price : option string;
  images : list string;
  url : string;
  scrapedFrom : string;
  platform : option string
}.

(** [SiteAnalysis['siteMetrics']] *)
Record SiteMetrics : Type := mkSiteMetrics {
  totalProducts : nat;
  averageProductScore : float;
  topIssues : list string;
  improvement_opportunities : list string
}.

(** [set.add(x)] on a [Set<string>], kept as its elements in insertion
    order. *)
Definition setAdd (set : list string) (x : string) : list string :=
  if bool_decide (x ∈ set) then set else set ++ [x].

(** [detectEcommercePlatform(html)] *)
Definition detectEcommercePlatform (html : string) : option string :=
  if Js.includes "shopify" html then Some "Shopify"%string
  else if Js.includes "woocommerce" html then Some "WooCommerce"%string
  else if Js.includes "magento" html then Some "Magento"%string
  else None.

(** [calculateSiteMetrics(products, analysisResults)] *)
Definition calculateSiteMetrics (products : list ScrapedProductContent)
           (analysisResults : list ProductAnalysis.t) : SiteMetrics :=
  let scores :=
    List.map (λ result, Scores.discoveryPotential (ProductAnalysis.scores result))
             analysisResults in
  let averageScore :=
    (fold_left (λ a b, a + b) scores 0 / JsArray.lengthNumber scores)%float in
  let issues :=
    fold_left (λ issues result,
                 fold_left setAdd (ProductAnalysis.contentGaps result) issues)
              analysisResults [] in
  let opportunities :=
    fold_left (λ opportunities result,
                 fold_left (λ opportunities opt,
                              fold_left setAdd (Optimization.suggestions opt)
                                        opportunities)
                           (ProductAnalysis.llmOptimizations result) opportunities)
              analysisResults [] in
  {| totalProducts := length products;
     averageProductScore := Scores.Math_round averageScore;
     topIssues := take 5 issues;
     improvement_opportunities := take 5 opportunities |}.

(** Every gap of the analyses, in the order in which the loops reach
    them. *)
Definition allGaps (analysisResults : list ProductAnalysis.t) : list string :=
  List.flat_map ProductAnalysis.contentGaps analysisResults.

Definition allSuggestions (analysisResults : list ProductAnalysis.t) : list string :=
  List.flat_map (λ result, List.flat_map Optimization.suggestions
                                         (ProductAnalysis.llmOptimizations result))
                analysisResults.

(** The elements of a list without their repetitions, each where it
    stands first. *)
Fixpoint firstOccurrences (seen l : list string) : list string :=
  match l with
  | [] => []
  | x :: rest =>
      if bool_decide (x ∈ seen) then firstOccurrences seen rest
      else x :: firstOccurrences (x :: seen) rest
  end.

End Scraper.

(** The string that is hashed. *)
Module ContentString.
Import Builtins ErrorHandler LlmAnalysis.

(** [contentString] of [generateContentHash]: the argument of the hash;
    [None] when [product.tags.sort] throws. *)
Definition contentStringOf `{Host} (product : Product.t) : option string :=
  match Product.tags product with
  | Product.TagsArray items =>
      Some (default ""%string
              (Js.stringify
                 (contentObject (Product.title product) (Product.description product)
                    (sortBy compareStrings items)
                    (Product.vendor product) (Product.productType product)
                    (sortBy (λ a b, localeCompare (Product.key a) (Product.key b))
                            (Product.metafields product))
                    (Product.reviewData product))))
  | Product.TagsOther _ => None
  end.

(** The value of a hexadecimal digit. *)
Definition hexValue (c : ascii) : option N :=
  let n := N_of_ascii c in
  if (48 <=? n)%N && (n <=? 57)%N then Some (n - 48)%N
  else if (97 <=? n)%N && (n <=? 102)%N then Some (n - 87)%N
  else None.

(** The first character of the text between the quotes of a JSON string,
    and the rest: the inverse of [Js.escapeChar].  [None] at the closing
    quote and on a text that is not an escaped string. *)
Definition unescapeHead (s : string) : option (ascii * string) :=
  match s with
  | EmptyString => None
  | String c rest =>
      if (N_of_ascii c =? 34)%N then None
      else if (N_of_ascii c =? 92)%N then
        match rest with
        | EmptyString => None
        | String e rest' =>
            if (N_of_ascii e =? 34)%N then Some (ascii_of_nat 34, rest')
            else if (N_of_ascii e =? 92)%N then Some (ascii_of_nat 92, rest')
            else if Ascii.eqb e "b" then Some (ascii_of_nat 8, rest')
            else if Ascii.eqb e "t" then Some (ascii_of_nat 9, rest')
            else if Ascii.eqb e "n" then Some (ascii_of_nat 10, rest')
            else if Ascii.eqb e "f" then Some (ascii_of_nat 12, rest')
            else if Ascii.eqb e "r" then Some (ascii_of_nat 13, rest')
            else if Ascii.eqb e "u" then
              match rest' with
              | String _ (String _ (String h1 (String h2 rest''))) =>
                  match hexValue h1, hexValue h2 with
                  | Some a, Some b => Some (ascii_of_N (16 * a + b), rest'')
                  | _, _ => None
                  end
              | _ => None
              end
            else None
        end
      else Some (c, rest)
  end.

(** What follows the first element of a joined array. *)
Definition joinTail (parts : list string) : string :=
  match parts with
  | [] => ""
  | _ :: _ => "," +:+ Js.join "," parts
  end.

(** The serialization of a metafield. *)
Definition metafieldString (m : Product.Metafield) : string :=
  "{" +:+ Js.quote "key" +:+ ":" +:+ Js.quote (Product.key m)
      +:+ "," +:+ Js.quote "value" +:+ ":" +:+ Js.quote (Product.value m) +:+ "}".

End ContentString.

(** The composite score of whole-number sub-scores. *)
Module ScoreSums.

(** The number [z] as a float. *)
Definition ofZ (z : Z) : float := PrimFloat.of_uint63 (Uint63.of_Z z).

(** The whole numbers from 0 to 100. *)
Definition wholeScores : list Z := List.map Z.of_nat (seq 0 101).

(** Partial sums of the weighted sum are kept in a map: under the exact sum
    in hundredths, the floats that the evaluation can give for it. *)
Definition holds (sums : gmap Z (list float)) (p : Z * float) : Prop :=
  ∃ xs, sums !! p.1 = Some xs ∧ p.2 ∈ xs.

Definition addSum (n : Z) (x : float) (sums : gmap Z (list float)) : gmap Z (list float) :=
  match sums !! n with
  | Some xs =>
      if existsb (PrimFloat.Leibniz.eqb x) xs then sums else <[n := x :: xs]> sums
  | None => <[n := [x]]> sums
  end.

Definition pairsOf (sums : gmap Z (list float)) : list (Z * float) :=
  flat_map (λ kv : Z * list float, List.map (λ x, (kv.1, x)) kv.2) (map_to_list sums).

(** The sums after one more term [score * factor], for every whole score. *)
Definition addTerm (weight : Z) (factor : float) (acc : gmap Z (list float)) (p : Z * float) : gmap Z (list float) :=
  fold_left (λ acc s, addSum (p.1 + weight * s) (p.2 + ofZ s * factor)%float acc)
            wholeScores acc.

Definition stage (weight : Z) (factor : float) (sums : gmap Z (list float)) : gmap Z (list float) :=
  fold_left (addTerm weight factor) (pairsOf sums) ∅.

Definition stage1 : gmap Z (list float) :=
  fold_left (λ acc s, addSum (25 * s) (ofZ s * 0.25)%float acc) wholeScores ∅.

(** The sums of [Scores.weightedSum] over whole sub-scores from 0 to 100. *)
Definition stage5 : gmap Z (list float) :=
  stage 15 0.15 (stage 15 0.15 (stage 20 0.20 (stage 25 0.25 stage1))).

(** [Math.round] of the float is a whole number nearest to the exact sum
    [p.1 / 100]: the one rounding half up gives, or at a tie the one
    below. *)
Definition roundsWell (p : Z * float) : bool :=
  let n := Scores.Math_round p.2 in
  let k := (p.1 + 50) / 100 in
  PrimFloat.Leibniz.eqb n (ofZ k)
  || ((p.1 mod 100 =? 50) && PrimFloat.Leibniz.eqb n (ofZ (k - 1))).

End ScoreSums.

(** ** The user prompt ([ANALYSIS_USER_PROMPT], [analyzeLLMDiscoverability]) *)
Module Prompt.
Import ErrorHandler ReviewData.

Definition newline : string := String (ascii_of_nat 10) "".
Definition dq : string := String (ascii_of_nat 34) "".

(** A text of several lines. *)
Definition lines (l : list string) : string := Js.join newline l.

(** [GetSubstitution] for a match without capture groups: [$$] is a dollar
    sign, [$&] the matched text, [$`] the text before the match and [$'] the
    text after it; any other dollar sign stands for itself. *)
Fixpoint getSubstitution (matched preceding following replacement : string) : string :=
  match replacement with
  | EmptyString => EmptyString
  | String c tail =>
      if Ascii.eqb c "$" then
        match tail with
        | EmptyString => "$"
        | String d rest =>
            if Ascii.eqb d "$" then
              String "$" (getSubstitution matched preceding following rest)
            else if Ascii.eqb d "&" then
              matched +:+ getSubstitution matched preceding following rest
            else if Ascii.eqb d "`" then
              preceding +:+ getSubstitution matched preceding following rest
            else if Ascii.eqb d "'" then
              following +:+ getSubstitution matched preceding following rest
            else String "$" (getSubstitution matched preceding following tail)
        end
      else String c (getSubstitution matched preceding following tail)
  end.

(** [s.indexOf(pattern)] *)
Fixpoint indexOf (pattern s : string) : option nat :=
  if String.prefix pattern s then Some 0%nat
  else match s with
       | EmptyString => None
       | String _ rest => S <$> indexOf pattern rest
       end.

(** [s.replace(pattern, replacement)] for a string [pattern]: the first
    occurrence only. *)
Definition replace (pattern replacement s : string) : string :=
  match indexOf pattern s with
  | None => s
  | Some pos =>
      let preceding := String.substring 0 pos s in
      let following :=
        String.substring (pos + String.length pattern)
                         (String.length s - pos - String.length pattern) s in
      preceding
        +:+ getSubstitution pattern preceding following replacement
        +:+ following
  end.

Definition promptIntroduction : string :=
  "Analyze this product content for LLM discoverability and provide SPECIFIC, ACTIONABLE content recommendations:".

(** The template from the line after [{metafields}] on. *)
Definition promptGuidance : list string :=
  [ "";
    "Consider how an LLM would process and understand this content when:";
    "1. Matching it to user queries like " +:+ dq +:+ "best [product] for [use case]" +:+ dq;
    "2. Explaining it to potential customers in conversational language";
    "3. Comparing it with alternatives in the same category";
    "4. Making recommendations based on specific customer needs";
    "";
    "For each optimization suggestion, provide EXACT content that the merchant can copy and paste. For example:";
    "- Instead of " +:+ dq +:+ "improve title" +:+ dq +:+ ", suggest: " +:+ dq
      +:+ "Change title to: '[Current Product Name] - Professional All-Mountain Snowboard for Advanced Riders (156cm)'"
      +:+ dq;
    "- Instead of " +:+ dq +:+ "add benefits" +:+ dq +:+ ", provide: " +:+ dq
      +:+ "Add this sentence: 'Experience 40% better edge control on icy slopes with our patented grip technology, perfect for skiers who demand precision on challenging terrain.'"
      +:+ dq;
    "- Instead of " +:+ dq +:+ "include specifications" +:+ dq +:+ ", list: " +:+ dq
      +:+ "Add these specs: Length: 156cm, Width: 25.2cm, Weight: 3.2kg, Flex Rating: 7/10 (stiff)"
      +:+ dq;
    "";
    "Focus on creating content that sounds natural, includes specific details, and addresses real customer questions and use cases.";
    "";
    "Provide a detailed analysis following the specified JSON format with concrete, copy-paste ready content suggestions." ].

Definition ANALYSIS_USER_PROMPT : string :=
  lines ([ promptIntroduction;
           "";
           "Title: {title}";
           "Description: {description}";
           "Product Type: {productType}";
           "Tags: {tags}";
           "Vendor: {vendor}";
           "Additional Metadata: {metafields}" ] ++ promptGuidance).

(** What is added to the prompt after the template. *)
Definition reviewParagraph `{NumberHost} (reviewData : option ReviewData.t) : string :=
  match reviewData with
  | Some data =>
      newline +:+ newline +:+ "REVIEW DATA AVAILABLE:" +:+ newline
        +:+ buildReviewContext data +:+ newline +:+ newline
        +:+ "Please analyze how well the product content aligns with customer feedback and provide review-enhanced recommendations."
  | None =>
      newline +:+ newline
        +:+ "NO REVIEW DATA: This product doesn't have review data yet. Focus on standard LLM optimization and suggest how reviews could enhance discoverability once available."
  end.

(** [product.tags.join(', ')] *)
Definition joinedTags (tags : Product.Tags) : Result string :=
  match tags with
  | Product.TagsArray items => ret (Js.join ", " items)
  | Product.TagsOther Js.VUndefined =>
      throw (TypeError "Cannot read properties of undefined (reading 'join')")
  | Product.TagsOther Js.VNull =>
      throw (TypeError "Cannot read properties of null (reading 'join')")
  | Product.TagsOther _ => throw (TypeError "product.tags.join is not a function")
  end.

(** "Build enhanced user prompt with review data" in
    [analyzeLLMDiscoverability]: [userPrompt] when the request is sent. *)
Definition userPrompt `{NumberHost} (product : Product.t)
           (reviewData : option ReviewData.t) : Result string :=
  let withTitle :=
    replace "{title}" (toStringValue (Product.title product)) ANALYSIS_USER_PROMPT in
  let withDescription :=
    replace "{description}" (toStringValue (Product.description product)) withTitle in
  let withProductType :=
    replace "{productType}" (Product.productType product) withDescription in
  bind (joinedTags (Product.tags product)) (λ tags,
  let withTags := replace "{tags}" tags withProductType in
  let withVendor := replace "{vendor}" (Product.vendor product) withTags in
  let withMetafields :=
    replace "{metafields}"
            (default ""%string
               (Js.stringify
                  (Js.VArr (List.map Product.metafieldValue (Product.metafields product)))))
            withVendor in
  ret (withMetafields +:+ reviewParagraph reviewData)).

(** A text without an opening brace. *)
Definition noBrace (s : string) : bool := negb (Js.includes "{" s).

(** The characters that make a pattern of a dollar sign before them. *)
Definition patternCharacter (c : ascii) : bool :=
  Ascii.eqb c "$" || Ascii.eqb c "&" || Ascii.eqb c "`" || Ascii.eqb c "'".

(** The text is empty or starts with another character than those. *)
Definition plainStart (s : string) : bool :=
  match s with
  | EmptyString => true
  | String c _ => negb (patternCharacter c)
  end.

(** A text in which no dollar sign is followed by [$], [&], [`] or [']. *)
Fixpoint literalDollars (s : string) : bool :=
  match s with
  | EmptyString => true
  | String c tail =>
      (if Ascii.eqb c "$" then plainStart tail else true) && literalDollars tail
  end.

Definition plainText (s : string) : bool := noBrace s && literalDollars s.

End Prompt.

(* ===================================================================== *)
(** * Properties of the rate limiter *)
(* ===================================================================== *)

Module RateLimiterFacts.
Import RateLimiter.

Lemma isAllowed_new_window now identifier rl :
  liveWindow now identifier rl = None →
  isAllowed now identifier rl
  = (true, with_limits rl
             (<[identifier := mkEntry 1 (now + windowMs rl)]> (limits rl))).
Proof.
  unfold liveWindow, isAllowed.
  destruct (limits rl !! identifier) as [entry|]; [|done].
  by destruct (now >=? resetTime entry).
Qed.

Lemma isAllowed_live now identifier rl entry :
  liveWindow now identifier rl = Some entry →
  isAllowed now identifier rl
  = if count entry >=? maxRequests rl then (false, rl)
    else (true, with_limits rl
                  (<[identifier := mkEntry (count entry + 1) (resetTime entry)]>
                     (limits rl))).
Proof.
  unfold liveWindow, isAllowed.
  destruct (limits rl !! identifier) as [e|]; [|done].
  destruct (now >=? resetTime e); [done|]. by intros [= ->].
Qed.

Lemma liveWindow_lookup now identifier rl entry :
  limits rl !! identifier = Some entry → now < resetTime entry →
  liveWindow now identifier rl = Some entry.
Proof.
  unfold liveWindow. intros -> Hlt.
  destruct (Z.geb_spec now (resetTime entry)); [lia|done].
Qed.

Lemma fixed_window_step_holds now identifier rl :
  fixed_window_step now identifier rl.
Proof.
  unfold fixed_window_step.
  destruct (liveWindow now identifier rl) as [entry|] eqn:Hlive.
  - rewrite (isAllowed_live _ _ _ _ Hlive).
    destruct (Z.geb_spec (count entry) (maxRequests rl)); simpl.
    + repeat split; try done; intros; lia.
    + repeat split; try done.
      * intros other Hne. by rewrite lookup_insert_ne.
      * by rewrite lookup_insert_eq.
  - rewrite (isAllowed_new_window _ _ _ Hlive). simpl.
    repeat split; try done.
    + intros other Hne. by rewrite lookup_insert_ne.
    + by rewrite lookup_insert_eq.
Qed.

(** A request inside a live window that still has room. *)
Lemma isAllowed_count now identifier rl c r :
  limits rl !! identifier = Some (mkEntry c r) → now < r → c < maxRequests rl →
  isAllowed now identifier rl
  = (true, with_limits rl (<[identifier := mkEntry (c + 1) r]> (limits rl))).
Proof.
  intros Hl Hnow Hc.
  rewrite (isAllowed_live now identifier rl (mkEntry c r)).
  - simpl. destruct (Z.geb_spec c (maxRequests rl)); [lia|done].
  - by apply liveWindow_lookup.
Qed.

(** A request inside a live window that is full. *)
Lemma isAllowed_full now identifier rl c r :
  limits rl !! identifier = Some (mkEntry c r) → now < r → maxRequests rl ≤ c →
  isAllowed now identifier rl = (false, rl).
Proof.
  intros Hl Hnow Hc.
  rewrite (isAllowed_live now identifier rl (mkEntry c r)).
  - simpl. destruct (Z.geb_spec c (maxRequests rl)); [done|lia].
  - by apply liveWindow_lookup.
Qed.

Lemma quota_boundary_holds identifier rl t1 t2 t3 t4 t5 t6 t7 :
  maxRequests rl = 5 →
  liveWindow t1 identifier rl = None →
  t2 < t1 + windowMs rl → t3 < t1 + windowMs rl → t4 < t1 + windowMs rl →
  t5 < t1 + windowMs rl → t6 < t1 + windowMs rl →
  t1 + windowMs rl ≤ t7 →
  quota_boundary identifier rl t1 t2 t3 t4 t5 t6 t7.
Proof.
  intros Hmax Hnew H2 H3 H4 H5 H6 H7.
  unfold quota_boundary. cbn [requests].
  rewrite (isAllowed_new_window _ _ _ Hnew).
  set (r := t1 + windowMs rl) in *.
  assert (Hstep : ∀ now c m,
             now < r → c < 5 →
             isAllowed now identifier (with_limits rl (<[identifier := mkEntry c r]> m))
             = (true, with_limits rl (<[identifier := mkEntry (c + 1) r]> m))).
  { intros now c m Hnow Hc.
    rewrite (isAllowed_count now identifier _ c r); simpl;
      [ | by rewrite lookup_insert_eq | done | lia ].
    unfold with_limits; simpl. by rewrite insert_insert_eq. }
  rewrite !Hstep by lia. simpl.
  rewrite (isAllowed_full t6 identifier _ 5 r); simpl;
    [ | by rewrite lookup_insert_eq | done | lia ].
  simpl. rewrite lookup_insert_eq.
  rewrite isAllowed_new_window.
  - simpl. rewrite lookup_insert_eq. done.
  - unfold liveWindow. simpl. rewrite lookup_insert_eq. simpl.
    destruct (Z.geb_spec t7 r); [done|lia].
Qed.

(** C1.  [isAllowed] is a fixed-window counter.  For every limiter state,
    tenant and clock reading: with no live window (first request, or the
    clock has reached the reset time, the start of the window plus its
    length) a new window starts with count 1 and the request is allowed;
    in a live window the request is allowed exactly when the count is below
    [maxRequests], an allowed request adds one to the count and a denied
    one leaves the state as it was; other tenants and the configuration are
    never touched.  With [maxRequests = 5], of six requests in one window
    the first five are allowed and the sixth is denied, and a request after
    the window has elapsed is allowed and sets the count back to 1. *)
Theorem isAllowed_fixed_window_counter :
  (∀ now identifier rl, fixed_window_step now identifier rl) ∧
  (∀ identifier rl t1 t2 t3 t4 t5 t6 t7,
     maxRequests rl = 5 →
     liveWindow t1 identifier rl = None →
     t2 < t1 + windowMs rl → t3 < t1 + windowMs rl → t4 < t1 + windowMs rl →
     t5 < t1 + windowMs rl → t6 < t1 + windowMs rl →
     t1 + windowMs rl ≤ t7 →
     quota_boundary identifier rl t1 t2 t3 t4 t5 t6 t7).
Proof.
  split.
  - apply fixed_window_step_holds.
  - apply quota_boundary_holds.
Qed.

(** The boundary scenario on the bulk limiter as the module creates it (5
    requests an hour), for one shop. *)
Lemma isAllowed_fixed_window_counter_witness :
  quota_boundary "shop.myshopify.com" (create 5 3600000)
                 1000 2000 3000 4000 5000 3600999 3601000.
Proof.
  apply (proj2 isAllowed_fixed_window_counter); try reflexivity; simpl; lia.
Defined.

Lemma liveWindow_cleanup now0 now identifier rl :
  now0 ≤ now →
  liveWindow now identifier (cleanup now0 rl) = liveWindow now identifier rl.
Proof.
  intros Hle. unfold liveWindow, cleanup. simpl.
  destruct (limits rl !! identifier) as [entry|] eqn:Hlookup.
  - destruct (decide (resetTime entry ≤ now0)) as [Hexpired|Hlive].
    + rewrite (map_lookup_filter_None_2 _ (limits rl) identifier).
      * destruct (Z.geb_spec now (resetTime entry)); [done|lia].
      * right. intros x. rewrite Hlookup. intros [= <-]. simpl. tauto.
    + by rewrite (map_lookup_filter_Some_2 _ (limits rl) identifier entry).
  - rewrite (map_lookup_filter_None_2 _ (limits rl) identifier); [done|by left].
Qed.

(** The periodic [cleanup] changes no answer: after a cleanup at an earlier
    clock value, [isAllowed] gives the tenant the answer, and the window,
    it would have given without the cleanup. *)
Theorem cleanup_keeps_answers now0 now identifier rl :
  now0 ≤ now →
  (isAllowed now identifier (cleanup now0 rl)).1 = (isAllowed now identifier rl).1 ∧
  limits (isAllowed now identifier (cleanup now0 rl)).2 !! identifier
  = limits (isAllowed now identifier rl).2 !! identifier.
Proof.
  intros Hle. pose proof (liveWindow_cleanup now0 now identifier rl Hle) as Hlive.
  destruct (liveWindow now identifier rl) as [entry|] eqn:Horig.
  - rewrite (isAllowed_live _ _ _ _ Hlive), (isAllowed_live _ _ _ _ Horig).
    change (maxRequests (cleanup now0 rl)) with (maxRequests rl).
    destruct (count entry >=? maxRequests rl); simpl.
    + split; [done|].
      unfold liveWindow in Hlive, Horig. simpl in Hlive.
      destruct (filter _ (limits rl) !! identifier) as [e1|]; [|done].
      destruct (limits rl !! identifier) as [e2|]; [|done].
      destruct (now >=? resetTime e1); [done|].
      destruct (now >=? resetTime e2); [done|]. congruence.
    + by rewrite !lookup_insert_eq.
  - rewrite (isAllowed_new_window _ _ _ Hlive), (isAllowed_new_window _ _ _ Horig).
    simpl. by rewrite !lookup_insert_eq.
Qed.

Lemma cleanup_keeps_answers_witness :
  (isAllowed 5000 "shop" (cleanup 4000 (create 5 3600000))).1
  = (isAllowed 5000 "shop" (create 5 3600000)).1 ∧
  limits (isAllowed 5000 "shop" (cleanup 4000 (create 5 3600000))).2 !! "shop"%string
  = limits (isAllowed 5000 "shop" (create 5 3600000)).2 !! "shop"%string.
Proof. apply cleanup_keeps_answers. lia. Defined.

End RateLimiterFacts.

(* ===================================================================== *)
(** * Properties of [Array.prototype.sort] and [Map] *)
(* ===================================================================== *)

Module BuiltinsFacts.
Import Builtins.

Section SortFacts.
Context {A : Type} (cmp : A → A → Z).

Local Notation notAfter := (Builtins.notAfter cmp).

Lemma insertBy_Permutation x l : insertBy cmp x l ≡ₚ x :: l.
Proof.
  induction l as [|y l IH]; simpl; [done|].
  destruct (cmp x y <=? 0); [done|].
  by rewrite IH, Permutation_swap.
Qed.

Lemma sortBy_Permutation l : sortBy cmp l ≡ₚ l.
Proof.
  induction l as [|x l IH]; simpl; [done|].
  by rewrite insertBy_Permutation, IH.
Qed.

Lemma sortBy_length l : length (sortBy cmp l) = length l.
Proof. apply Permutation_length, sortBy_Permutation. Qed.

Lemma insertBy_head x l :
  ∃ rest, insertBy cmp x l = x :: rest
          ∨ (∃ y l', l = y :: l' ∧ insertBy cmp x l = y :: rest).
Proof.
  destruct l as [|y l]; simpl; [by eexists; left|].
  destruct (cmp x y <=? 0); eexists; [by left|right; eauto].
Qed.

Context `{!Consistent cmp}.

Lemma notAfter_trans a b c : notAfter a b → notAfter b c → notAfter a c.
Proof. apply consistent_trans. Qed.

Lemma insertBy_sorted x l :
  StronglySorted notAfter l → StronglySorted notAfter (insertBy cmp x l).
Proof.
  induction 1 as [|y l Hl IH Hy]; simpl.
  - repeat constructor.
  - destruct (Z.leb_spec (cmp x y) 0) as [Hxy|Hxy].
    + constructor; [by constructor|].
      constructor; [done|].
      eapply Forall_impl; [exact Hy|]. intros z Hz. by eapply notAfter_trans.
    + constructor; [done|].
      rewrite insertBy_Permutation. constructor; [|done].
      destruct (consistent_total (cmp:=cmp) x y) as [?|?]; [lia|done].
Qed.

Lemma sortBy_sorted l : StronglySorted notAfter (sortBy cmp l).
Proof.
  induction l as [|x l IH]; simpl; [constructor|by apply insertBy_sorted].
Qed.

(** An array that is in order already is left as it is. *)
Lemma sortBy_sorted_id l : StronglySorted notAfter l → sortBy cmp l = l.
Proof.
  induction 1 as [|x l Hl IH Hx]; simpl; [done|].
  rewrite IH. destruct l as [|y l]; simpl; [done|].
  apply Forall_cons in Hx as [Hxy _].
  destruct (Z.leb_spec (cmp x y) 0); [done|]. unfold notAfter in Hxy. lia.
Qed.

(** Two arrangements of the same elements sort to the same array when
    elements that tie are equal. *)
Lemma sortBy_Permutation_eq l1 l2 :
  (∀ a b, a ∈ l1 → b ∈ l1 → cmp a b ≤ 0 → cmp b a ≤ 0 → a = b) →
  l1 ≡ₚ l2 → sortBy cmp l1 = sortBy cmp l2.
Proof.
  intros Htie Hperm.
  apply (StronglySorted_unique_strong notAfter).
  - intros a b Ha Hb. apply Htie.
    + by rewrite <-(sortBy_Permutation l1).
    + by rewrite Hperm, <-(sortBy_Permutation l2).
  - apply sortBy_sorted.
  - apply sortBy_sorted.
  - by rewrite !sortBy_Permutation.
Qed.

(** The first element of the sorted array does not come after any
    element. *)
Lemma sortBy_head_least x rest l :
  sortBy cmp l = x :: rest → x ∈ l ∧ ∀ y, y ∈ l → cmp x y ≤ 0.
Proof.
  intros Hs. pose proof (sortBy_sorted l) as Hsorted.
  pose proof (sortBy_Permutation l) as Hperm.
  rewrite Hs in Hsorted, Hperm. split.
  - rewrite <-Hperm. by left.
  - intros y Hy. rewrite <-Hperm in Hy.
    apply StronglySorted_inv in Hsorted as [_ Hall].
    apply elem_of_cons in Hy as [->|Hy].
    + destruct (consistent_total (cmp:=cmp) x x); done.
    + rewrite Forall_forall in Hall. by apply Hall.
Qed.

End SortFacts.

(** When every element of [l] is put before a later [x] at a tie, the
    first element of the sorted [l ++ [x]] comes from [l]. *)
Lemma sortBy_snoc_head {A : Type} (cmp : A → A → Z) (l : list A) (x : A) :
  l ≠ [] → (∀ y, y ∈ l → cmp y x ≤ 0) →
  ∃ y rest, sortBy cmp (l ++ [x]) = y :: rest ∧ y ∈ l.
Proof.
  induction l as [|z l IH]; [done|]. intros _ Hle.
  destruct l as [|z' l].
  - simpl. destruct (Z.leb_spec (cmp z x) 0) as [?|Hgt].
    + eexists _, _. split; [done|by left].
    + specialize (Hle z (list_elem_of_here _ _)). lia.
  - destruct IH as (y & rest & Hs & Hy); [done| |].
    { intros y Hy. apply Hle. by right. }
    change (sortBy cmp ((z :: z' :: l) ++ [x]))
      with (insertBy cmp z (sortBy cmp ((z' :: l) ++ [x]))).
    rewrite Hs. simpl.
    destruct (cmp z y <=? 0); eexists _, _; (split; [done|]).
    + by left.
    + by right.
Qed.

Lemma unitRank_inj x y : unitRank x = unitRank y → x = y.
Proof.
  intros Hrank. rewrite <-(ascii_N_embedding x), <-(ascii_N_embedding y). f_equal.
  pose proof (N_ascii_bounded x). pose proof (N_ascii_bounded y).
  unfold unitRank in Hrank. cbn zeta in Hrank.
  destruct (N.leb_spec 240 (N_of_ascii x)), (N.leb_spec 240 (N_of_ascii y)); lia.
Qed.

Lemma compareUnits_refl a : compareUnits a a = Eq.
Proof. induction a as [|x a IH]; [done|]. cbn. by rewrite N.compare_refl. Qed.

Lemma compareUnits_eq a b : compareUnits a b = Eq → a = b.
Proof.
  revert b. induction a as [|x a IH]; intros [|y b]; cbn; try done.
  destruct (N.compare_spec (unitRank x) (unitRank y)) as [Hxy|Hxy|Hxy]; try done.
  intros Hrest. by rewrite (unitRank_inj _ _ Hxy), (IH b Hrest).
Qed.

Lemma compareUnits_antisym a b : compareUnits b a = CompOpp (compareUnits a b).
Proof.
  revert b. induction a as [|x a IH]; intros [|y b]; cbn; try done.
  rewrite (N.compare_antisym (unitRank x) (unitRank y)).
  destruct (N.compare (unitRank x) (unitRank y)); cbn; [apply IH|done..].
Qed.

Lemma compareUnits_Lt_trans a b c :
  compareUnits a b = Lt → compareUnits b c = Lt → compareUnits a c = Lt.
Proof.
  revert b c. induction a as [|x a IH]; intros [|y b] [|z c]; cbn; try done.
  destruct (N.compare_spec (unitRank x) (unitRank y)) as [Hxy|Hxy|Hxy];
    destruct (N.compare_spec (unitRank y) (unitRank z)) as [Hyz|Hyz|Hyz];
    try done; intros H1 H2.
  - rewrite Hxy, Hyz, N.compare_refl. by eapply IH.
  - rewrite Hxy. by apply N.compare_lt_iff in Hyz as ->.
  - rewrite <-Hyz. by apply N.compare_lt_iff in Hxy as ->.
  - assert (unitRank x < unitRank z)%N as Hlt by lia.
    by apply N.compare_lt_iff in Hlt as ->.
Qed.

Lemma compareStrings_le a b : compareStrings a b ≤ 0 ↔ compareUnits a b ≠ Gt.
Proof. unfold compareStrings. destruct (compareUnits a b); (split; [done|]); try lia; done. Qed.

(** The order of [sort()] on strings is a consistent comparator, and two
    strings tie only when they are equal. *)
#[export] Instance compareStrings_consistent : Consistent compareStrings.
Proof.
  split.
  - intros a b. rewrite !compareStrings_le, (compareUnits_antisym a b).
    destruct (compareUnits a b); [by left|by left|by right].
  - intros a b c. rewrite !compareStrings_le.
    destruct (compareUnits a b) eqn:Hab; [| |done];
      destruct (compareUnits b c) eqn:Hbc; try done; intros _ _.
    + apply compareUnits_eq in Hab as ->. by rewrite Hbc.
    + apply compareUnits_eq in Hab as ->. by rewrite Hbc.
    + apply compareUnits_eq in Hbc as <-. by rewrite Hab.
    + by rewrite (compareUnits_Lt_trans a b c).
Qed.

Lemma compareStrings_antisym a b :
  compareStrings a b ≤ 0 → compareStrings b a ≤ 0 → a = b.
Proof.
  rewrite !compareStrings_le, (compareUnits_antisym a b).
  destruct (compareUnits a b) eqn:Hab; try done. intros _ _.
  by apply compareUnits_eq.
Qed.

Section MapFacts.
Context {V : Type}.
Implicit Types (m : JsMap V) (k : string) (v : V).

Lemma mapGet_None k m : mapGet k m = None ↔ k ∉ keys m.
Proof.
  induction m as [|[k' v'] m IH]; simpl.
  - split; [intros _; apply not_elem_of_nil|done].
  - destruct (String.eqb_spec k k') as [->|Hne].
    + split; [done|]. intros []. by left.
    + rewrite IH, not_elem_of_cons. naive_solver.
Qed.

Lemma mapGet_Some_elem k v m : mapGet k m = Some v → (k, v) ∈ m.
Proof.
  induction m as [|[k' v'] m IH]; simpl; [done|].
  destruct (String.eqb_spec k k') as [->|Hne].
  - intros [= ->]. by left.
  - intros. right. by apply IH.
Qed.

Lemma mapGet_elem k v m : NoDup (keys m) → (k, v) ∈ m → mapGet k m = Some v.
Proof.
  induction m as [|[k' v'] m IH]; simpl; [by intros _ ?%not_elem_of_nil|].
  intros [Hk' Hnd]%NoDup_cons [[= -> ->]|Hin]%elem_of_cons.
  - by rewrite String.eqb_refl.
  - destruct (String.eqb_spec k k') as [->|Hne]; [|by apply IH].
    destruct Hk'. apply (list_elem_of_fmap_2 fst) in Hin. done.
Qed.

Lemma mapSet_absent k v m : k ∉ keys m → mapSet k v m = m ++ [(k, v)].
Proof.
  induction m as [|[k' v'] m IH]; simpl; [done|].
  intros [Hne Hk]%not_elem_of_cons.
  destruct (String.eqb_spec k k'); [done|]. by rewrite IH.
Qed.

Lemma mapSet_keys_present k v m : k ∈ keys m → keys (mapSet k v m) = keys m.
Proof.
  induction m as [|[k' v'] m IH]; simpl; [by intros ?%not_elem_of_nil|].
  destruct (String.eqb_spec k k') as [->|Hne]; [done|].
  intros [?|Hin]%elem_of_cons; [done|]. simpl. by rewrite IH.
Qed.

Lemma mapSet_NoDup k v m : NoDup (keys m) → NoDup (keys (mapSet k v m)).
Proof.
  intros Hnd. destruct (decide (k ∈ keys m)) as [Hin|Hnin].
  - by rewrite mapSet_keys_present.
  - rewrite mapSet_absent by done. unfold keys. rewrite map_app. simpl.
    apply NoDup_app. split_and!; [done| |apply NoDup_singleton].
    intros x Hx ->%list_elem_of_singleton. done.
Qed.

Lemma mapSet_length k v m :
  length (mapSet k v m) = if decide (k ∈ keys m) then length m else S (length m).
Proof.
  case_decide as Hin.
  - rewrite <-(length_map fst (mapSet k v m)), <-(length_map fst m).
    fold (keys (mapSet k v m)). by rewrite mapSet_keys_present.
  - rewrite mapSet_absent by done. rewrite length_app. simpl. lia.
Qed.

Lemma mapGet_mapSet_eq k v m : mapGet k (mapSet k v m) = Some v.
Proof.
  induction m as [|[k' v'] m IH]; simpl.
  - by rewrite String.eqb_refl.
  - destruct (String.eqb_spec k k') as [->|Hne]; simpl.
    + by rewrite String.eqb_refl.
    + by destruct (String.eqb_spec k k').
Qed.

Lemma mapGet_mapSet_ne k k' v m : k ≠ k' → mapGet k' (mapSet k v m) = mapGet k' m.
Proof.
  intros Hne. induction m as [|[k0 v0] m IH]; simpl.
  - by destruct (String.eqb_spec k' k).
  - destruct (String.eqb_spec k k0) as [->|Hne0]; simpl.
    + by destruct (String.eqb_spec k' k0).
    + by rewrite IH.
Qed.

Lemma mapDelete_keys_subseteq k m : keys (mapDelete k m) ⊆ keys m.
Proof.
  induction m as [|[k' v'] m IH]; simpl; [done|].
  destruct (String.eqb k k'); simpl; set_solver.
Qed.

Lemma mapDelete_NoDup k m : NoDup (keys m) → NoDup (keys (mapDelete k m)).
Proof.
  induction m as [|[k' v'] m IH]; simpl; [done|].
  intros [Hk' Hnd]%NoDup_cons.
  destruct (String.eqb k k'); simpl; [done|].
  apply NoDup_cons. split; [|by apply IH].
  intros Hin. apply Hk'. by apply (mapDelete_keys_subseteq k m).
Qed.

Lemma mapDelete_length k m :
  length (mapDelete k m) = if decide (k ∈ keys m) then pred (length m) else length m.
Proof.
  induction m as [|[k' v'] m IH]; simpl.
  - first [done | by case_decide].
  - destruct (String.eqb_spec k k') as [->|Hne]; simpl.
    + rewrite decide_True; [done|by left].
    + rewrite IH. destruct (decide (k ∈ keys m)) as [Hin|Hnin].
      * rewrite decide_True by (by right).
        destruct m; [by apply not_elem_of_nil in Hin|done].
      * rewrite decide_False; [done|]. by intros [?|?]%elem_of_cons.
Qed.

Lemma mapGet_mapDelete_eq k m : NoDup (keys m) → mapGet k (mapDelete k m) = None.
Proof.
  induction m as [|[k' v'] m IH]; simpl; [done|].
  intros [Hk' Hnd]%NoDup_cons.
  destruct (String.eqb_spec k k') as [->|Hne]; simpl.
  - by apply mapGet_None.
  - destruct (String.eqb_spec k k'); [done|]. by apply IH.
Qed.

Lemma mapGet_mapDelete_ne k k' m : k ≠ k' → mapGet k' (mapDelete k m) = mapGet k' m.
Proof.
  intros Hne. induction m as [|[k0 v0] m IH]; simpl; [done|].
  destruct (String.eqb_spec k k0) as [->|Hne0]; simpl.
  - by destruct (String.eqb_spec k' k0).
  - by rewrite IH.
Qed.

End MapFacts.

End BuiltinsFacts.

(* ===================================================================== *)
(** * Properties of the cache *)
(* ===================================================================== *)

Module CacheFacts.
Import Builtins BuiltinsFacts LlmAnalysis CacheSpec.

#[export] Instance byTimestamp_consistent : Consistent byTimestamp.
Proof. split; unfold byTimestamp; intros; lia. Qed.

Lemma setCachedAnalysis_unfold now h a c :
  setCachedAnalysis now h a c
  = let c1 := mapSet h (mkCacheEntry a now h) c in
    if Z.of_nat (length c1) >? 1000 then
      match sortBy byTimestamp c1 with
      | oldest :: _ => mapDelete oldest.1 c1
      | [] => c1
      end
    else c1.
Proof. reflexivity. Qed.

Lemma setCachedAnalysis_room now h a c :
  (length (mapSet h (mkCacheEntry a now h) c) ≤ 1000)%nat →
  setCachedAnalysis now h a c = mapSet h (mkCacheEntry a now h) c.
Proof.
  intros Hlen. rewrite setCachedAnalysis_unfold. cbv zeta.
  rewrite Z.gtb_ltb. destruct (Z.ltb_spec 1000 (Z.of_nat (length (mapSet h (mkCacheEntry a now h) c)))); [lia|done].
Qed.

Lemma setCachedAnalysis_evicts now h a c :
  NoDup (keys c) →
  (1000 < length (mapSet h (mkCacheEntry a now h) c))%nat →
  ∃ oldest rest,
    sortBy byTimestamp (mapSet h (mkCacheEntry a now h) c) = oldest :: rest ∧
    oldest ∈ mapSet h (mkCacheEntry a now h) c ∧
    (∀ e, e ∈ mapSet h (mkCacheEntry a now h) c → timestamp oldest.2 ≤ timestamp e.2) ∧
    setCachedAnalysis now h a c = mapDelete oldest.1 (mapSet h (mkCacheEntry a now h) c) ∧
    length (setCachedAnalysis now h a c)
    = pred (length (mapSet h (mkCacheEntry a now h) c)).
Proof.
  intros Hnd Hlen. rewrite setCachedAnalysis_unfold. cbv zeta.
  set (c1 := mapSet h (mkCacheEntry a now h) c) in *.
  rewrite Z.gtb_ltb. destruct (Z.ltb_spec 1000 (Z.of_nat (length c1))); [|lia].
  destruct (sortBy byTimestamp c1) as [|oldest rest] eqn:Hsort.
  { pose proof (sortBy_length byTimestamp c1) as Hl. rewrite Hsort in Hl.
    simpl in Hl. lia. }
  destruct (sortBy_head_least byTimestamp oldest rest c1 Hsort) as [Hin Hmin].
  exists oldest, rest. split_and!; try done.
  - intros e He. specialize (Hmin e He). unfold byTimestamp in Hmin. lia.
  - rewrite mapDelete_length. rewrite decide_True; [done|].
    by apply (list_elem_of_fmap_2 fst) in Hin.
Qed.

Lemma setCachedAnalysis_NoDup now h a c :
  NoDup (keys c) → NoDup (keys (setCachedAnalysis now h a c)).
Proof.
  intros Hnd. rewrite setCachedAnalysis_unfold. cbv zeta.
  pose proof (mapSet_NoDup h (mkCacheEntry a now h) c Hnd).
  destruct (_ >? _); [|done].
  destruct (sortBy _ _); [done|]. by apply mapDelete_NoDup.
Qed.

Lemma setCachedAnalysis_length now h a c :
  NoDup (keys c) → (length c ≤ 1000)%nat →
  (length (setCachedAnalysis now h a c) ≤ 1000)%nat.
Proof.
  intros Hnd Hlen.
  pose proof (mapSet_length h (mkCacheEntry a now h) c) as Hset.
  destruct (decide (length (mapSet h (mkCacheEntry a now h) c) ≤ 1000)%nat) as [Hle|Hgt].
  - by rewrite setCachedAnalysis_room.
  - destruct (setCachedAnalysis_evicts now h a c Hnd) as (?&?&_&_&_&_&->); [lia|].
    case_decide; lia.
Qed.

Lemma getCachedAnalysis_cache now h c :
  (getCachedAnalysis now h c).2 = c
  ∨ (getCachedAnalysis now h c).2 = mapDelete h c.
Proof.
  unfold getCachedAnalysis. destruct (mapGet h c); [|by left].
  destruct (_ >? _); [by right|by left].
Qed.

Lemma runOp_invariant c op :
  NoDup (keys c) ∧ (length c ≤ 1000)%nat →
  NoDup (keys (runOp c op)) ∧ (length (runOp c op) ≤ 1000)%nat.
Proof.
  intros [Hnd Hlen]. destruct op as [now h|now h a]; simpl.
  - destruct (getCachedAnalysis_cache now h c) as [->| ->]; [done|].
    split; [by apply mapDelete_NoDup|].
    rewrite mapDelete_length. case_decide; lia.
  - split; [by apply setCachedAnalysis_NoDup|by apply setCachedAnalysis_length].
Qed.

Lemma runOps_invariant ops :
  NoDup (keys (runOps ops)) ∧ (length (runOps ops) ≤ 1000)%nat.
Proof.
  unfold runOps.
  assert (∀ c, NoDup (keys c) ∧ (length c ≤ 1000)%nat →
               NoDup (keys (fold_left runOp ops c))
               ∧ (length (fold_left runOp ops c) ≤ 1000)%nat) as Hgen.
  { induction ops as [|op ops IH]; intros c Hc; simpl; [done|].
    by apply IH, runOp_invariant. }
  apply Hgen. split; [constructor|simpl; lia].
Qed.

(** Inserting fresh hashes while there is room appends them in order. *)
Lemma insertAll_room items c :
  NoDup (keys c ++ List.map insertedHash items) →
  (length c + length items ≤ 1000)%nat →
  insertAll items c = c ++ List.map entryOf items.
Proof.
  revert c. induction items as [|i items IH]; intros c Hnd Hlen; simpl.
  - by rewrite app_nil_r.
  - simpl in Hlen.
    assert (insertedHash i ∉ keys c) as Hfresh.
    { apply NoDup_app in Hnd as (_ & Hdisj & _). intros Hin.
      apply (Hdisj _ Hin). by left. }
    rewrite setCachedAnalysis_room; rewrite mapSet_absent by done.
    + rewrite IH.
      * by rewrite <-app_assoc.
      * unfold keys in *. rewrite map_app. simpl. rewrite <-app_assoc. done.
      * rewrite length_app. simpl. lia.
    + rewrite length_app. simpl. lia.
Qed.

Lemma entries_sorted items :
  Sorted Z.le (List.map insertedAt items) →
  StronglySorted (notAfter byTimestamp) (List.map entryOf items).
Proof.
  intros Hs. apply Sorted_StronglySorted in Hs; [|intros ???; lia].
  induction items as [|i items IH]; simpl in *; [constructor|].
  apply StronglySorted_inv in Hs as [Hs Hall].
  constructor; [by apply IH|].
  rewrite Forall_forall in Hall. apply Forall_forall. intros e He.
  apply list_elem_of_fmap in He as (j & -> & Hj).
  unfold notAfter, byTimestamp. simpl.
  specialize (Hall (insertedAt j) (list_elem_of_fmap_2 _ _ _ Hj)). lia.
Qed.

Lemma mapGet_entries items i :
  NoDup (List.map insertedHash items) → i ∈ items →
  mapGet (insertedHash i) (List.map entryOf items) = Some (entryOf i).2.
Proof.
  intros Hnd Hin. apply mapGet_elem.
  - unfold keys. rewrite <-list_fmap_compose. done.
  - change (insertedHash i, (entryOf i).2) with (entryOf i).
    by apply list_elem_of_fmap_2.
Qed.

(** Inserting 1001 distinct hashes at clock values that do not decrease
    leaves the last 1000, in order. *)
Lemma insertAll_1001 first rest :
  length rest = 1000%nat →
  NoDup (List.map insertedHash (first :: rest)) →
  Sorted Z.le (List.map insertedAt (first :: rest)) →
  insertAll (first :: rest) [] = List.map entryOf rest.
Proof.
  intros Hlen Hnd Hsorted.
  destruct (exists_last (l:=first :: rest)) as (pre & last & Hsplit); [done|].
  assert (length pre = 1000%nat) as Hpre.
  { apply (f_equal length) in Hsplit. rewrite length_app in Hsplit.
    simpl in Hsplit. lia. }
  unfold insertAll. rewrite Hsplit, fold_left_app. simpl.
  fold (insertAll pre []).
  rewrite Hsplit in Hnd, Hsorted.
  rewrite insertAll_room; simpl.
  2: { rewrite map_app in Hnd. by apply NoDup_app in Hnd as (? & _). }
  2: { lia. }
  assert (insertedHash last ∉ keys (List.map entryOf pre)) as Hfresh.
  { rewrite map_app in Hnd. apply NoDup_app in Hnd as (_ & Hdisj & _).
    unfold keys. rewrite <-list_fmap_compose. intros Hin.
    apply (Hdisj _ Hin). by left. }
  destruct (setCachedAnalysis_evicts (insertedAt last) (insertedHash last)
              (inserted last) (List.map entryOf pre))
    as (oldest & srest & Hsort & _ & _ & -> & _).
  { unfold keys. rewrite <-list_fmap_compose.
    rewrite map_app in Hnd. by apply NoDup_app in Hnd as (? & _). }
  { rewrite mapSet_absent by done. rewrite length_app, length_map. simpl. lia. }
  rewrite mapSet_absent in * by done.
  change [(insertedHash last, mkCacheEntry (inserted last) (insertedAt last) (insertedHash last))]
    with (List.map entryOf [last]) in *.
  rewrite <-map_app in *. rewrite <-Hsplit in *.
  rewrite sortBy_sorted_id in Hsort by (by apply entries_sorted).
  simpl in Hsort. injection Hsort as <- _. simpl.
  by rewrite String.eqb_refl.
Qed.

(** An entry stored at [t0] is in the cache when [setCachedAnalysis]
    returns, provided no stored timestamp is later than [t0]: the eviction
    then removes an older entry. *)
Lemma setCachedAnalysis_present t0 h a c :
  NoDup (keys c) → (length c ≤ 1000)%nat →
  (∀ kv, kv ∈ c → timestamp kv.2 ≤ t0) →
  mapGet h (setCachedAnalysis t0 h a c) = Some (mkCacheEntry a t0 h).
Proof.
  intros Hnd Hlen Hts.
  destruct (decide (length (mapSet h (mkCacheEntry a t0 h) c) ≤ 1000)%nat) as [Hle|Hgt].
  { rewrite setCachedAnalysis_room by done. apply mapGet_mapSet_eq. }
  pose proof (mapSet_length h (mkCacheEntry a t0 h) c) as Hset.
  destruct (decide (h ∈ keys c)) as [Hin|Hfresh]; [lia|].
  destruct (setCachedAnalysis_evicts t0 h a c Hnd) as (oldest & rest & Hsort & _ & _ & -> & _);
    [lia|].
  rewrite mapSet_absent in * by done.
  destruct (sortBy_snoc_head byTimestamp c (h, mkCacheEntry a t0 h))
    as (y & rest' & Hsort' & Hy).
  - intros ->. simpl in *. lia.
  - intros kv Hkv. unfold byTimestamp. simpl. specialize (Hts kv Hkv). lia.
  - rewrite Hsort in Hsort'. injection Hsort' as -> _.
    rewrite mapGet_mapDelete_ne.
    + rewrite <-(mapSet_absent h (mkCacheEntry a t0 h) c) by done.
      apply mapGet_mapSet_eq.
    + intros Heq. apply Hfresh. rewrite <-Heq.
      by apply (list_elem_of_fmap_2 fst) in Hy.
Qed.

Lemma getCachedAnalysis_fresh now h c e :
  mapGet h c = Some e → now - timestamp e ≤ CACHE_EXPIRATION_MS →
  getCachedAnalysis now h c = (Some (analysis e), c).
Proof.
  intros Hget Hage. unfold getCachedAnalysis. rewrite Hget.
  rewrite Z.gtb_ltb.
  destruct (Z.ltb_spec CACHE_EXPIRATION_MS (now - timestamp e)); [lia|done].
Qed.

Lemma getCachedAnalysis_expired now h c e :
  mapGet h c = Some e → now - timestamp e > CACHE_EXPIRATION_MS →
  getCachedAnalysis now h c = (None, mapDelete h c).
Proof.
  intros Hget Hage. unfold getCachedAnalysis. rewrite Hget.
  rewrite Z.gtb_ltb.
  destruct (Z.ltb_spec CACHE_EXPIRATION_MS (now - timestamp e)); [done|lia].
Qed.

(** C2.  [getCachedAnalysis] never returns an entry older than the 24-hour
    expiration: an analysis it returns belongs to a stored entry whose age
    [now - timestamp] is at most [CACHE_EXPIRATION_MS]; when the age of the
    stored entry exceeds it, the call deletes the entry and answers
    [null].  So an entry stored at [t0] (at a clock value not before the
    stored timestamps) is returned at [t0 + 23h59m], and at [t0 + 24h01m],
    though it is still in the map, it is not returned and is deleted. *)
Theorem cache_never_serves_expired :
  (∀ now h c a c',
     getCachedAnalysis now h c = (Some a, c') →
     ∃ e, mapGet h c = Some e ∧ analysis e = a
          ∧ now - timestamp e ≤ CACHE_EXPIRATION_MS ∧ c' = c) ∧
  (∀ now h c e,
     NoDup (keys c) → mapGet h c = Some e →
     now - timestamp e > CACHE_EXPIRATION_MS →
     getCachedAnalysis now h c = (None, mapDelete h c)
     ∧ mapGet h (mapDelete h c) = None) ∧
  (∀ t0 h a c,
     NoDup (keys c) → (length c ≤ 1000)%nat →
     (∀ kv, kv ∈ c → timestamp kv.2 ≤ t0) →
     let c1 := setCachedAnalysis t0 h a c in
     mapGet h c1 = Some (mkCacheEntry a t0 h) ∧
     getCachedAnalysis (t0 + minutes (23 * 60 + 59)) h c1 = (Some a, c1) ∧
     getCachedAnalysis (t0 + minutes (24 * 60 + 1)) h c1 = (None, mapDelete h c1) ∧
     mapGet h (mapDelete h c1) = None).
Proof.
  split_and!.
  - intros now h c a c'. unfold getCachedAnalysis.
    destruct (mapGet h c) as [e|] eqn:Hget; [|done].
    rewrite Z.gtb_ltb.
    destruct (Z.ltb_spec CACHE_EXPIRATION_MS (now - timestamp e)); [done|].
    intros [= <- <-]. by exists e.
  - intros now h c e Hnd Hget Hage. split.
    + by eapply getCachedAnalysis_expired.
    + by apply mapGet_mapDelete_eq.
  - intros t0 h a c Hnd Hlen Hts c1.
    pose proof (setCachedAnalysis_present t0 h a c Hnd Hlen Hts) as Hpresent.
    fold c1 in Hpresent. split_and!; [done| | |].
    + rewrite (getCachedAnalysis_fresh _ _ _ _ Hpresent); [done|].
      simpl. unfold CACHE_EXPIRATION_MS, minutes. lia.
    + apply (getCachedAnalysis_expired _ _ _ _ Hpresent).
      simpl. unfold CACHE_EXPIRATION_MS, minutes. lia.
    + apply mapGet_mapDelete_eq. by apply setCachedAnalysis_NoDup.
Qed.

(** C5.  The cache holds at most 1000 entries after every operation,
    starting from the empty cache of the module.  When the [set] of an
    insert makes the map larger than 1000, exactly one entry is removed,
    one whose timestamp (the clock value of its insertion) is the least.
    Inserting 1001 distinct hashes, at clock values that do not decrease,
    leaves 1000 entries: the first one inserted is gone and each of the
    other 1000 is there. *)
Theorem cache_capacity_bound :
  (∀ ops, (length (runOps ops) ≤ 1000)%nat) ∧
  (∀ now h a c,
     NoDup (keys c) →
     (1000 < length (mapSet h (mkCacheEntry a now h) c))%nat →
     ∃ oldest,
       oldest ∈ mapSet h (mkCacheEntry a now h) c ∧
       (∀ e, e ∈ mapSet h (mkCacheEntry a now h) c →
             timestamp oldest.2 ≤ timestamp e.2) ∧
       setCachedAnalysis now h a c
       = mapDelete oldest.1 (mapSet h (mkCacheEntry a now h) c) ∧
       length (setCachedAnalysis now h a c)
       = pred (length (mapSet h (mkCacheEntry a now h) c))) ∧
  (∀ first rest,
     length rest = 1000%nat →
     NoDup (List.map insertedHash (first :: rest)) →
     Sorted Z.le (List.map insertedAt (first :: rest)) →
     let c := insertAll (first :: rest) [] in
     length c = 1000%nat ∧
     mapGet (insertedHash first) c = None ∧
     ∀ i, i ∈ rest → mapGet (insertedHash i) c = Some (entryOf i).2).
Proof.
  split_and!.
  - intros ops. apply runOps_invariant.
  - intros now h a c Hnd Hlen.
    destruct (setCachedAnalysis_evicts now h a c Hnd Hlen)
      as (oldest & rest & _ & ? & ? & ? & ?).
    by exists oldest.
  - intros first rest Hlen Hnd Hsorted c. subst c.
    rewrite insertAll_1001 by done.
    simpl in Hnd. apply NoDup_cons in Hnd as [Hfirst Hnd].
    split_and!.
    + by rewrite length_map.
    + apply mapGet_None. unfold keys. by rewrite <-list_fmap_compose.
    + intros i Hi. by apply mapGet_entries.
Qed.

(** The TTL scenario on a cache that already holds an older entry. *)
Lemma cache_never_serves_expired_witness :
  let c1 := setCachedAnalysis 5000 "abc" Samples.sampleAnalysis
              [("old"%string, mkCacheEntry Samples.sampleAnalysis 1000 "old")] in
  mapGet "abc" c1 = Some (mkCacheEntry Samples.sampleAnalysis 5000 "abc") ∧
  getCachedAnalysis (5000 + minutes (23 * 60 + 59)) "abc" c1
  = (Some Samples.sampleAnalysis, c1) ∧
  getCachedAnalysis (5000 + minutes (24 * 60 + 1)) "abc" c1
  = (None, mapDelete "abc" c1) ∧
  mapGet "abc" (mapDelete "abc" c1) = None.
Proof.
  apply (proj2 (proj2 cache_never_serves_expired)).
  - apply (bool_decide_unpack _). vm_compute. exact I.
  - simpl. lia.
  - apply Forall_forall. repeat constructor. simpl. lia.
Defined.

Lemma cache_capacity_bound_witness :
  let c := insertAll (insertionNumber 0 :: List.map insertionNumber (seq 1 1000)) [] in
  length c = 1000%nat ∧
  mapGet (insertedHash (insertionNumber 0)) c = None ∧
  ∀ i, i ∈ List.map insertionNumber (seq 1 1000) →
       mapGet (insertedHash i) c = Some (entryOf i).2.
Proof.
  apply (proj2 (proj2 cache_capacity_bound)).
  - by rewrite length_map, length_seq.
  - apply (bool_decide_unpack _). vm_compute. exact I.
  - apply (bool_decide_unpack _). vm_compute. exact I.
Defined.

End CacheFacts.

(* ===================================================================== *)
(** * Properties of the content hash *)
(* ===================================================================== *)

Module FingerprintFacts.
Import Builtins BuiltinsFacts ErrorHandler LlmAnalysis FingerprintSpec.

(** The digests of FIPS 180-4 for the empty message and for ["abc"]. *)
Example sha256_empty :
  Sha256.sha256_hex ""
  = "e3b0c44298fc1c149afbf4c8996fb92427ae41e4649b934ca495991b7852b855"%string.
Proof. vm_compute. reflexivity. Qed.

Example sha256_abc :
  Sha256.sha256_hex "abc"
  = "ba7816bf8f01cfea414140de5dae2223b00361a396177a9cb410ff61f20015ad"%string.
Proof. vm_compute. reflexivity. Qed.

Lemma sortBy_idempotent {A : Type} (cmp : A → A → Z) `{!Consistent cmp} l :
  sortBy cmp (sortBy cmp l) = sortBy cmp l.
Proof. apply sortBy_sorted_id, sortBy_sorted. exact _. Qed.

Lemma sort_tags_Permutation t1 t2 :
  t1 ≡ₚ t2 → sortBy compareStrings t1 = sortBy compareStrings t2.
Proof.
  intros Hperm. apply sortBy_Permutation_eq; [exact _| |done].
  intros a b _ _. apply compareStrings_antisym.
Qed.

(** Where the digest does not depend on the order.  For every collation
    that is a consistent comparator, two records with [tags] arrays that
    are equal field by field up to the order of [tags] and of [metafields]
    have the same digest, provided no two different metafields have keys
    that the collation ranks equal (so: provided a key does not occur twice
    with different values).  The sort of the metafields compares keys only
    and is stable, so metafields whose keys tie stay in the order they came
    in. *)
Theorem fingerprint_order_independent `{Host} (r1 r2 : Product.t) :
  Consistent byKey →
  sameUpToOrder r1 r2 →
  keysSeparate (Product.metafields r1) →
  fingerprint r1 = fingerprint r2 ∧ is_Some (fingerprint r1).
Proof.
  intros Hcons (Htitle & Hdesc & Hvendor & Htype & Hreview & Hmeta
                & t1 & t2 & Ht1 & Ht2 & Htags) Hsep.
  unfold fingerprint, generateContentHash.
  rewrite Ht1, Ht2, Htitle, Hdesc, Hvendor, Htype, Hreview.
  rewrite (sort_tags_Permutation t1 t2 Htags).
  fold (@byKey H).
  rewrite (sortBy_Permutation_eq byKey _ _ Hsep Hmeta).
  simpl. split; [done|by eexists].
Qed.

(** The two orders of the three tags of the repository's test product,
    with two metafields under different keys in the two orders. *)
Lemma fingerprint_order_independent_witness :
  let r1 :=
    {| Product.title := Js.VStr "Test Snowboard";
       Product.description := Js.VStr "A great snowboard for beginners";
       Product.tags := Product.TagsArray ["snowboard"; "winter"; "sports"]%string;
       Product.vendor := "Test Vendor";
       Product.productType := "Snowboard";
       Product.metafields := [ Product.mkMetafield "material" "wood";
                               Product.mkMetafield "color" "red" ];
       Product.reviewData := None |} in
  let r2 :=
    {| Product.title := Js.VStr "Test Snowboard";
       Product.description := Js.VStr "A great snowboard for beginners";
       Product.tags := Product.TagsArray ["sports"; "snowboard"; "winter"]%string;
       Product.vendor := "Test Vendor";
       Product.productType := "Snowboard";
       Product.metafields := [ Product.mkMetafield "color" "red";
                               Product.mkMetafield "material" "wood" ];
       Product.reviewData := None |} in
  @fingerprint Samples.sampleHost r1 = @fingerprint Samples.sampleHost r2
  ∧ is_Some (@fingerprint Samples.sampleHost r1).
Proof.
  intros r1 r2.
  apply (@fingerprint_order_independent Samples.sampleHost r1 r2).
  - split; unfold byKey; simpl; intros.
    + apply (consistent_total (cmp:=compareStrings)).
    + by eapply (consistent_trans (cmp:=compareStrings)).
  - unfold sameUpToOrder. simpl. split_and!; try done.
    + apply Permutation_swap.
    + eexists _, _. split_and!; [done..|].
      apply (bool_decide_unpack _). vm_compute. exact I.
  - intros a b Ha Hb Hab Hba.
    assert (Product.key a = Product.key b) as Hkey
        by (by apply compareStrings_antisym).
    simpl in Ha, Hb. set_solver.
Defined.

(** C4.  The code at the failing input: two metafields under the same key
    with different values (the array of a product that has the key in two
    namespaces), listed in the two orders, give two records that are equal
    up to the order of the metafields and have different digests.  The
    sort that the code makes "for consistent hashing" compares the keys
    only, and the two entries stay in the order they came in. *)
Lemma fingerprint_depends_on_duplicate_key_order :
  sameUpToOrder (twoColours "red" "blue") (twoColours "blue" "red") ∧
  @fingerprint Samples.sampleHost (twoColours "red" "blue")
  = Some "041b8e7f9db12ba47d7eb768231ee4a032ed68e8a37fc826598bff90ee8449ed"%string ∧
  @fingerprint Samples.sampleHost (twoColours "blue" "red")
  = Some "3b8edccc36152e21539d290b153d1976b0396177f5674b040366bb2ae5b063d1"%string ∧
  @fingerprint Samples.sampleHost (twoColours "red" "blue")
  ≠ @fingerprint Samples.sampleHost (twoColours "blue" "red").
Proof.
  split_and!.
  - unfold sameUpToOrder. simpl. split_and!; try done.
    + apply Permutation_swap.
    + by eexists _, _.
  - vm_compute. reflexivity.
  - vm_compute. reflexivity.
  - vm_compute. discriminate.
Qed.

(** C9, as the code has it.  [generateContentHash] is a function of the
    record and of nothing else, and it has one side effect: it sorts the
    [tags] array and the [metafields] array of the record in place.  After
    a call that returns, the two arrays hold the elements they held, in
    sorted order, and the other fields are untouched; a call that throws
    changes nothing.  Under a consistent collation a second call on the
    record returns the same digest and changes nothing more. *)
Theorem generateContentHash_sorts_in_place `{Host} (product : Product.t) :
  Consistent byKey →
  match generateContentHash product with
  | inr (digest, after) =>
      sortedInPlace product after ∧
      generateContentHash after = inr (digest, after)
  | inl _ => ∀ items, Product.tags product ≠ Product.TagsArray items
  end.
Proof.
  intros Hcons. unfold generateContentHash.
  destruct (Product.tags product) as [items|v] eqn:Htags.
  - simpl. split.
    + unfold sortedInPlace. simpl. split_and!; try done.
      * apply sortBy_Permutation.
      * exists items. split_and!; try done. apply sortBy_Permutation.
    + fold (@byKey H). by rewrite !sortBy_idempotent by exact _.
  - destruct v; simpl; done.
Qed.

(** The product of the repository's test: its tags come back sorted. *)
Lemma generateContentHash_sorts_in_place_witness :
  match @generateContentHash Samples.sampleHost Samples.sampleProduct with
  | inr (digest, after) =>
      @sortedInPlace Samples.sampleHost Samples.sampleProduct after ∧
      @generateContentHash Samples.sampleHost after = inr (digest, after)
  | inl _ => ∀ items, Product.tags Samples.sampleProduct ≠ Product.TagsArray items
  end.
Proof.
  apply (@generateContentHash_sorts_in_place Samples.sampleHost Samples.sampleProduct).
  split; unfold byKey; simpl; intros.
  - apply (consistent_total (cmp:=compareStrings)).
  - by eapply (consistent_trans (cmp:=compareStrings)).
Defined.

(** C9, as the claim states it, fails: the product of the repository's
    test has the tags [snowboard, winter, sports]; after the call its tags
    are [snowboard, sports, winter], so the record is not left as it
    was. *)
Lemma generateContentHash_changes_its_argument :
  Product.tags Samples.sampleProduct
  = Product.TagsArray ["snowboard"; "winter"; "sports"]%string ∧
  (@generateContentHash Samples.sampleHost Samples.sampleProduct)
  = inr ("cc8eee4a072d8cc061ff27276cf58b90f564352c92340305055dc036aaa5a0f3"%string,
         {| Product.title := Js.VStr "Test Snowboard";
            Product.description := Js.VStr "A great snowboard for beginners";
            Product.tags := Product.TagsArray ["snowboard"; "sports"; "winter"]%string;
            Product.vendor := "Test Vendor";
            Product.productType := "Snowboard";
            Product.metafields := [];
            Product.reviewData := None |}) ∧
  match @generateContentHash Samples.sampleHost Samples.sampleProduct with
  | inr (_, after) => after ≠ Samples.sampleProduct
  | inl _ => False
  end.
Proof.
  split_and!.
  - reflexivity.
  - vm_compute. reflexivity.
  - vm_compute. discriminate.
Qed.

End FingerprintFacts.

(* ===================================================================== *)
(** * Properties of the retry loop *)
(* ===================================================================== *)

Module RetryFacts.
Import ErrorHandler LlmAnalysis RetrySpec.

Lemma retryLoop_calls upstream maxRetries left attempt lastError :
  (upstreamCalls (retryLoop upstream maxRetries left attempt lastError).2 ≤ left)%nat.
Proof.
  unfold upstreamCalls. revert attempt lastError.
  induction left as [|left IH]; intros attempt lastError; simpl; [done|].
  destruct (race (upstream attempt)) as [[error|]|response]; simpl; try lia.
  destruct (isClientStatus error); simpl; [lia|].
  destruct ((attempt <? maxRetries)%nat && _); simpl; [|lia].
  specialize (IH (S attempt) (ThrowError error)).
  destruct (retryLoop upstream maxRetries left (S attempt) (ThrowError error)).
  simpl in *. lia.
Qed.






Lemma timeout_retryable : retryable timeoutError = true.
Proof. reflexivity. Qed.


End RetryFacts.

(* ===================================================================== *)
(** * The composite score in binary64 arithmetic *)
(* ===================================================================== *)

Module ScoreSumsFacts.
Import ScoreSums.

(** The product of two floats does not depend on their order. *)
Lemma SFmul_comm prec emax x y :
  SpecFloat.SFmul prec emax x y = SpecFloat.SFmul prec emax y x.
Proof.
  destruct x as [sx|sx| |sx mx ex], y as [sy|sy| |sy my ey]; cbn [SpecFloat.SFmul];
    rewrite ?(xorb_comm sx sy); try reflexivity.
  by rewrite (Pos.mul_comm mx my), (Z.add_comm ex ey).
Qed.

Lemma float_mul_comm (x y : float) : (x * y = y * x)%float.
Proof. apply Prim2SF_inj. rewrite !FloatAxioms.mul_spec. apply SFmul_comm. Qed.

(** The expression of the code is the weighted sum of the specification. *)
Lemma weightedSum_weights sc im fb nl si :
  Scores.weightedSum sc im fb nl si
  = (0.25 * sc + 0.25 * im + 0.20 * fb + 0.15 * nl + 0.15 * si)%float.
Proof.
  unfold Scores.weightedSum.
  by rewrite (float_mul_comm sc), (float_mul_comm im), (float_mul_comm fb),
             (float_mul_comm nl), (float_mul_comm si).
Qed.

Lemma wholeScores_elem s : s ∈ wholeScores ↔ 0 ≤ s ≤ 100.
Proof.
  unfold wholeScores. rewrite list_elem_of_In, in_map_iff. split.
  - intros (i & <- & Hi%in_seq). lia.
  - intros Hs. exists (Z.to_nat s). split; [lia|]. apply in_seq. lia.
Qed.

Lemma addSum_holds n x sums : holds (addSum n x sums) (n, x).
Proof.
  unfold addSum, holds. cbn [fst snd].
  destruct (sums !! n) as [xs|] eqn:Hlookup.
  - destruct (existsb (PrimFloat.Leibniz.eqb x) xs) eqn:Hseen.
    + exists xs. split; [done|].
      apply existsb_exists in Hseen as (y & Hy & Heq).
      apply FloatAxioms.Leibniz.eqb_spec in Heq as ->. by apply list_elem_of_In.
    + exists (x :: xs). rewrite lookup_insert_eq. split; [done|by left].
  - exists [x]. rewrite lookup_insert_eq. split; [done|by left].
Qed.

Lemma addSum_mono n x sums p : holds sums p → holds (addSum n x sums) p.
Proof.
  unfold addSum, holds. intros (ys & Hys & Hp).
  destruct (sums !! n) as [xs|] eqn:Hlookup.
  - destruct (existsb _ xs); [by exists ys|].
    destruct (decide (p.1 = n)) as [Heq|Hne].
    + exists (x :: xs). rewrite Heq, lookup_insert_eq. split; [done|].
      right. rewrite Heq, Hlookup in Hys. by injection Hys as ->.
    + exists ys. by rewrite lookup_insert_ne.
  - destruct (decide (p.1 = n)) as [Heq|Hne]; [congruence|].
    exists ys. by rewrite lookup_insert_ne.
Qed.

(** Folds of a step that only adds sums. *)
Section Folds.
Context {B : Type} (step : gmap Z (list float) → B → gmap Z (list float)).
Hypothesis step_mono : ∀ acc b q, holds acc q → holds (step acc b) q.

Lemma fold_step_mono l acc q : holds acc q → holds (fold_left step l acc) q.
Proof.
  revert acc. induction l as [|b l IH]; intros acc Hq; [exact Hq|].
  cbn [fold_left]. apply IH, step_mono. exact Hq.
Qed.

Lemma fold_step_holds l acc b q :
  (∀ acc, holds (step acc b) q) → b ∈ l → holds (fold_left step l acc) q.
Proof.
  intros Hstep. revert acc. induction l as [|b' l IH]; intros acc Hb;
    [by apply not_elem_of_nil in Hb|].
  cbn [fold_left]. apply elem_of_cons in Hb as [<-|Hb].
  - apply fold_step_mono, Hstep.
  - apply IH. exact Hb.
Qed.

End Folds.

Lemma pairsOf_elem sums p : p ∈ pairsOf sums ↔ holds sums p.
Proof.
  unfold pairsOf, holds. rewrite list_elem_of_In, in_flat_map. split.
  - intros ([n xs] & Hin & Hp). apply list_elem_of_In in Hin.
    apply elem_of_map_to_list in Hin. cbn [fst snd] in Hp.
    apply in_map_iff in Hp as (x & <- & Hx). exists xs. split; [done|].
    by apply list_elem_of_In.
  - intros (xs & Hlookup & Hx). exists (p.1, xs). split.
    + apply list_elem_of_In. by apply elem_of_map_to_list.
    + cbn [fst snd]. apply in_map_iff. exists p.2. split; [by destruct p|].
      by apply list_elem_of_In.
Qed.

Lemma addTerm_mono weight factor acc p q :
  holds acc q → holds (addTerm weight factor acc p) q.
Proof.
  unfold addTerm. apply fold_step_mono.
  intros acc' s q'. apply addSum_mono.
Qed.

Lemma addTerm_holds weight factor acc p s :
  s ∈ wholeScores →
  holds (addTerm weight factor acc p)
        (p.1 + weight * s, (p.2 + ofZ s * factor)%float).
Proof.
  intros Hs. unfold addTerm.
  apply (fold_step_holds _ (λ acc' s' q', addSum_mono _ _ acc' q') wholeScores acc s);
    [|exact Hs].
  intros acc'. apply addSum_holds.
Qed.

Lemma stage_holds weight factor sums p s :
  holds sums p → 0 ≤ s ≤ 100 →
  holds (stage weight factor sums)
        (p.1 + weight * s, (p.2 + ofZ s * factor)%float).
Proof.
  intros Hp%pairsOf_elem Hs%wholeScores_elem. unfold stage.
  apply (fold_step_holds _ (addTerm_mono weight factor) (pairsOf sums) ∅ p); [|exact Hp].
  intros acc. apply addTerm_holds. exact Hs.
Qed.

Lemma stage1_holds s :
  0 ≤ s ≤ 100 → holds stage1 (25 * s, (ofZ s * 0.25)%float).
Proof.
  intros Hs%wholeScores_elem. unfold stage1.
  apply (fold_step_holds _ (λ acc' s' q', addSum_mono _ _ acc' q') wholeScores ∅ s);
    [|exact Hs].
  intros acc'. apply addSum_holds.
Qed.

Lemma stage5_holds sc im fb nl si :
  0 ≤ sc ≤ 100 → 0 ≤ im ≤ 100 → 0 ≤ fb ≤ 100 → 0 ≤ nl ≤ 100 → 0 ≤ si ≤ 100 →
  holds stage5
        (25 * sc + 25 * im + 20 * fb + 15 * nl + 15 * si,
         Scores.weightedSum (ofZ sc) (ofZ im) (ofZ fb) (ofZ nl) (ofZ si)).
Proof.
  intros Hsc Him Hfb Hnl Hsi. unfold stage5, Scores.weightedSum.
  pose proof (stage1_holds sc Hsc) as H1.
  pose proof (stage_holds 25 0.25 _ _ im H1 Him) as H2.
  pose proof (stage_holds 20 0.20 _ _ fb H2 Hfb) as H3.
  pose proof (stage_holds 15 0.15 _ _ nl H3 Hnl) as H4.
  exact (stage_holds 15 0.15 _ _ si H4 Hsi).
Qed.

Lemma stage5_roundsWell : forallb roundsWell (pairsOf stage5) = true.
Proof. vm_compute. reflexivity. Qed.

(** X23.  The composite score of whole-number sub-scores.  When the five
    sub-scores are whole numbers from 0 to 100, the composite score that
    [transformOpenAIResponse] computes in floating point is a whole number
    from 0 to 100, and it is a whole number nearest to the exact weighted
    average (25, 25, 20, 15 and 15 hundredths): it differs from it by at
    most one half.  At an exact tie the float sum can fall on either
    side, so a tie is not always rounded up. *)
Theorem composite_is_a_nearest_whole_number sc im fb nl si :
  0 ≤ sc ≤ 100 → 0 ≤ im ≤ 100 → 0 ≤ fb ≤ 100 → 0 ≤ nl ≤ 100 → 0 ≤ si ≤ 100 →
  ∃ k, 0 ≤ k ≤ 100 ∧
       Scores.Math_round
         (Scores.weightedSum (ofZ sc) (ofZ im) (ofZ fb) (ofZ nl) (ofZ si))
       = ofZ k ∧
       -50 ≤ 100 * k - (25 * sc + 25 * im + 20 * fb + 15 * nl + 15 * si) ≤ 50.
Proof.
  intros Hsc Him Hfb Hnl Hsi.
  pose proof (stage5_holds sc im fb nl si Hsc Him Hfb Hnl Hsi) as Hin.
  apply pairsOf_elem, list_elem_of_In in Hin.
  pose proof (proj1 (forallb_forall _ _) stage5_roundsWell _ Hin) as Hround.
  unfold roundsWell in Hround. cbn [fst snd] in Hround.
  set (exact := 25 * sc + 25 * im + 20 * fb + 15 * nl + 15 * si) in *.
  assert (0 ≤ exact ≤ 10000) as Hexact by (unfold exact; lia).
  pose proof (Z.div_mod (exact + 50) 100 ltac:(lia)) as Hdiv.
  pose proof (Z.mod_pos_bound (exact + 50) 100 ltac:(lia)) as Hmod.
  apply orb_true_iff in Hround as [Hk|[Htie Hk]%andb_true_iff].
  - apply FloatAxioms.Leibniz.eqb_spec in Hk.
    exists ((exact + 50) / 100). split_and!; [lia|lia|exact Hk|lia|lia].
  - apply FloatAxioms.Leibniz.eqb_spec in Hk. apply Z.eqb_eq in Htie.
    pose proof (Z.div_mod exact 100 ltac:(lia)) as Hdiv'.
    exists ((exact + 50) / 100 - 1). split_and!; [lia|lia|exact Hk|lia|lia].
Qed.

(** The sub-scores 0, 0, 0, 1, 9: the exact average is 1.5, the float sum
    is just below it, and the composite score is 1. *)
Lemma composite_is_a_nearest_whole_number_witness :
  Scores.Math_round (Scores.weightedSum (ofZ 0) (ofZ 0) (ofZ 0) (ofZ 1) (ofZ 9))
  = ofZ 1 ∧
  ∃ k, 0 ≤ k ≤ 100 ∧
       Scores.Math_round (Scores.weightedSum (ofZ 0) (ofZ 0) (ofZ 0) (ofZ 1) (ofZ 9))
       = ofZ k ∧
       -50 ≤ 100 * k - (25 * 0 + 25 * 0 + 20 * 0 + 15 * 1 + 15 * 9) ≤ 50.
Proof.
  split; [reflexivity|].
  apply (composite_is_a_nearest_whole_number 0 0 0 1 9); lia.
Defined.

End ScoreSumsFacts.

(* ===================================================================== *)
(** * Properties of [analyzeLLMDiscoverability] *)
(* ===================================================================== *)

Module OrchestratorFacts.
Import Builtins BuiltinsFacts ErrorHandler LlmAnalysis OrchestratorSpec.

(** ** Strings and the classification of errors *)

Lemma includes_after_prefix m :
  Js.includes "rate limit" (Js.toLowerCase ("OpenAI API Error: " +:+ m))
  = Js.includes "rate limit" (Js.toLowerCase m).
Proof. reflexivity. Qed.

Lemma isRateLimitError_OpenAIError m :
  isRateLimitError (OpenAIError m) = Js.includes "rate limit" (Js.toLowerCase m).
Proof.
  unfold isRateLimitError, OpenAIError, AppError. cbn [message status code].
  rewrite includes_after_prefix.
  rewrite !bool_decide_eq_false_2 by done. by rewrite !orb_false_r.
Qed.

Lemma isRateLimitError_messageOrUnknown error :
  isRateLimitError (OpenAIError (messageOrUnknown error)) = true →
  isRateLimitError error = true.
Proof.
  rewrite isRateLimitError_OpenAIError. unfold messageOrUnknown, isRateLimitError.
  destruct (message error) as [m|]; [|done].
  destruct (String.eqb m ""); [done|]. by intros ->.
Qed.

Lemma isRateLimitError_client_status error :
  isClientStatus error = true →
  isRateLimitError
    (OpenAIError ("API Error (" +:+ pretty (default 0 (status error)) +:+ ")"))
  = false.
Proof.
  unfold isClientStatus. intros Hclient.
  apply orb_true_iff in Hclient as [Hclient|Hclient];
    [apply orb_true_iff in Hclient as [Hclient|Hclient]|];
    apply bool_decide_eq_true in Hclient; rewrite Hclient; reflexivity.
Qed.

Lemma isRateLimitError_SyntaxError msg :
  isRateLimitError (SyntaxError msg) = Js.includes "rate limit" (Js.toLowerCase msg).
Proof.
  unfold isRateLimitError, SyntaxError. cbn [message status code].
  rewrite !bool_decide_eq_false_2 by done. by rewrite !orb_false_r.
Qed.

Lemma validateProductData_throws product t :
  validateProductData product = inl t →
  ∃ msg, t = ThrowError (ValidationError msg)
         ∧ isRateLimitError (ValidationError msg) = false.
Proof.
  unfold validateProductData.
  repeat (match goal with |- context [if ?b then _ else _] => destruct b end);
    intros [= <-]; eexists; (split; [reflexivity|reflexivity]).
Qed.

Lemma generateContentHash_throws `{Host} product t :
  generateContentHash product = inl t →
  ∃ e, t = ThrowError e ∧ isRateLimitError e = false.
Proof.
  unfold generateContentHash.
  destruct (Product.tags product) as [items|v]; [done|].
  destruct v; intros [= <-]; eexists; (split; [reflexivity|reflexivity]).
Qed.

Lemma contentOf_throws response t :
  contentOf response = inl t →
  ∃ e, t = ThrowError e ∧ isRateLimitError e = false.
Proof.
  unfold contentOf. destruct response as [|[content|]]; try (destruct (String.eqb content ""));
    intros [= <-]; eexists; (split; [reflexivity|reflexivity]).
Qed.

Lemma pushAll_inl {A : Type} (pushed : Response.Entry → Result (list A)) entries t :
  pushAll pushed entries = inl t → ∃ kv, kv ∈ entries ∧ pushed kv.2 = inl t.
Proof.
  induction entries as [|kv rest IH]; [done|]. cbn [pushAll].
  destruct (pushed kv.2) as [t'|items] eqn:Hkv; cbn [bind].
  - intros [= ->]. exists kv. split; [by left|done].
  - destruct (pushAll pushed rest) as [t'|more]; cbn [bind]; [|done].
    intros [= ->]. destruct (IH eq_refl) as (kv' & Hin & Hthrown).
    exists kv'. split; [by right|done].
Qed.

Lemma pushAll_inr {A : Type} (pushed : Response.Entry → Result (list A)) entries l :
  pushAll pushed entries = inr l →
  ∀ kv, kv ∈ entries → ∃ items, pushed kv.2 = inr items.
Proof.
  revert l. induction entries as [|kv rest IH]; intros l.
  - intros _ kv' Hin. by apply not_elem_of_nil in Hin.
  - cbn [pushAll]. destruct (pushed kv.2) as [t'|items] eqn:Hkv; cbn [bind]; [done|].
    destruct (pushAll pushed rest) as [t'|more]; cbn [bind]; [done|].
    intros _ kv' [->|Hin]%elem_of_cons; [by eexists|]. by apply (IH more).
Qed.

Lemma pushAll_returns {A : Type} (pushed : Response.Entry → Result (list A)) entries :
  (∀ kv, kv ∈ entries → ∃ items, pushed kv.2 = inr items) →
  ∃ l, pushAll pushed entries = inr l.
Proof.
  induction entries as [|kv rest IH]; intros Hall; [by eexists|].
  cbn [pushAll]. destruct (Hall kv) as [items ->]; [by left|].
  destruct IH as [more ->]; [intros kv' Hin; apply Hall; by right|].
  by eexists.
Qed.

Lemma spread_thrown {A : Type} (x : Response.Spread A) t :
  spread x = inl t → x = Response.NotIterable ∧ t = ThrowError notIterable.
Proof. destruct x; [done..|]. by intros [= <-]. Qed.

Lemma spreadOf_thrown name field e t :
  spreadOf name field e = inl t →
  (e = Response.CatNull
   ∧ t = ThrowError
           (TypeError ("Cannot read properties of null (reading '" +:+ name +:+ "')")))
  ∨ (e ≠ Response.CatNull ∧ field (asCategory e) = Response.NotIterable
     ∧ t = ThrowError notIterable).
Proof.
  destruct e as [|c|v]; cbn [spreadOf].
  - intros [= <-]. by left.
  - intros [-> ->]%spread_thrown. by right.
  - intros [-> ->]%spread_thrown. by right.
Qed.

Lemma collect_thrown {A : Type} entries (field : Response.Specific → Response.Spread A) t :
  collect entries field = inl t →
  t = ThrowError notIterable ∧
  ∃ kv specific, kv ∈ entries
                 ∧ Response.specificContentSuggestions (asCategory kv.2) = Some specific
                 ∧ field specific = Response.NotIterable.
Proof.
  intros (kv & Hin & Hthrown)%pushAll_inl.
  destruct (Response.specificContentSuggestions (asCategory kv.2)) as [specific|] eqn:Hsp;
    [|done].
  apply spread_thrown in Hthrown as [Hfield ->]. split; [done|]. by exists kv, specific.
Qed.

(** The steps of [transformOpenAIResponse] are taken one by one. *)
Ltac transform_steps :=
  repeat match goal with
         | |- context [bind (pushAll ?f ?l) _] =>
             let H := fresh "Hstep" in
             destruct (pushAll f l) eqn:H; cbn [bind]
         | |- context [bind (collect ?l ?f) _] =>
             let H := fresh "Hstep" in
             destruct (collect l f) eqn:H; cbn [bind]
         end.

Lemma transformOpenAIResponse_throws parsed reviewData t :
  transformOpenAIResponse parsed reviewData = inl t →
  ∃ e, t = ThrowError e ∧ isRateLimitError e = false.
Proof.
  unfold transformOpenAIResponse. destruct parsed as [|entries].
  - intros [= <-]. eexists. split; reflexivity.
  - transform_steps; intros [= <-];
      repeat match goal with
             | H : collect _ _ = inl _ |- _ => apply collect_thrown in H as [-> _]
             | H : pushAll (spreadOf _ _) _ = inl _ |- _ =>
                 apply pushAll_inl in H as (? & _ & [[_ ->]|(_ & _ & ->)]%spreadOf_thrown)
             end;
      eexists; (split; reflexivity).
Qed.

(** What an analysis that [transformOpenAIResponse] returns holds under
    [scores] and [llmOptimizations]. *)
Lemma transformOpenAIResponse_returns entries reviewData a :
  transformOpenAIResponse (Response.ParsedObject entries) reviewData = inr a →
  ProductAnalysis.scores a = transformScores entries ∧
  ProductAnalysis.llmOptimizations a
  = List.map
      (λ kv : string * Response.Entry,
         let category := asCategory kv.2 in
         {| Optimization.category := trim (spaceCapitals kv.1);
            Optimization.score := scoreOrZero (Response.score category);
            Optimization.suggestions :=
              default [] (Response.optimizationSuggestions category);
            Optimization.specificContent :=
              match Response.specificContentSuggestions category with
              | Some specific => Response.specificRaw specific
              | None => Js.VObj []
              end |}) entries.
Proof.
  unfold transformOpenAIResponse. transform_steps; try done.
  intros [= <-]. split; reflexivity.
Qed.

Lemma transformOpenAIResponse_scores parsed reviewData a :
  transformOpenAIResponse parsed reviewData = inr a →
  Scores.composite_ok (ProductAnalysis.scores a).
Proof.
  destruct parsed as [|entries]; [done|].
  intros [-> _]%transformOpenAIResponse_returns.
  unfold Scores.composite_ok, transformScores.
  cbn [Scores.discoveryPotential Scores.semanticClarity Scores.intentMatching
       Scores.featureBenefitStructure Scores.naturalLanguage Scores.structuredInfo].
  by rewrite ScoreSumsFacts.weightedSum_weights.
Qed.

Lemma createFallbackAnalysis_scores title :
  Scores.composite_ok (ProductAnalysis.scores (createFallbackAnalysis title)).
Proof. reflexivity. Qed.

(** ** The retry loop, as the orchestrator sees it *)

(** In iteration [attempt ≤ maxRetries] with [maxRetries + 1 - attempt]
    iterations to go, the loop either returns the response of an attempt
    that settled in time, or throws an error object: the [TypeError] for a
    rejection with [undefined], the error for a client status, or the error
    built from the message of the failure of some attempt. *)
Lemma retryLoop_outcome upstream maxRetries left attempt lastError :
  (left + attempt = maxRetries + 1)%nat → (1 ≤ left)%nat →
  match (retryLoop upstream maxRetries left attempt lastError).1 with
  | inr response =>
      ∃ k, (attempt ≤ k ≤ maxRetries)%nat ∧ race (upstream k) = inr response
  | inl t =>
      ∃ e, t = ThrowError e ∧
           (isRateLimitError e = true →
            ∃ k error, (attempt ≤ k ≤ maxRetries)%nat
                       ∧ race (upstream k) = inl (ThrowError error)
                       ∧ isRateLimitError error = true)
  end.
Proof.
  revert attempt lastError.
  induction left as [|left IH]; intros attempt lastError Hsum Hleft; [lia|].
  simpl. destruct (race (upstream attempt)) as [[error|]|response] eqn:Hrace; simpl.
  - destruct (isClientStatus error) eqn:Hclient; simpl.
    { eexists. split; [done|]. by rewrite isRateLimitError_client_status. }
    destruct ((attempt <? maxRetries)%nat && _) eqn:Hretry; simpl.
    + apply andb_true_iff in Hretry as [Hlt%Nat.ltb_lt _].
      specialize (IH (S attempt) (ThrowError error)).
      destruct (retryLoop upstream maxRetries left (S attempt) (ThrowError error))
        as [[t|response] evs]; simpl in *.
      * destruct IH as (e & -> & Horigin); [lia..|].
        exists e. split; [done|]. intros Hrl.
        destruct (Horigin Hrl) as (k & error' & ? & ? & ?).
        exists k, error'. split_and!; [lia..|done|done].
      * destruct IH as (k & ? & ?); [lia..|]. exists k. split; [lia|done].
    + eexists. split; [done|]. intros Hrl.
      exists attempt, error. split_and!; [lia..|done|].
      by apply isRateLimitError_messageOrUnknown.
  - eexists. split; [done|]. done.
  - exists attempt. split; [lia|done].
Qed.

Lemma callOpenAIWithRetry_outcome upstream :
  match (callOpenAIWithRetry upstream 3).1 with
  | inr response =>
      ∃ k, (1 ≤ k ≤ 3)%nat ∧ race (upstream k) = inr response
  | inl t =>
      ∃ e, t = ThrowError e ∧
           (isRateLimitError e = true →
            ∃ k error, (1 ≤ k ≤ 3)%nat
                       ∧ race (upstream k) = inl (ThrowError error)
                       ∧ isRateLimitError error = true)
  end.
Proof. apply retryLoop_outcome; lia. Qed.

Lemma race_resolved api response :
  race api = inr response → ∃ ms, api = ApiResolves ms response.
Proof.
  destruct api as [ms r|ms reason|]; simpl; [| |done].
  - destruct (ms <? REQUEST_TIMEOUT_MS); [|done]. intros [= ->]. by exists ms.
  - by destruct (ms <? REQUEST_TIMEOUT_MS).
Qed.

(** ** The stages of the [try] block *)

Lemma quotaStage_absent options env run :
  sessionOf options = None → quotaStage options env run = (inr None, run).
Proof. unfold quotaStage. by intros ->. Qed.

Lemma quotaStage_present options env run session :
  sessionOf options = Some session →
  quotaStage options env run
  = let checked :=
      RateLimiter.isAllowed (nowQuota env)
        (RateLimiter.getRateLimitIdentifier session)
        (RateLimiter.openaiRateLimiter (limiters (server run))) in
    (inr (if checked.1 then None
          else Some (failureResult (Product.title (product run)) true)),
     mkRun (mkServer (analysisCache (server run))
              (RateLimiter.mkLimiters checked.2
                 (RateLimiter.bulkAnalysisLimiter (limiters (server run)))))
           (product run) (events run)).
Proof.
  unfold quotaStage. intros ->.
  unfold bindM, checkRateLimitM, RateLimiter.checkRateLimit.
  destruct (RateLimiter.isAllowed _ _ _) as [ok limiter]. simpl.
  by destruct ok.
Qed.

Lemma generateContentHashM_spec `{Host} reviewData run :
  let out := generateContentHashM reviewData run in
  server out.2 = server run ∧ events out.2 = events run ∧
  Product.title (product out.2) = Product.title (product run) ∧
  match out.1 with
  | inl t => out.2 = run ∧ ∃ e, t = ThrowError e ∧ isRateLimitError e = false
  | inr _ => True
  end.
Proof.
  unfold generateContentHashM.
  match goal with
  | |- context [generateContentHash ?p] =>
      destruct (generateContentHash p) as [t|[h after]] eqn:Hhash
  end; simpl.
  - split_and!; try done. by eapply generateContentHash_throws.
  - done.
Qed.

Lemma getCachedAnalysisM_spec now h run :
  getCachedAnalysisM now h run
  = (inr (getCachedAnalysis now h (analysisCache (server run))).1,
     mkRun (mkServer (getCachedAnalysis now h (analysisCache (server run))).2
                     (limiters (server run)))
           (product run) (events run)).
Proof.
  unfold getCachedAnalysisM. by destruct (getCachedAnalysis _ _ _).
Qed.

Lemma upstreamStage_spec `{Host} env reviewData h run :
  let out := upstreamStage env reviewData h run in
  product out.2 = product run ∧
  limiters (server out.2) = limiters (server run) ∧
  events out.2 = events run ++ (callOpenAIWithRetry (upstream env) 3).2 ∧
  match out.1 with
  | inl t =>
      analysisCache (server out.2) = analysisCache (server run) ∧
      ∃ e, t = ThrowError e ∧
           (isRateLimitError e = true →
            upstreamRateLimited env ∨ parseErrorMentionsRateLimit env)
  | inr r =>
      ∃ a parsed,
        r = mkResult a (Some Fresh) None ∧
        transformOpenAIResponse parsed reviewData = inr a ∧
        analysisCache (server out.2)
        = setCachedAnalysis (nowStore env) h a (analysisCache (server run))
  end.
Proof.
  unfold upstreamStage, bindM, callOpenAIWithRetryM, liftM, setCachedAnalysisM, retM.
  pose proof (callOpenAIWithRetry_outcome (upstream env)) as Hcall.
  destruct (callOpenAIWithRetry (upstream env) 3) as [[t|response] evs]; simpl in *.
  { split_and!; try done.
    destruct Hcall as (e & -> & Horigin). exists e. split; [done|].
    intros Hrl. left. destruct (Horigin Hrl) as (k & error & ? & ? & ?).
    by exists k, error. }
  destruct Hcall as (k & Hk & Hrace).
  destruct (contentOf response) as [t|content] eqn:Hcontent; simpl.
  { split_and!; try done.
    destruct (contentOf_throws _ _ Hcontent) as (e & -> & Hno).
    exists e. split; [done|]. by rewrite Hno. }
  unfold parseContent.
  destruct (JSON_parse content) as [msg|parsed] eqn:Hparse; simpl.
  { split_and!; try done.
    eexists. split; [done|]. rewrite isRateLimitError_SyntaxError. intros Hrl.
    right. destruct (race_resolved _ _ Hrace) as [ms Hms].
    exists k, ms, content, msg. split; [lia|]. split; [|done].
    rewrite Hms. f_equal. unfold contentOf in Hcontent.
    destruct response as [|[c|]]; try done.
    destruct (String.eqb c ""); [done|]. by injection Hcontent as ->. }
  destruct (transformOpenAIResponse parsed reviewData) as [t|a] eqn:Htransform; simpl.
  { split_and!; try done.
    destruct (transformOpenAIResponse_throws _ _ _ Htransform) as (e & -> & Hno).
    exists e. split; [done|]. by rewrite Hno. }
  split_and!; try done. by exists a, parsed.
Qed.

Lemma cacheStage_unfold `{Host} env run :
  cacheStage env run
  = match generateContentHashM (fetchedReviewData env) run with
    | (inl t, run1) => (inl t, run1)
    | (inr h, run1) =>
        match (getCachedAnalysis (nowLookup env) h (analysisCache (server run1))).1 with
        | Some cached =>
            (inr (mkResult cached (Some Cached) None),
             (getCachedAnalysisM (nowLookup env) h run1).2)
        | None =>
            upstreamStage env (fetchedReviewData env) h
                          (getCachedAnalysisM (nowLookup env) h run1).2
        end
    end.
Proof.
  unfold cacheStage, bindM.
  destruct (generateContentHashM _ run) as [[t|h] run1]; [done|].
  rewrite getCachedAnalysisM_spec. simpl.
  by destruct (getCachedAnalysis _ _ _).1.
Qed.

Lemma tryBlock_unfold `{Host} options env run :
  tryBlock options env run
  = match validateProductData (product run) with
    | inl t => (inl t, run)
    | inr _ =>
        match quotaStage options env run with
        | (inl t, run1) => (inl t, run1)
        | (inr (Some result), run1) => (inr result, run1)
        | (inr None, run1) => cacheStage env run1
        end
    end.
Proof.
  unfold tryBlock, bindM.
  destruct (validateProductData (product run)); [done|].
  by destruct (quotaStage options env run) as [[t|[result|]] run1].
Qed.

(** ** The scores of the cached analyses *)

Lemma elem_of_mapDelete {V : Type} (k : string) (m : JsMap V) kv :
  kv ∈ mapDelete k m → kv ∈ m.
Proof.
  induction m as [|[k' v'] m IH]; simpl; [done|].
  destruct (String.eqb k k'); [by right|].
  intros [->|Hin]%elem_of_cons; [by left|right; by apply IH].
Qed.

Lemma elem_of_mapSet {V : Type} (k : string) (v : V) (m : JsMap V) kv :
  kv ∈ mapSet k v m → kv ∈ m ∨ kv = (k, v).
Proof.
  induction m as [|[k' v'] m IH]; simpl.
  - intros ->%list_elem_of_singleton. by right.
  - destruct (String.eqb k k').
    + intros [->|Hin]%elem_of_cons; [by right|left; by right].
    + intros [->|Hin]%elem_of_cons; [left; by left|].
      destruct (IH Hin) as [?|?]; [left; by right|by right].
Qed.

Lemma cacheScoresOk_get now h cache :
  cacheScoresOk cache →
  cacheScoresOk (getCachedAnalysis now h cache).2 ∧
  ∀ a, (getCachedAnalysis now h cache).1 = Some a →
       Scores.composite_ok (ProductAnalysis.scores a).
Proof.
  intros Hok. unfold getCachedAnalysis.
  destruct (mapGet h cache) as [cached|] eqn:Hget; simpl; [|done].
  destruct (_ >? _); simpl.
  - split; [|done]. intros kv Hkv. by eapply Hok, elem_of_mapDelete.
  - split; [done|]. intros a [= <-].
    apply (Hok (h, cached)). by apply mapGet_Some_elem.
Qed.

Lemma cacheScoresOk_set now h a cache :
  Scores.composite_ok (ProductAnalysis.scores a) →
  cacheScoresOk cache → cacheScoresOk (setCachedAnalysis now h a cache).
Proof.
  intros Ha Hok.
  assert (cacheScoresOk (mapSet h (mkCacheEntry a now h) cache)) as Hset.
  { intros kv [Hkv| ->]%elem_of_mapSet; [by apply Hok|done]. }
  unfold setCachedAnalysis. destruct (_ >? _); [|done].
  destruct (sortBy _ _); [done|].
  intros kv Hkv. by eapply Hset, elem_of_mapDelete.
Qed.

(** ** The [try] block and the call *)

Lemma isAllowed_denied now identifier rl :
  (RateLimiter.isAllowed now identifier rl).1 = false →
  (RateLimiter.isAllowed now identifier rl).2 = rl.
Proof.
  unfold RateLimiter.isAllowed.
  destruct (RateLimiter.limits rl !! identifier) as [entry|]; [|done].
  destruct (now >=? RateLimiter.resetTime entry); [done|].
  by destruct (RateLimiter.count entry >=? RateLimiter.maxRequests rl).
Qed.

Lemma cacheStage_spec `{Host} env run :
  let out := cacheStage env run in
  limiters (server out.2) = limiters (server run) ∧
  Product.title (product out.2) = Product.title (product run) ∧
  (cacheScoresOk (analysisCache (server run)) →
   cacheScoresOk (analysisCache (server out.2))) ∧
  match out.1 with
  | inl t =>
      ∃ e, t = ThrowError e ∧
           (isRateLimitError e = true →
            upstreamRateLimited env ∨ parseErrorMentionsRateLimit env)
  | inr r =>
      rateLimited r = None ∧
      (cacheScoresOk (analysisCache (server run)) →
       Scores.composite_ok (ProductAnalysis.scores (analysisOf r)))
  end.
Proof.
  rewrite cacheStage_unfold.
  pose proof (generateContentHashM_spec (fetchedReviewData env) run) as Hhash.
  destruct (generateContentHashM (fetchedReviewData env) run) as [[t|h] run1];
    simpl in Hhash; destruct Hhash as (Hserver & Hevents & Htitle & Hthrow).
  { destruct Hthrow as (-> & e & -> & Hno). simpl. split_and!; try done.
    exists e. split; [done|]. by rewrite Hno. }
  rewrite getCachedAnalysisM_spec. cbn [snd].
  pose proof (cacheScoresOk_get (nowLookup env) h (analysisCache (server run1))) as Hget.
  rewrite Hserver in Hget |- *.
  destruct (getCachedAnalysis (nowLookup env) h (analysisCache (server run))).1
    as [cached|] eqn:Hfound.
  { simpl. split_and!; try done.
    - intros Hok. by apply Hget.
    - intros Hok. by apply Hget. }
  match goal with
  | |- context [upstreamStage env ?rd h ?r] =>
      pose proof (upstreamStage_spec env rd h r) as Hup;
      destruct (upstreamStage env rd h r) as [[t|r'] run2]
  end; simpl in Hup |- *; destruct Hup as (Hproduct & Hlimiters & _ & Hout).
  - destruct Hout as (Hcache & e & -> & Horigin).
    rewrite Hproduct, Hlimiters, Hcache. split_and!; try done.
    + intros Hok. by apply Hget.
    + by exists e.
  - destruct Hout as (a & parsed & -> & Htransform & Hcache).
    rewrite Hproduct, Hlimiters, Hcache. simpl.
    pose proof (transformOpenAIResponse_scores _ _ _ Htransform) as Ha.
    split_and!; try done.
    intros Hok. apply cacheScoresOk_set; [done|]. by apply Hget.
Qed.

(** Everything the theorems below need of the [try] block, on the state a
    call starts in. *)
Lemma tryBlock_spec `{Host} product options env server :
  let out := tryBlock options env (mkRun server product []) in
  Product.title (LlmAnalysis.product out.2) = Product.title product ∧
  (sessionOf options = None → limiters (LlmAnalysis.server out.2) = limiters server) ∧
  (cacheScoresOk (analysisCache server) →
   cacheScoresOk (analysisCache (LlmAnalysis.server out.2))) ∧
  match out.1 with
  | inl t =>
      ∃ e, t = ThrowError e ∧
           (isRateLimitError e = true →
            upstreamRateLimited env ∨ parseErrorMentionsRateLimit env)
  | inr r =>
      (rateLimited r = Some true →
       ∃ session, sessionOf options = Some session ∧
                  (RateLimiter.isAllowed (nowQuota env)
                     (RateLimiter.getRateLimitIdentifier session)
                     (RateLimiter.openaiRateLimiter (limiters server))).1 = false) ∧
      (cacheScoresOk (analysisCache server) →
       Scores.composite_ok (ProductAnalysis.scores (analysisOf r)))
  end.
Proof.
  rewrite tryBlock_unfold. cbn [LlmAnalysis.product].
  destruct (validateProductData product) as [t|u] eqn:Hvalid.
  { simpl. split_and!; try done.
    destruct (validateProductData_throws _ _ Hvalid) as (msg & -> & Hno).
    eexists. split; [done|]. by rewrite Hno. }
  destruct (sessionOf options) as [session|] eqn:Hsession.
  - rewrite (quotaStage_present _ _ _ _ Hsession). cbn zeta.
    cbn [LlmAnalysis.server LlmAnalysis.product events analysisCache limiters].
    destruct (RateLimiter.isAllowed _ _ _) as [[|] limiter] eqn:Hallowed; cbn [fst snd].
    + match goal with
      | |- context [cacheStage env ?r] =>
          pose proof (cacheStage_spec env r) as Hstage;
          destruct (cacheStage env r) as [[t|r'] run2]
      end; simpl in Hstage |- *;
        destruct Hstage as (_ & Htitle & Hcache & Hout).
      * split_and!; done.
      * destruct Hout as [Hnone Hscores]. split_and!; try done.
        rewrite Hnone. done.
    + simpl. split_and!; try done.
      intros _. exists session. by rewrite Hallowed.
  - rewrite (quotaStage_absent _ _ _ Hsession).
    pose proof (cacheStage_spec env (mkRun server product [])) as Hstage.
    destruct (cacheStage env (mkRun server product [])) as [[t|r'] run2];
      simpl in Hstage |- *;
      destruct Hstage as (Hlimiters & Htitle & Hcache & Hout).
    + split_and!; done.
    + destruct Hout as [Hnone Hscores]. split_and!; try done.
      rewrite Hnone. done.
Qed.

(** The call: it returns, and a failure of the [try] block is returned as
    the fallback, marked when [isRateLimitError] holds of the error. *)
Lemma analyze_of_tryBlock `{Host} product options env server :
  let tried := tryBlock options env (mkRun server product []) in
  let out := analyzeLLMDiscoverability product options env server in
  out.2 = tried.2 ∧
  match tried.1 with
  | inr r => out.1 = inr r
  | inl t =>
      ∃ e, t = ThrowError e
           ∧ out.1 = inr (failureResult (Product.title product) (isRateLimitError e))
  end.
Proof.
  unfold analyzeLLMDiscoverability.
  pose proof (tryBlock_spec product options env server) as Hspec.
  destruct (tryBlock options env (mkRun server product [])) as [[t|r] run];
    simpl in Hspec |- *; [|done].
  destruct Hspec as (Htitle & _ & _ & e & -> & _).
  split; [done|]. exists e. split; [done|].
  unfold catchBlock, failureResult. rewrite Htitle.
  by destruct (isRateLimitError e).
Qed.

Lemma analyze_scores `{Host} product options env server :
  cacheScoresOk (analysisCache server) →
  let out := analyzeLLMDiscoverability product options env server in
  (∃ r, out.1 = inr r
        ∧ Scores.composite_ok (ProductAnalysis.scores (analysisOf r))) ∧
  cacheScoresOk (analysisCache (LlmAnalysis.server out.2)).
Proof.
  intros Hok.
  pose proof (analyze_of_tryBlock product options env server) as Hcall.
  pose proof (tryBlock_spec product options env server) as Hspec.
  cbn zeta in *. destruct Hcall as [-> Hresult].
  destruct Hspec as (_ & _ & Hcache & Hout).
  split; [|by apply Hcache].
  destruct (tryBlock options env (mkRun server product [])).1 as [t|r].
  - destruct Hresult as (e & _ & ->). eexists. split; [done|].
    apply createFallbackAnalysis_scores.
  - exists r. split; [done|]. by apply Hout.
Qed.

Lemma reachable_scores `{Host} server : reachable server → cacheScoresOk (analysisCache server).
Proof.
  induction 1 as [openaiLimit bulkLimit|server product options env _ IH].
  - intros kv Hkv. by apply not_elem_of_nil in Hkv.
  - by apply analyze_scores.
Qed.

(** C6.  Every analysis the service produces satisfies
    [discoveryPotential = round(0.25·semanticClarity + 0.25·intentMatching
    + 0.20·featureBenefitStructure + 0.15·naturalLanguage
    + 0.15·structuredInfo)] ([Scores.composite_ok], which writes out the
    five weights), the expression being evaluated in binary64 arithmetic:
    - an analysis made by [transformOpenAIResponse];
    - the fallback analysis, for every title;
    - the result of a call of [analyzeLLMDiscoverability] on a server whose
      cached analyses satisfy it, and the cache the call leaves satisfies
      it again;
    - hence the result of every call on a server state reached from the
      initial one by such calls (fresh, cached or fallback).
    Rounded to the nearest integer: where the five sub-scores are whole
    numbers from 0 to 100, a composite score that satisfies the equation is
    a whole number from 0 to 100 and differs from the exact weighted sum
    (25, 25, 20, 15 and 15 hundredths of the sub-scores) by at most one
    half.  The five weights sum to 1, as decimal fractions and as
    floats. *)
Theorem composite_score_invariant `{Host} :
  (∀ parsed reviewData a,
     transformOpenAIResponse parsed reviewData = inr a →
     Scores.composite_ok (ProductAnalysis.scores a)) ∧
  (∀ title, Scores.composite_ok (ProductAnalysis.scores (createFallbackAnalysis title))) ∧
  (∀ product options env server,
     cacheScoresOk (analysisCache server) →
     let out := analyzeLLMDiscoverability product options env server in
     (∃ r, out.1 = inr r
           ∧ Scores.composite_ok (ProductAnalysis.scores (analysisOf r))) ∧
     cacheScoresOk (analysisCache (LlmAnalysis.server out.2))) ∧
  (∀ product options env server,
     reachable server →
     ∃ r, (analyzeLLMDiscoverability product options env server).1 = inr r
          ∧ Scores.composite_ok (ProductAnalysis.scores (analysisOf r))) ∧
  (∀ scores sc im fb nl si,
     Scores.composite_ok scores →
     Scores.semanticClarity scores = ScoreSums.ofZ sc → 0 ≤ sc ≤ 100 →
     Scores.intentMatching scores = ScoreSums.ofZ im → 0 ≤ im ≤ 100 →
     Scores.featureBenefitStructure scores = ScoreSums.ofZ fb → 0 ≤ fb ≤ 100 →
     Scores.naturalLanguage scores = ScoreSums.ofZ nl → 0 ≤ nl ≤ 100 →
     Scores.structuredInfo scores = ScoreSums.ofZ si → 0 ≤ si ≤ 100 →
     ∃ k, 0 ≤ k ≤ 100 ∧
          Scores.discoveryPotential scores = ScoreSums.ofZ k ∧
          -50 ≤ 100 * k - (25 * sc + 25 * im + 20 * fb + 15 * nl + 15 * si) ≤ 50) ∧
  (0.25 + 0.25 + 0.20 + 0.15 + 0.15 = 1)%float ∧
  (fold_right Qplus 0 Scores.weights == 1)%Q.
Proof.
  refine (conj _ (conj _ (conj _ (conj _ (conj _ (conj _ _)))))).
  - apply transformOpenAIResponse_scores.
  - apply createFallbackAnalysis_scores.
  - intros product options env server. apply analyze_scores.
  - intros product options env server Hreach.
    by apply analyze_scores, reachable_scores.
  - intros scores sc im fb nl si Hok H1 Hsc H2 Him H3 Hfb H4 Hnl H5 Hsi.
    unfold Scores.composite_ok in Hok.
    rewrite <-ScoreSumsFacts.weightedSum_weights, H1, H2, H3, H4, H5 in Hok.
    rewrite Hok.
    pose proof (ScoreSumsFacts.stage5_holds sc im fb nl si Hsc Him Hfb Hnl Hsi) as Hin.
    apply ScoreSumsFacts.pairsOf_elem, list_elem_of_In in Hin.
    pose proof (proj1 (forallb_forall _ _) ScoreSumsFacts.stage5_roundsWell _ Hin)
      as Hround.
    unfold ScoreSums.roundsWell in Hround. cbn [fst snd] in Hround.
    set (exact := 25 * sc + 25 * im + 20 * fb + 15 * nl + 15 * si) in *.
    assert (0 ≤ exact ≤ 10000) as Hexact by (unfold exact; lia).
    pose proof (Z.div_mod (exact + 50) 100 ltac:(lia)) as Hdiv.
    pose proof (Z.mod_pos_bound (exact + 50) 100 ltac:(lia)) as Hmod.
    apply orb_true_iff in Hround as [Hk|[Htie Hk]%andb_true_iff].
    + apply FloatAxioms.Leibniz.eqb_spec in Hk.
      exists ((exact + 50) / 100). split_and!; [lia|lia|exact Hk|lia|lia].
    + apply FloatAxioms.Leibniz.eqb_spec in Hk. apply Z.eqb_eq in Htie.
      pose proof (Z.div_mod exact 100 ltac:(lia)) as Hdiv'.
      exists ((exact + 50) / 100 - 1). split_and!; [lia|lia|exact Hk|lia|lia].
  - reflexivity.
  - reflexivity.
Qed.

Lemma analyze_quota_denied `{Host} product options env server session :
  validateProductData product = inr tt →
  sessionOf options = Some session →
  (RateLimiter.isAllowed (nowQuota env)
     (RateLimiter.getRateLimitIdentifier session)
     (RateLimiter.openaiRateLimiter (limiters server))).1 = false →
  analyzeLLMDiscoverability product options env server
  = (inr (mkResult (createFallbackAnalysis (Product.title product))
                   (Some Fresh) (Some true)),
     mkRun server product []).
Proof.
  intros Hvalid Hsession Hdenied.
  unfold analyzeLLMDiscoverability. rewrite tryBlock_unfold.
  cbn [LlmAnalysis.product]. rewrite Hvalid.
  rewrite (quotaStage_present _ _ _ _ Hsession). cbn zeta.
  cbn [LlmAnalysis.server LlmAnalysis.product events analysisCache limiters].
  rewrite Hdenied, (isAllowed_denied _ _ _ Hdenied). simpl.
  by destruct server as [cache [openai bulk]].
Qed.

(** The floats round the weighted sum of the sub-scores 0, 0, 0, 1, 9 to 1:
    the sum, 1.5 in exact arithmetic, is 1.4999999999999998 in binary64. *)
Example weightedSum_below_tie :
  Scores.weightedSum 0 0 0 1 9 = 1.4999999999999998%float
  ∧ Scores.Math_round (Scores.weightedSum 0 0 0 1 9) = 1%float.
Proof. split; reflexivity. Qed.

(** For a title that is not [undefined], the fallback analysis is the
    structurally complete one. *)
Lemma createFallbackAnalysis_complete title :
  title ≠ Js.VUndefined → structurallyComplete title (createFallbackAnalysis title).
Proof. intros Htitle. by destruct title. Qed.

Lemma validateProductData_title product :
  validateProductData product = inr tt → Product.title product ≠ Js.VUndefined.
Proof. unfold validateProductData. by destruct (Product.title product). Qed.

(** C7.  When the limiter is asked and denies the request (the product is
    valid, a session is supplied, and [isAllowed] answers [false] for the
    tenant of the session), the call returns the fallback analysis for the
    product title with [cacheStatus: 'fresh'] and [rateLimited: true], and
    that analysis is structurally complete: zero scores, the gap message,
    the system-error entry, the improved content for the title and the
    placeholders of the review recommendations, each field written out in
    [structurallyComplete].  Nothing is called upstream, and the server
    state and the product are left as they were. *)
Theorem quota_denied_returns_rate_limited_fallback `{Host}
        product options env server session :
  validateProductData product = inr tt →
  sessionOf options = Some session →
  (RateLimiter.isAllowed (nowQuota env)
     (RateLimiter.getRateLimitIdentifier session)
     (RateLimiter.openaiRateLimiter (limiters server))).1 = false →
  let out := analyzeLLMDiscoverability product options env server in
  out.1 = inr (mkResult (createFallbackAnalysis (Product.title product))
                        (Some Fresh) (Some true)) ∧
  (∃ analysis,
     out.1 = inr (mkResult analysis (Some Fresh) (Some true)) ∧
     structurallyComplete (Product.title product) analysis) ∧
  events out.2 = [] ∧
  upstreamCalls (events out.2) = 0%nat ∧
  LlmAnalysis.server out.2 = server ∧
  LlmAnalysis.product out.2 = product.
Proof.
  intros Hvalid Hsession Hdenied. cbn zeta.
  rewrite (analyze_quota_denied _ _ _ _ _ Hvalid Hsession Hdenied).
  split_and!; [done| |done..].
  eexists. split; [done|].
  by apply createFallbackAnalysis_complete, validateProductData_title.
Qed.

(** C10, as the code has it.  Without a session the quota stage does
    nothing: it returns without reading or writing a limiter, so both
    limiters are after the call what they were before, and the call is not
    denied.  The call returns a result; if that result has
    [rateLimited: true], the [try] block threw an error that
    [isRateLimitError] classifies as a rate limit, and that error came from
    the upstream stage: an upstream attempt failed with an error so
    classified, or [JSON.parse] rejected the upstream answer with a message
    containing "rate limit" (engines quote the rejected text in the
    message).  On a host whose [JSON.parse] messages never contain
    "rate limit", the first is the only case. *)
Theorem no_session_no_local_quota `{Host} product options env server :
  sessionOf options = None →
  let out := analyzeLLMDiscoverability product options env server in
  (∀ run, quotaStage options env run = (inr None, run)) ∧
  limiters (LlmAnalysis.server out.2) = limiters server ∧
  ∃ r, out.1 = inr r ∧
       (rateLimited r = Some true →
        ∃ e, (tryBlock options env (mkRun server product [])).1 = inl (ThrowError e)
             ∧ isRateLimitError e = true
             ∧ (upstreamRateLimited env ∨ parseErrorMentionsRateLimit env)) ∧
       (parseErrorsPlain → rateLimited r = Some true → upstreamRateLimited env).
Proof.
  intros Hsession.
  pose proof (analyze_of_tryBlock product options env server) as Hcall.
  pose proof (tryBlock_spec product options env server) as Hspec.
  cbn zeta in *. destruct Hcall as [-> Hresult].
  destruct Hspec as (_ & Hlimiters & _ & Hout).
  split; [intros run; by apply quotaStage_absent|].
  split; [by apply Hlimiters|].
  destruct (tryBlock options env (mkRun server product [])).1 as [t|r].
  - destruct Hresult as (e & -> & ->). destruct Hout as (e' & [= <-] & Horigin).
    eexists. split; [done|]. unfold failureResult. simpl.
    destruct (isRateLimitError e) eqn:Hrl; [|done].
    split.
    + intros _. exists e. by split_and!; [| |apply Horigin].
    + intros Hplain _. destruct Horigin as [?|Hparse]; [done..|].
      destruct Hparse as (k & ms & content & msg & _ & _ & Hparse & Hmention).
      by rewrite (Hplain _ _ Hparse) in Hmention.
  - exists r. split; [done|]. destruct Hout as [Hmark _].
    split; [intros Hrl|intros _ Hrl];
      destruct (Hmark Hrl) as (session & Hsome & _); congruence.
Qed.

(** C8, as the code has it.  The call returns a result and never throws.
    When the [try] block throws, what it throws is an error object, and the
    call returns the fallback analysis for the product title with
    [cacheStatus: 'fresh'], with [rateLimited: true] exactly when
    [isRateLimitError] holds of the error; a validation failure is returned
    without that mark.  A result of the [try] block is returned as it
    is. *)
Theorem failures_become_fallbacks `{Host} product options env server :
  let tried := tryBlock options env (mkRun server product []) in
  let out := analyzeLLMDiscoverability product options env server in
  (∃ r, out.1 = inr r) ∧
  (∀ t, tried.1 = inl t →
        ∃ e, t = ThrowError e ∧
             out.1 = inr (mkResult (createFallbackAnalysis (Product.title product))
                                   (Some Fresh)
                                   (if isRateLimitError e then Some true else None))) ∧
  (∀ t, validateProductData product = inl t →
        tried.1 = inl t ∧
        out.1 = inr (mkResult (createFallbackAnalysis (Product.title product))
                              (Some Fresh) None)) ∧
  (∀ session,
     validateProductData product = inr tt →
     sessionOf options = Some session →
     (RateLimiter.isAllowed (nowQuota env)
        (RateLimiter.getRateLimitIdentifier session)
        (RateLimiter.openaiRateLimiter (limiters server))).1 = false →
     out.1 = inr (mkResult (createFallbackAnalysis (Product.title product))
                           (Some Fresh) (Some true))) ∧
  (∀ r, tried.1 = inr r → out.1 = inr r).
Proof.
  assert (∀ session,
     validateProductData product = inr tt →
     sessionOf options = Some session →
     (RateLimiter.isAllowed (nowQuota env)
        (RateLimiter.getRateLimitIdentifier session)
        (RateLimiter.openaiRateLimiter (limiters server))).1 = false →
     (analyzeLLMDiscoverability product options env server).1
     = inr (mkResult (createFallbackAnalysis (Product.title product))
                     (Some Fresh) (Some true))) as Hquota.
  { intros session Hvalid Hsession Hdenied.
    by rewrite (analyze_quota_denied _ _ _ _ _ Hvalid Hsession Hdenied). }
  pose proof (analyze_of_tryBlock product options env server) as Hcall.
  cbn zeta in *. destruct Hcall as [_ Hresult].
  assert (∀ t, validateProductData product = inl t →
               (tryBlock options env (mkRun server product [])).1 = inl t) as Hvalid.
  { intros t Ht. rewrite tryBlock_unfold. cbn [LlmAnalysis.product]. by rewrite Ht. }
  destruct (tryBlock options env (mkRun server product [])).1 as [t|r] eqn:Htried.
  - destruct Hresult as (e & -> & Hout). split_and!.
    + by eexists.
    + intros t [= <-]. by exists e.
    + intros t Ht. split; [by apply Hvalid|].
      specialize (Hvalid t Ht). injection Hvalid as <-.
      destruct (validateProductData_throws _ _ Ht) as (msg & [= ->] & Hno).
      rewrite Hout. unfold failureResult. by rewrite Hno.
    + done.
    + done.
  - split_and!.
    + by exists r.
    + done.
    + intros t Ht. by specialize (Hvalid t Ht).
    + done.
    + by intros r' [= <-].
Qed.

(** ** Further scenarios of the specification *)

(** A product whose title is the empty string is not analysed: the call
    returns the fallback, whose composite score is 0, without calling the
    upstream and without touching the server state. *)
Theorem empty_title_returns_fallback `{Host} product options env server :
  Product.title product = Js.VStr "" →
  let out := analyzeLLMDiscoverability product options env server in
  out.1 = inr (mkResult (createFallbackAnalysis (Js.VStr "")) (Some Fresh) None) ∧
  Scores.discoveryPotential
    (ProductAnalysis.scores (createFallbackAnalysis (Js.VStr ""))) = 0%float ∧
  out.2 = mkRun server product [] ∧
  upstreamCalls (events out.2) = 0%nat.
Proof.
  intros Htitle. unfold analyzeLLMDiscoverability. rewrite tryBlock_unfold.
  cbn [LlmAnalysis.product]. unfold validateProductData. rewrite Htitle. simpl.
  by rewrite Htitle.
Qed.

Lemma empty_title_returns_fallback_witness :
  let product :=
    {| Product.title := Js.VStr ""; Product.description := Js.VStr "test";
       Product.tags := Product.TagsArray []; Product.vendor := "test";
       Product.productType := "test"; Product.metafields := [];
       Product.reviewData := None |} in
  let out := @analyzeLLMDiscoverability Samples.sampleHost product None
               (Samples.envWith Samples.flakyUpstream) Samples.initialServer in
  out.1 = inr (mkResult (createFallbackAnalysis (Js.VStr "")) (Some Fresh) None) ∧
  Scores.discoveryPotential
    (ProductAnalysis.scores (createFallbackAnalysis (Js.VStr ""))) = 0%float ∧
  out.2 = mkRun Samples.initialServer product [] ∧
  upstreamCalls (events out.2) = 0%nat.
Proof.
  intros product.
  apply (@empty_title_returns_fallback Samples.sampleHost product None
           (Samples.envWith Samples.flakyUpstream) Samples.initialServer).
  reflexivity.
Defined.

(** The quota a request uses is not given back: once the limiter has been
    asked, the limiters after the call are those [isAllowed] left, whatever
    the call returns (a fresh or cached analysis, or a fallback after an
    upstream failure); the bulk limiter is never touched. *)
Theorem quota_is_not_refunded `{Host} product options env server session :
  validateProductData product = inr tt →
  sessionOf options = Some session →
  let out := analyzeLLMDiscoverability product options env server in
  limiters (LlmAnalysis.server out.2)
  = RateLimiter.mkLimiters
      (RateLimiter.isAllowed (nowQuota env)
         (RateLimiter.getRateLimitIdentifier session)
         (RateLimiter.openaiRateLimiter (limiters server))).2
      (RateLimiter.bulkAnalysisLimiter (limiters server)).
Proof.
  intros Hvalid Hsession. cbn zeta.
  destruct (analyze_of_tryBlock product options env server) as [-> _].
  rewrite tryBlock_unfold. cbn [LlmAnalysis.product]. rewrite Hvalid.
  rewrite (quotaStage_present _ _ _ _ Hsession). cbn zeta.
  cbn [LlmAnalysis.server LlmAnalysis.product events analysisCache limiters].
  destruct (RateLimiter.isAllowed _ _ _) as [[|] limiter]; cbn [fst snd]; [|done].
  match goal with
  | |- context [cacheStage env ?r] =>
      pose proof (cacheStage_spec env r) as Hstage;
      destruct (cacheStage env r) as [[t|r'] run2]
  end; simpl in Hstage |- *; by destruct Hstage as (-> & _).
Qed.

(** The shop's first request of a window, while the upstream never
    answers: the call falls back, and the window has count 1. *)
Lemma quota_is_not_refunded_witness :
  let out := @analyzeLLMDiscoverability Samples.sampleHost Samples.sampleProduct
               Samples.withSession (Samples.envWith Samples.silentUpstream)
               Samples.initialServer in
  limiters (LlmAnalysis.server out.2)
  = RateLimiter.mkLimiters
      (RateLimiter.isAllowed 1000 Samples.shop (RateLimiter.create 50 3600000)).2
      (RateLimiter.create 5 3600000).
Proof.
  apply (@quota_is_not_refunded Samples.sampleHost Samples.sampleProduct
           Samples.withSession (Samples.envWith Samples.silentUpstream)
           Samples.initialServer (RateLimiter.mkSession (Some Samples.shop)));
    reflexivity.
Defined.

(** The record [generateContentHash] leaves, and its digest once more. *)
Lemma generateContentHash_inr `{Host} q h after :
  generateContentHash q = inr (h, after) →
  ∃ items,
    Product.tags q = Product.TagsArray items ∧
    after = {| Product.title := Product.title q;
               Product.description := Product.description q;
               Product.tags := Product.TagsArray (sortBy compareStrings items);
               Product.vendor := Product.vendor q;
               Product.productType := Product.productType q;
               Product.metafields :=
                 sortBy (FingerprintSpec.byKey) (Product.metafields q);
               Product.reviewData := Product.reviewData q |}.
Proof.
  unfold generateContentHash.
  destruct (Product.tags q) as [items|v]; [|by destruct v].
  intros [= <- <-]. by exists items.
Qed.

Lemma generateContentHash_again `{Host} q h after :
  Consistent FingerprintSpec.byKey →
  generateContentHash q = inr (h, after) →
  generateContentHash after = inr (h, after).
Proof.
  intros Hcons. unfold generateContentHash.
  destruct (Product.tags q) as [items|v]; [|by destruct v].
  intros [= <- <-]. simpl. fold (@FingerprintSpec.byKey H).
  by rewrite !FingerprintFacts.sortBy_idempotent by exact _.
Qed.

Lemma validateProductData_tags product1 product2 items1 items2 :
  Product.title product2 = Product.title product1 →
  Product.description product2 = Product.description product1 →
  Product.tags product1 = Product.TagsArray items1 →
  Product.tags product2 = Product.TagsArray items2 →
  validateProductData product2 = validateProductData product1.
Proof.
  intros Htitle Hdescription Htags1 Htags2. unfold validateProductData.
  by rewrite Htitle, Hdescription, Htags1, Htags2.
Qed.

(** What a call without a session does when the hash of the product is in
    the cache and not expired. *)
Lemma analyze_cache_hit `{Host} product env server h after e :
  validateProductData product = inr tt →
  generateContentHash
    {| Product.title := Product.title product;
       Product.description := Product.description product;
       Product.tags := Product.tags product;
       Product.vendor := Product.vendor product;
       Product.productType := Product.productType product;
       Product.metafields := Product.metafields product;
       Product.reviewData := fetchedReviewData env |} = inr (h, after) →
  mapGet h (analysisCache server) = Some e →
  nowLookup env - timestamp e ≤ CACHE_EXPIRATION_MS →
  let out := analyzeLLMDiscoverability product None env server in
  out.1 = inr (mkResult (analysis e) (Some Cached) None) ∧ events out.2 = [].
Proof.
  intros Hvalid Hhash Hget Hage. unfold analyzeLLMDiscoverability.
  rewrite tryBlock_unfold. cbn [LlmAnalysis.product]. rewrite Hvalid.
  rewrite quotaStage_absent by done. rewrite cacheStage_unfold.
  unfold generateContentHashM. cbn [LlmAnalysis.product]. rewrite Hhash.
  cbn [ret LlmAnalysis.server LlmAnalysis.product events analysisCache].
  rewrite getCachedAnalysisM_spec.
  cbn [LlmAnalysis.server LlmAnalysis.product events analysisCache].
  by rewrite (CacheFacts.getCachedAnalysis_fresh _ _ _ _ Hget Hage).
Qed.

(** Scenario A of the specification.  A call without a session that
    returned a fresh analysis [a] (the upstream was called and its answer
    stored at [nowStore env1]); the same record is submitted again, as the
    same object (which the first call has sorted) or as an equal new one,
    with the same review data, at a lookup time at most 24 hours after the
    store.  The second call returns [a] with [cacheStatus: 'cached'] and
    calls nothing upstream. *)
Theorem repeated_call_is_served_from_cache `{Host} product env1 env2 server a run1 :
  Consistent FingerprintSpec.byKey →
  NoDup (keys (analysisCache server)) →
  (length (analysisCache server) ≤ 1000)%nat →
  (∀ kv, kv ∈ analysisCache server → timestamp kv.2 ≤ nowStore env1) →
  tryBlock None env1 (mkRun server product [])
  = (inr (mkResult a (Some Fresh) None), run1) →
  fetchedReviewData env2 = fetchedReviewData env1 →
  nowLookup env2 - nowStore env1 ≤ CACHE_EXPIRATION_MS →
  (let again := analyzeLLMDiscoverability (LlmAnalysis.product run1) None env2
                  (LlmAnalysis.server run1) in
   again.1 = inr (mkResult a (Some Cached) None) ∧ events again.2 = []) ∧
  (let again := analyzeLLMDiscoverability product None env2
                  (LlmAnalysis.server run1) in
   again.1 = inr (mkResult a (Some Cached) None) ∧ events again.2 = []).
Proof.
  intros Hcons Hnd Hlen Hts Hfirst Hreview Hage.
  rewrite tryBlock_unfold in Hfirst. cbn [LlmAnalysis.product] in Hfirst.
  destruct (validateProductData product) as [t|[]] eqn:Hvalid; [done|].
  rewrite quotaStage_absent in Hfirst by done.
  rewrite cacheStage_unfold in Hfirst.
  unfold generateContentHashM in Hfirst. cbn [LlmAnalysis.product] in Hfirst.
  match type of Hfirst with
  | context [generateContentHash ?q] =>
      destruct (generateContentHash q) as [t|[h after]] eqn:Hhash
  end; [done|].
  cbn [ret LlmAnalysis.server LlmAnalysis.product events analysisCache] in Hfirst.
  rewrite getCachedAnalysisM_spec in Hfirst.
  cbn [LlmAnalysis.server LlmAnalysis.product events analysisCache limiters snd]
    in Hfirst.
  destruct (getCachedAnalysis (nowLookup env1) h (analysisCache server)).1
    as [cached|] eqn:Hmiss; [done|].
  match type of Hfirst with
  | upstreamStage env1 ?rd h ?r = _ =>
      pose proof (upstreamStage_spec env1 rd h r) as Hup
  end.
  rewrite Hfirst in Hup. cbn [fst snd] in Hup.
  destruct Hup as (Hproduct & _ & _ & a' & parsed & [= <-] & _ & Hcache).
  cbn [LlmAnalysis.server LlmAnalysis.product analysisCache] in Hproduct, Hcache.
  (* the entry is in the cache the first call leaves *)
  assert (mapGet h (analysisCache (LlmAnalysis.server run1))
          = Some (mkCacheEntry a (nowStore env1) h)) as Hstored.
  { rewrite Hcache.
    destruct (CacheFacts.getCachedAnalysis_cache (nowLookup env1) h (analysisCache server))
      as [-> | ->].
    - by apply CacheFacts.setCachedAnalysis_present.
    - apply CacheFacts.setCachedAnalysis_present.
      + by apply mapDelete_NoDup.
      + rewrite mapDelete_length. case_decide; lia.
      + intros kv Hkv. by apply Hts, (elem_of_mapDelete h). }
  destruct (generateContentHash_inr _ _ _ Hhash) as (items & Htags & Hafter).
  cbn [Product.tags Product.title Product.description Product.vendor
       Product.productType Product.metafields Product.reviewData] in Htags, Hafter.
  split.
  - apply (analyze_cache_hit _ _ _ h after (mkCacheEntry a (nowStore env1) h));
      [| |done|done].
    + rewrite <-Hvalid. rewrite Hproduct.
      eapply validateProductData_tags; [done|done|exact Htags|].
      rewrite Hafter. reflexivity.
    + rewrite Hreview, Hproduct. cbn [Product.title Product.description Product.tags
        Product.vendor Product.productType Product.metafields].
      rewrite <-(generateContentHash_again _ _ _ Hcons Hhash) at 1.
      f_equal. rewrite Hafter. reflexivity.
  - apply (analyze_cache_hit _ _ _ h after (mkCacheEntry a (nowStore env1) h));
      [done| |done|done].
    by rewrite Hreview.
Qed.

End OrchestratorFacts.

(* ===================================================================== *)
(** * Scenarios *)
(* ===================================================================== *)

Module Scenarios.
Import ErrorHandler LlmAnalysis RetrySpec OrchestratorSpec RetryFacts OrchestratorFacts Samples.


(** A first call on the initial server: a fresh analysis with composite
    score 60 for the sub-scores 80, 70, 60, 50, 17. *)
Lemma composite_score_invariant_witness :
  ∃ r, (@analyzeLLMDiscoverability Samples.sampleHost Samples.sampleProduct None
          (envWith flakyUpstream) initialServer).1 = inr r
       ∧ Scores.composite_ok (ProductAnalysis.scores (analysisOf r))
       ∧ Scores.discoveryPotential (ProductAnalysis.scores (analysisOf r)) = 60%float.
Proof.
  destruct (proj1 (proj2 (proj2 (proj2 (@composite_score_invariant Samples.sampleHost))))
              Samples.sampleProduct None (envWith flakyUpstream) initialServer
              (@reachable_initial Samples.sampleHost 50 5))
    as (r & Hr & Hok).
  exists r. split; [exact Hr|]. split; [exact Hok|].
  vm_compute in Hr. injection Hr as <-. reflexivity.
Defined.

(** The shop that has used its 50 requests asks again inside the window. *)
Lemma quota_denied_returns_rate_limited_fallback_witness :
  let out := @analyzeLLMDiscoverability Samples.sampleHost Samples.sampleProduct
               withSession (envWith flakyUpstream) exhaustedServer in
  out.1 = inr (mkResult (createFallbackAnalysis (Js.VStr "Test Snowboard"))
                        (Some Fresh) (Some true)) ∧
  (∃ analysis,
     out.1 = inr (mkResult analysis (Some Fresh) (Some true)) ∧
     structurallyComplete (Js.VStr "Test Snowboard") analysis) ∧
  events out.2 = [] ∧
  upstreamCalls (events out.2) = 0%nat ∧
  LlmAnalysis.server out.2 = exhaustedServer ∧
  LlmAnalysis.product out.2 = Samples.sampleProduct.
Proof.
  apply (@quota_denied_returns_rate_limited_fallback Samples.sampleHost
           Samples.sampleProduct withSession (envWith flakyUpstream) exhaustedServer
           (RateLimiter.mkSession (Some shop)));
    [reflexivity|reflexivity|].
  vm_compute. reflexivity.
Defined.

(** A call without a session, on the server where the shop has no quota
    left, while the upstream answers 429: the limiters are not touched, the
    result is marked, and the mark comes from the upstream. *)
Lemma no_session_no_local_quota_witness :
  let out := @analyzeLLMDiscoverability Samples.plainHost Samples.sampleProduct
               None (envWith throttledUpstream) exhaustedServer in
  limiters (LlmAnalysis.server out.2) = limiters exhaustedServer ∧
  (∃ r, out.1 = inr r ∧ rateLimited r = Some true) ∧
  upstreamRateLimited (envWith throttledUpstream).
Proof.
  pose proof (@no_session_no_local_quota Samples.plainHost Samples.sampleProduct None
                (envWith throttledUpstream) exhaustedServer eq_refl)
    as (_ & Hlimiters & r & Hr & _ & Hupstream).
  assert (rateLimited r = Some true) as Hmarked.
  { assert ((@analyzeLLMDiscoverability Samples.plainHost Samples.sampleProduct
               None (envWith throttledUpstream) exhaustedServer).1
            = inr (failureResult (Js.VStr "Test Snowboard") true)) as Hout
        by (vm_compute; reflexivity).
    rewrite Hout in Hr. by injection Hr as <-. }
  split_and!; [done|by exists r|].
  apply Hupstream; [|done].
  intros content msg. unfold JSON_parse, Samples.plainHost.
  destruct (String.eqb content "null"); [done|].
  destruct (String.eqb content "{}"); [done|].
  by intros [= <-].
Defined.

(** Against C10 as the claim states it: without a session, on a host whose
    [JSON.parse] quotes the rejected text in its message, an upstream
    answer that is the prose "rate limit exceeded, please retry later" is
    returned as [rateLimited: true], although the one upstream call
    succeeded and no upstream attempt failed with a rate-limit error. *)
Lemma rate_limited_without_upstream_rate_limit :
  let env := envWith proseUpstream in
  let out := @analyzeLLMDiscoverability Samples.sampleHost Samples.sampleProduct
               None env initialServer in
  out.1 = inr (failureResult (Js.VStr "Test Snowboard") true) ∧
  (∃ r, out.1 = inr r ∧ rateLimited r = Some true) ∧
  events out.2 = [EvUpstreamCall 1] ∧
  limiters (LlmAnalysis.server out.2) = limiters initialServer ∧
  ¬ upstreamRateLimited env.
Proof.
  cbn zeta.
  assert ((@analyzeLLMDiscoverability Samples.sampleHost Samples.sampleProduct
             None (envWith proseUpstream) initialServer).1
          = inr (failureResult (Js.VStr "Test Snowboard") true)) as Hout
      by (vm_compute; reflexivity).
  split_and!.
  - exact Hout.
  - eexists. split; [exact Hout|reflexivity].
  - vm_compute. reflexivity.
  - vm_compute. reflexivity.
  - intros (attempt & error & _ & Hrace & _). done.
Qed.

(** The ill-typed product of the repository's test. *)
Lemma failures_become_fallbacks_witness :
  let tried := @tryBlock Samples.sampleHost None (envWith flakyUpstream)
                 (mkRun initialServer illTypedProduct []) in
  let out := @analyzeLLMDiscoverability Samples.sampleHost illTypedProduct None
               (envWith flakyUpstream) initialServer in
  tried.1 = throw (ValidationError "Product description must be a string") ∧
  out.1 = inr (mkResult (createFallbackAnalysis (Js.VStr "Test")) (Some Fresh) None).
Proof.
  apply (proj1 (proj2 (proj2 (@failures_become_fallbacks Samples.sampleHost
                                illTypedProduct None (envWith flakyUpstream)
                                initialServer)))).
  reflexivity.
Defined.

(** The product of the repository's test, analysed on the initial server
    and submitted again ten minutes later while the upstream is silent. *)
Lemma repeated_call_is_served_from_cache_witness :
  let first := @tryBlock Samples.sampleHost None (envWith flakyUpstream)
                 (mkRun initialServer Samples.sampleProduct []) in
  ∃ a,
    first.1 = inr (mkResult a (Some Fresh) None) ∧
    (let again := @analyzeLLMDiscoverability Samples.sampleHost
                    (LlmAnalysis.product first.2) None laterEnv
                    (LlmAnalysis.server first.2) in
     again.1 = inr (mkResult a (Some Cached) None) ∧ events again.2 = []) ∧
    (let again := @analyzeLLMDiscoverability Samples.sampleHost
                    Samples.sampleProduct None laterEnv
                    (LlmAnalysis.server first.2) in
     again.1 = inr (mkResult a (Some Cached) None) ∧ events again.2 = []).
Proof.
  intros first.
  set (a := match first.1 with
            | inr r => analysisOf r
            | inl _ => createFallbackAnalysis Js.VUndefined
            end).
  assert (@tryBlock Samples.sampleHost None (envWith flakyUpstream)
            (mkRun initialServer Samples.sampleProduct [])
          = (inr (mkResult a (Some Fresh) None), first.2)) as Hfirst
      by (vm_compute; reflexivity).
  assert (first.1 = inr (mkResult a (Some Fresh) None)) as Hresult
      by (vm_compute; reflexivity).
  clearbody a. clearbody first.
  exists a. split; [exact Hresult|].
  apply (@repeated_call_is_served_from_cache Samples.sampleHost
           Samples.sampleProduct (envWith flakyUpstream) laterEnv initialServer
           a first.2).
  - split; unfold FingerprintSpec.byKey; simpl; intros.
    + apply (@consistent_total _ _ BuiltinsFacts.compareStrings_consistent).
    + by eapply (@consistent_trans _ _ BuiltinsFacts.compareStrings_consistent).
  - apply NoDup_nil_2.
  - simpl. lia.
  - intros kv Hkv. by apply elem_of_nil in Hkv.
  - exact Hfirst.
  - reflexivity.
  - vm_compute. discriminate.
Defined.

(** C8, as the claim states it, fails.  The ill-typed product of the
    repository's test fails validation; a well-typed product with the same
    title, analysed while the upstream never answers, fails with the
    timeout error after three attempts.  The two calls return the same
    value: nothing in it tells the validation failure from the timeout. *)
Lemma validation_failure_returns_what_a_timeout_returns :
  validateProductData illTypedProduct
  = throw (ValidationError "Product description must be a string") ∧
  validateProductData wellTypedProduct = ret tt ∧
  (@tryBlock Samples.sampleHost None (envWith silentUpstream)
     (mkRun initialServer wellTypedProduct [])).1
  = throw (OpenAIError "Request timeout") ∧
  (@analyzeLLMDiscoverability Samples.sampleHost illTypedProduct None
     (envWith silentUpstream) initialServer).1
  = inr (mkResult (createFallbackAnalysis (Js.VStr "Test")) (Some Fresh) None) ∧
  (@analyzeLLMDiscoverability Samples.sampleHost wellTypedProduct None
     (envWith silentUpstream) initialServer).1
  = inr (mkResult (createFallbackAnalysis (Js.VStr "Test")) (Some Fresh) None).
Proof.
  split_and!; vm_compute; reflexivity.
Qed.

End Scenarios.

(* ===================================================================== *)
(** * Properties of the further parts *)
(* ===================================================================== *)

Module RateLimiterRuns.
Import RateLimiter RateLimiterFacts.

(** Requests into a live window that holds [c] requests. *)
Lemma requests_live times identifier rl c r :
  limits rl !! identifier = Some (mkEntry c r) →
  Forall (λ now, now < r) times →
  let admitted := Nat.min (length times) (Z.to_nat (maxRequests rl - c)) in
  (requests times identifier rl).1
  = replicate admitted true ++ replicate (length times - admitted) false ∧
  limits (requests times identifier rl).2 !! identifier
  = Some (mkEntry (c + Z.of_nat admitted) r) ∧
  maxRequests (requests times identifier rl).2 = maxRequests rl.
Proof.
  revert rl c. induction times as [|now rest IH]; intros rl c Hlookup Hlive.
  - simpl. rewrite Hlookup. repeat split. f_equal. f_equal. lia.
  - apply Forall_cons in Hlive as [Hnow Hrest]. cbn [requests].
    destruct (Z.lt_ge_cases c (maxRequests rl)) as [Hroom|Hfull].
    + rewrite (isAllowed_count now identifier rl c r Hlookup Hnow Hroom).
      specialize (IH (with_limits rl (<[identifier := mkEntry (c + 1) r]> (limits rl)))
                     (c + 1)).
      cbn [limits maxRequests with_limits] in IH.
      rewrite lookup_insert_eq in IH. specialize (IH eq_refl Hrest).
      destruct (requests rest identifier _) as [oks rl2].
      cbn [fst snd] in *. destruct IH as (Hoks & Hstate & Hmax).
      replace (Z.to_nat (maxRequests rl - c))
        with (S (Z.to_nat (maxRequests rl - (c + 1)))) by lia.
      cbn [length Nat.min replicate app].
      rewrite Hoks, Hstate, Hmax. repeat split.
      f_equal. f_equal. lia.
    + rewrite (isAllowed_full now identifier rl c r Hlookup Hnow Hfull).
      specialize (IH rl c Hlookup Hrest).
      destruct (requests rest identifier rl) as [oks rl2].
      cbn [fst snd] in *. destruct IH as (Hoks & Hstate & Hmax).
      replace (Z.to_nat (maxRequests rl - c)) with 0%nat in * by lia.
      rewrite Nat.min_0_r in *. cbn [replicate app] in *.
      rewrite Nat.sub_0_r in *. cbn [length replicate].
      by rewrite Hoks, Hstate, Hmax.
Qed.

(** X5.  The quota of one window, for every whole number as the limit and
    every number of requests.  A tenant with no live window asks at [now];
    the requests that follow are made while that window is live.  The first
    request is allowed whatever whole number [maxRequests] is (also 0 or a
    negative one); of the requests that follow, the first
    [maxRequests - 1] are allowed and all the others are denied.  The
    window then holds the number of allowed requests. *)
Theorem window_admits_max_requests now times identifier rl :
  liveWindow now identifier rl = None →
  Forall (λ later, later < now + windowMs rl) times →
  let admitted := Nat.min (length times) (Z.to_nat (maxRequests rl - 1)) in
  (requests (now :: times) identifier rl).1
  = true :: replicate admitted true ++ replicate (length times - admitted) false ∧
  limits (requests (now :: times) identifier rl).2 !! identifier
  = Some (mkEntry (1 + Z.of_nat admitted) (now + windowMs rl)).
Proof.
  intros Hnew Hlive. cbn [requests].
  rewrite (isAllowed_new_window _ _ _ Hnew).
  pose proof (requests_live times identifier
                (with_limits rl (<[identifier := mkEntry 1 (now + windowMs rl)]> (limits rl)))
                1 (now + windowMs rl)) as Hrun.
  cbn [limits maxRequests with_limits] in Hrun.
  rewrite lookup_insert_eq in Hrun. specialize (Hrun eq_refl Hlive).
  destruct (requests times identifier _) as [oks rl2].
  cbn [fst snd] in *. destruct Hrun as (Hoks & Hstate & _).
  by rewrite Hoks, Hstate.
Qed.

(** The default OpenAI limiter (50 an hour): 60 requests within a minute. *)
Lemma window_admits_max_requests_witness :
  let times := List.map (λ i, 1000 + 1000 * Z.of_nat i) (seq 1 59) in
  (requests (1000 :: times) "shop" (create 50 3600000)).1
  = true :: replicate 49 true ++ replicate 10 false ∧
  limits (requests (1000 :: times) "shop" (create 50 3600000)).2 !! "shop"%string
  = Some (mkEntry 50 3601000).
Proof.
  intros times.
  apply (window_admits_max_requests 1000 times "shop" (create 50 3600000)).
  - reflexivity.
  - subst times. cbn [seq List.map]. repeat (constructor; [simpl; lia|]). constructor.
Defined.

(** What [isAllowed] leaves for the two getters: the window that the
    request fell into, and what they answer before and after its end. *)
Lemma isAllowed_then_getters now later test again identifier rl :
  1 ≤ maxRequests rl → 0 < windowMs rl →
  let ok := (isAllowed now identifier rl).1 in
  let rl' := (isAllowed now identifier rl).2 in
  ∃ window,
    limits rl' !! identifier = Some window ∧
    now < resetTime window ∧
    (ok = false → rl' = rl) ∧
    (later < resetTime window →
       if ok
       then getRemainingRequests later identifier rl'
            = getRemainingRequests now identifier rl - 1
       else getRemainingRequests later identifier rl' = 0
            ∧ getRemainingRequests now identifier rl = 0) ∧
    (resetTime window ≤ later →
       getRemainingRequests later identifier rl' = maxRequests rl) ∧
    (test < resetTime window →
       getResetTime test again identifier rl' = resetTime window) ∧
    (resetTime window ≤ test → getResetTime test again identifier rl' = again).
Proof.
  intros Hmax Hwindow. unfold isAllowed, getResetTime, getRemainingRequests.
  assert (∀ count reset,
            now < reset →
            let rl' := with_limits rl (<[identifier := mkEntry count reset]> (limits rl)) in
            limits rl' !! identifier = Some (mkEntry count reset) ∧
            (later < reset →
               match limits rl' !! identifier with
               | Some entry =>
                   if later >=? resetTime entry then maxRequests rl'
                   else Z.max 0 (maxRequests rl' - RateLimiter.count entry)
               | None => maxRequests rl'
               end = Z.max 0 (maxRequests rl - count)) ∧
            (reset ≤ later →
               match limits rl' !! identifier with
               | Some entry =>
                   if later >=? resetTime entry then maxRequests rl'
                   else Z.max 0 (maxRequests rl' - RateLimiter.count entry)
               | None => maxRequests rl'
               end = maxRequests rl) ∧
            (test < reset →
               match limits rl' !! identifier with
               | Some entry => if test >=? resetTime entry then again else resetTime entry
               | None => test
               end = reset) ∧
            (reset ≤ test →
               match limits rl' !! identifier with
               | Some entry => if test >=? resetTime entry then again else resetTime entry
               | None => test
               end = again)) as Hfresh.
  { intros count reset Hreset. cbn zeta. cbn [limits with_limits maxRequests].
    rewrite lookup_insert_eq. cbn [resetTime RateLimiter.count].
    split_and!; [done|..]; intros Hcmp.
    - by destruct (Z.geb_spec later reset); [lia|].
    - by destruct (Z.geb_spec later reset); [|lia].
    - by destruct (Z.geb_spec test reset); [lia|].
    - by destruct (Z.geb_spec test reset); [|lia]. }
  destruct (limits rl !! identifier) as [entry|] eqn:Hlookup.
  - destruct (Z.geb_spec now (resetTime entry)) as [Hexpired|Hlive].
    + cbn [fst snd].
      destruct (Hfresh 1 (now + windowMs rl) ltac:(lia)) as (H1 & H2 & H3 & H4 & H5).
      exists (mkEntry 1 (now + windowMs rl)). cbn [resetTime].
      split_and!; [done|lia|done| |done..].
      intros Hlater. rewrite (H2 Hlater). lia.
    + destruct (Z.geb_spec (count entry) (maxRequests rl)) as [Hfull|Hroom].
      * cbn [fst snd]. rewrite Hlookup. exists entry.
        split_and!; [done|lia|done|..]; intros Hcmp.
        -- destruct (Z.geb_spec later (resetTime entry)); [lia|]. lia.
        -- by destruct (Z.geb_spec later (resetTime entry)); [|lia].
        -- by destruct (Z.geb_spec test (resetTime entry)); [lia|].
        -- by destruct (Z.geb_spec test (resetTime entry)); [|lia].
      * cbn [fst snd].
        destruct (Hfresh (count entry + 1) (resetTime entry) ltac:(lia))
          as (H1 & H2 & H3 & H4 & H5).
        exists (mkEntry (count entry + 1) (resetTime entry)). cbn [resetTime].
        split_and!; [done|lia|done| |done..].
        intros Hlater. rewrite (H2 Hlater). lia.
  - cbn [fst snd].
    destruct (Hfresh 1 (now + windowMs rl) ltac:(lia)) as (H1 & H2 & H3 & H4 & H5).
    exists (mkEntry 1 (now + windowMs rl)). cbn [resetTime].
    split_and!; [done|lia|done| |done..].
    intros Hlater. rewrite (H2 Hlater). lia.
Qed.

(** X6.  What [checkRateLimit] reports, for a limiter with a limit of at
    least 1 and a positive window.  [isAllowed] leaves a window for the
    tenant that is live when it reads the clock; the two getters read the
    clock again.  While that window is live, the report counts the request
    just made: when the request is allowed, [remaining] is one less than
    what [getRemainingRequests] answered before the call, and when it is
    denied, [remaining] is 0, as it was before; [resetTime] is the end of
    the window.  When the clock has reached the end of the window by the
    time a getter reads it, that getter answers as for a tenant without a
    window: [remaining] is [maxRequests], also for a denied request, and
    [resetTime] is the clock value read last.  A denied request leaves the
    limiters as they were, and the limiter of the other type is not
    touched. *)
Theorem checkRateLimit_report clock identifier type ls :
  let limiter := match type with
                 | Bulk => bulkAnalysisLimiter ls
                 | OpenAI => openaiRateLimiter ls
                 end in
  1 ≤ maxRequests limiter → 0 < windowMs limiter →
  let report := (checkRateLimit clock identifier type ls).1 in
  let after := (checkRateLimit clock identifier type ls).2 in
  match type with
  | Bulk => openaiRateLimiter after = openaiRateLimiter ls
  | OpenAI => bulkAnalysisLimiter after = bulkAnalysisLimiter ls
  end ∧
  allowed report = (isAllowed (atRequest clock) identifier limiter).1 ∧
  (allowed report = false → after = ls) ∧
  ∃ window,
    limits match type with
           | Bulk => bulkAnalysisLimiter after
           | OpenAI => openaiRateLimiter after
           end !! identifier = Some window ∧
    atRequest clock < resetTime window ∧
    (atRemaining clock < resetTime window →
       if allowed report
       then remaining report
            = getRemainingRequests (atRequest clock) identifier limiter - 1
       else remaining report = 0
            ∧ getRemainingRequests (atRequest clock) identifier limiter = 0) ∧
    (resetTime window ≤ atRemaining clock → remaining report = maxRequests limiter) ∧
    (atReset clock < resetTime window → resetAt report = resetTime window) ∧
    (resetTime window ≤ atReset clock → resetAt report = atResetAgain clock).
Proof.
  intros limiter Hmax Hwindow.
  pose proof (isAllowed_then_getters (atRequest clock) (atRemaining clock)
                (atReset clock) (atResetAgain clock) identifier limiter Hmax Hwindow)
    as (window & Hlookup & Hlive & Hdenied & Hremaining & Hfull & Hreset & Hagain).
  subst limiter. unfold checkRateLimit. destruct type.
  - destruct (isAllowed (atRequest clock) identifier (openaiRateLimiter ls))
      as [ok rl'] eqn:Hcall.
    cbn [fst snd allowed remaining resetAt openaiRateLimiter bulkAnalysisLimiter] in *.
    split_and!; [done..| |].
    + intros ->. rewrite (Hdenied eq_refl). by destruct ls.
    + exists window. by split_and!.
  - destruct (isAllowed (atRequest clock) identifier (bulkAnalysisLimiter ls))
      as [ok rl'] eqn:Hcall.
    cbn [fst snd allowed remaining resetAt openaiRateLimiter bulkAnalysisLimiter] in *.
    split_and!; [done..| |].
    + intros ->. rewrite (Hdenied eq_refl). by destruct ls.
    + exists window. by split_and!.
Qed.

(** The first request of a shop on the limiters as the module creates
    them, the clock advancing by a millisecond from read to read: 49 of 50
    requests remain. *)
Lemma checkRateLimit_report_witness :
  let report :=
    (checkRateLimit (mkReadings 1000 1001 1002 1003) "shop" OpenAI
                    (initialLimiters 50 5)).1 in
  allowed report = true ∧ remaining report = 49 ∧ resetAt report = 3601000.
Proof.
  pose proof (checkRateLimit_report (mkReadings 1000 1001 1002 1003) "shop" OpenAI
                (initialLimiters 50 5))
    as Hreport.
  cbn zeta in Hreport.
  specialize (Hreport ltac:(simpl; lia) ltac:(simpl; lia)).
  destruct Hreport as (_ & Hallowed & _ & window & Hwindow & _ & Hremaining & _).
  split; [reflexivity|]. split; [|reflexivity].
  assert (window = mkEntry 1 3601000) as ->.
  { vm_compute in Hwindow. by injection Hwindow as <-. }
  specialize (Hremaining ltac:(simpl; lia)). rewrite Hallowed in Hremaining.
  exact Hremaining.
Defined.

(** A request that is denied a moment before its window ends, reported
    when the window has ended: the full quota is reported as remaining. *)
Example checkRateLimit_reports_across_the_reset :
  let ls := mkLimiters (mk {[ "shop"%string := mkEntry 50 2000 ]} 50 3600000)
                       (create 5 3600000) in
  let report := (checkRateLimit (mkReadings 1999 2000 2000 2001) "shop" OpenAI ls).1 in
  allowed report = false ∧ remaining report = 50 ∧ resetAt report = 2001.
Proof. vm_compute. done. Qed.

End RateLimiterRuns.

Module OrchestratorEdges.
Import Builtins BuiltinsFacts ErrorHandler LlmAnalysis OrchestratorSpec OrchestratorFacts.

(** The hash of a record whose [tags] is not an array. *)
Lemma generateContentHashM_not_an_array `{Host} reviewData run v :
  Product.tags (product run) = Product.TagsOther v →
  ∃ e, generateContentHashM reviewData run = (throw e, run)
       ∧ isRateLimitError e = false.
Proof.
  intros Htags. unfold generateContentHashM, generateContentHash.
  cbn [Product.tags]. rewrite Htags.
  destruct v; eexists; (split; [reflexivity|reflexivity]).
Qed.

(** X7.  [validateProductData] lets a product through whose [tags] is
    missing or another falsy value; [generateContentHash] then throws on
    [product.tags.sort].  For every product that passes validation and
    whose [tags] is not an array the call returns the fallback for its
    title, makes no upstream call and leaves the cache and the product as
    they were; the result is marked [rateLimited] exactly when a session
    was given and the limiter denied the request. *)
Theorem tags_not_an_array_returns_fallback `{Host} product options env server v :
  validateProductData product = inr tt →
  Product.tags product = Product.TagsOther v →
  let out := analyzeLLMDiscoverability product options env server in
  let denied :=
    match sessionOf options with
    | Some session =>
        negb (RateLimiter.isAllowed (nowQuota env)
                (RateLimiter.getRateLimitIdentifier session)
                (RateLimiter.openaiRateLimiter (limiters server))).1
    | None => false
    end in
  Js.truthy v = false ∧
  out.1 = inr (failureResult (Product.title product) denied) ∧
  events out.2 = [] ∧
  analysisCache (LlmAnalysis.server out.2) = analysisCache server ∧
  LlmAnalysis.product out.2 = product.
Proof.
  intros Hvalid Htags. cbn zeta. split.
  { revert Hvalid. unfold validateProductData. rewrite Htags.
    repeat (match goal with |- context [if ?b then _ else _] => destruct b eqn:? end);
      done. }
  unfold analyzeLLMDiscoverability. rewrite tryBlock_unfold.
  cbn [LlmAnalysis.product]. rewrite Hvalid.
  destruct (sessionOf options) as [session|] eqn:Hsession.
  - rewrite (quotaStage_present _ _ _ _ Hsession). cbn zeta.
    cbn [LlmAnalysis.server LlmAnalysis.product events limiters analysisCache].
    destruct (RateLimiter.isAllowed _ _ _) as [ok limiter]. cbn [fst snd].
    destruct ok; cbn [negb]; [|done].
    rewrite cacheStage_unfold.
    edestruct (generateContentHashM_not_an_array (fetchedReviewData env)) as (e & -> & He);
      [exact Htags|].
    cbn [catchBlock throw]. rewrite He. done.
  - rewrite quotaStage_absent by done. rewrite cacheStage_unfold.
    edestruct (generateContentHashM_not_an_array (fetchedReviewData env)) as (e & -> & He);
      [exact Htags|].
    cbn [catchBlock throw]. rewrite He. done.
Qed.

(** A product without [tags], analysed for a shop that has quota left. *)
Lemma tags_not_an_array_returns_fallback_witness :
  let product :=
    {| Product.title := Js.VStr "Test"; Product.description := Js.VStr "";
       Product.tags := Product.TagsOther Js.VUndefined;
       Product.vendor := "test"; Product.productType := "test";
       Product.metafields := []; Product.reviewData := None |} in
  let out := @analyzeLLMDiscoverability Samples.sampleHost product Samples.withSession
               (Samples.envWith Samples.flakyUpstream) Samples.initialServer in
  out.1 = inr (failureResult (Js.VStr "Test") false) ∧ events out.2 = [].
Proof.
  intros product.
  pose proof (@tags_not_an_array_returns_fallback Samples.sampleHost product
                Samples.withSession (Samples.envWith Samples.flakyUpstream)
                Samples.initialServer Js.VUndefined eq_refl eq_refl)
    as (_ & Hout & Hevents & _).
  split; [exact Hout|exact Hevents].
Defined.

End OrchestratorEdges.

Module RetryTraceFacts.
Import ErrorHandler LlmAnalysis RetrySpec RetryTrace.

Lemma attemptsFrom_calls attempt more :
  upstreamCalls (attemptsFrom attempt more) = S more.
Proof.
  unfold upstreamCalls. revert attempt.
  induction more as [|more IH]; intros attempt; simpl; [done|]. by rewrite IH.
Qed.

Lemma attemptsFrom_delays attempt more :
  delays (attemptsFrom attempt more) = List.map backoff (seq attempt more).
Proof.
  unfold delays. revert attempt.
  induction more as [|more IH]; intros attempt; simpl; [done|]. by rewrite IH.
Qed.

Lemma retryLoop_trace upstream maxRetries left attempt lastError :
  (attempt + left = S maxRetries)%nat → (1 ≤ left)%nat →
  ∃ more,
    (attempt + more ≤ maxRetries)%nat ∧
    (∀ j, (attempt ≤ j < attempt + more)%nat → failsRetryably (race (upstream j))) ∧
    retryLoop upstream maxRetries left attempt lastError
    = (lastAttempt (race (upstream (attempt + more)%nat)), attemptsFrom attempt more) ∧
    ((attempt + more < maxRetries)%nat →
     ¬ failsRetryably (race (upstream (attempt + more)%nat))).
Proof.
  revert attempt lastError.
  induction left as [|left IH]; intros attempt lastError Hsum Hleft; [lia|].
  cbn [retryLoop].
  destruct (race (upstream attempt)) as [[error|]|response] eqn:Hrace.
  - destruct (isClientStatus error) eqn:Hclient.
    + exists 0%nat. rewrite Nat.add_0_r, Hrace. cbn [lastAttempt attemptsFrom].
      rewrite Hclient. split_and!; [lia|intros; lia|done|].
      intros _ (e & [= <-] & Hretry). unfold retryable in Hretry.
      by rewrite Hclient in Hretry.
    + destruct (Nat.ltb_spec attempt maxRetries) as [Hmore|Hlast]; cbn [andb].
      * destruct (isRateLimitError error || isNetworkError error) eqn:Hkind.
        -- destruct (IH (S attempt) (ThrowError error)) as (more & Hle & Hbefore & Hrun & Hend);
             [lia|lia|].
           rewrite Hrun. exists (S more).
           replace (attempt + S more)%nat with (S attempt + more)%nat by lia.
           split_and!; [lia| |done|done].
           intros j Hj. destruct (decide (j = attempt)) as [->|Hne].
           ++ exists error. split; [done|]. unfold retryable.
              by rewrite Hclient, Hkind.
           ++ apply Hbefore. lia.
        -- exists 0%nat. rewrite Nat.add_0_r, Hrace. cbn [lastAttempt attemptsFrom].
           rewrite Hclient. split_and!; [lia|intros; lia|done|].
           intros _ (e & [= <-] & Hretry). unfold retryable in Hretry.
           by rewrite Hkind, andb_false_r in Hretry.
      * exists 0%nat. rewrite Nat.add_0_r, Hrace. cbn [lastAttempt attemptsFrom].
        rewrite Hclient. split_and!; [lia|intros; lia|done|lia].
  - exists 0%nat. rewrite Nat.add_0_r, Hrace. cbn [lastAttempt attemptsFrom].
    split_and!; [lia|intros; lia|done|]. by intros _ (e & [=] & _).
  - exists 0%nat. rewrite Nat.add_0_r, Hrace. cbn [lastAttempt attemptsFrom].
    split_and!; [lia|intros; lia|done|]. by intros _ (e & [=] & _).
Qed.

(** X8.  The course of [callOpenAIWithRetry] for every [maxRetries >= 1].
    The loop ends with some attempt [k <= maxRetries]: the attempts before
    [k] failed with a retryable error, each followed by a sleep of
    [2^attempt] seconds; attempt [k] is the first that does not fail
    retryably, or it is the last one allowed.  The calls made are [k], the
    sleeps are those of the attempts [1 .. k-1], and the outcome is what
    attempt [k] gives: its response, or an [OpenAIError] with "API Error
    (status)" for the statuses 400, 401 and 403 and with the message of the
    error otherwise.  An error that is neither a rate-limit nor a network
    error (an HTTP 500, say) is not retried. *)
Theorem callOpenAIWithRetry_course upstream maxRetries :
  (1 ≤ maxRetries)%nat →
  ∃ k, (1 ≤ k ≤ maxRetries)%nat ∧
       (∀ j, (1 ≤ j < k)%nat → failsRetryably (race (upstream j))) ∧
       ((k < maxRetries)%nat → ¬ failsRetryably (race (upstream k))) ∧
       callOpenAIWithRetry upstream maxRetries
       = (lastAttempt (race (upstream k)), attemptsFrom 1 (k - 1)) ∧
       upstreamCalls (callOpenAIWithRetry upstream maxRetries).2 = k ∧
       delays (callOpenAIWithRetry upstream maxRetries).2
       = List.map backoff (seq 1 (k - 1)).
Proof.
  intros Hpos. unfold callOpenAIWithRetry.
  destruct (retryLoop_trace upstream maxRetries maxRetries 1 ThrowUndefined)
    as (more & Hle & Hbefore & Hrun & Hend); [lia|lia|].
  exists (S more). replace (S more - 1)%nat with more by lia.
  change (1 + more)%nat with (S more) in *.
  rewrite Hrun. cbn [fst snd].
  split_and!; [lia|lia| | |done| |].
  - intros j Hj. apply Hbefore. lia.
  - done.
  - apply attemptsFrom_calls.
  - apply attemptsFrom_delays.
Qed.

(** Five attempts allowed; the upstream answers HTTP 500 on the second
    attempt, after a timeout of the first: the loop stops there. *)
Lemma callOpenAIWithRetry_course_witness :
  let serverError :=
    {| name := "InternalServerError"; message := Some "500 status code (no body)";
       status := Some 500; statusCode := None; code := None |} in
  let upstream (attempt : nat) :=
    match attempt with
    | 1%nat => ApiPending
    | _ => ApiRejects 80 (ThrowError serverError)
    end in
  ∃ k, (1 ≤ k ≤ 5)%nat ∧
       callOpenAIWithRetry upstream 5
       = (lastAttempt (race (upstream k)), attemptsFrom 1 (k - 1)) ∧
       upstreamCalls (callOpenAIWithRetry upstream 5).2 = k.
Proof.
  intros serverError upstream.
  destruct (callOpenAIWithRetry_course upstream 5) as (k & Hk & _ & _ & Hrun & Hcalls & _);
    [lia|].
  exists k. split; [exact Hk|]. split; [exact Hrun|exact Hcalls].
Defined.

End RetryTraceFacts.

Module TransformFacts.
Import Builtins ErrorHandler LlmAnalysis LabelSpec OrchestratorFacts.

(** ** When the transformation throws *)

Lemma spread_returned {A : Type} (x : Response.Spread A) items :
  spread x = inr items → isNotIterable x = false.
Proof. by destruct x. Qed.

Lemma spreadOf_returned name field e items :
  spreadOf name field e = inr items →
  e ≠ Response.CatNull ∧ isNotIterable (field (asCategory e)) = false.
Proof.
  destruct e as [|c|v]; cbn [spreadOf]; [done|..];
    intros Hspread%spread_returned; by split.
Qed.

Lemma collect_returned {A : Type} entries (field : Response.Specific → Response.Spread A)
      l kv specific :
  collect entries field = inr l → kv ∈ entries →
  Response.specificContentSuggestions (asCategory kv.2) = Some specific →
  isNotIterable (field specific) = false.
Proof.
  intros Hcollect Hin Hspecific.
  destruct (pushAll_inr _ _ _ Hcollect kv Hin) as [items Hitems].
  rewrite Hspecific in Hitems. by apply spread_returned in Hitems.
Qed.

Lemma collect_spreadsNotIterable {A : Type} entries
      (field : Response.Specific → Response.Spread A) t :
  (∀ specific, isNotIterable (field specific) = true →
               ∀ c, Response.specificContentSuggestions c = Some specific →
                    spreadsNotIterable c = true) →
  collect entries field = inl t →
  (∃ msg, t = ThrowError (TypeError msg)) ∧
  ∃ key entry, (key, entry) ∈ entries ∧ spreadsNotIterable (asCategory entry) = true.
Proof.
  intros Hfield (-> & [key entry] & specific & Hin & Hspecific & Hnot)%collect_thrown.
  split; [by eexists|]. exists key, entry. split; [done|].
  apply (Hfield specific); [by rewrite Hnot|done].
Qed.

Lemma pushAll_spreadsNotIterable name field entries t :
  (∀ c, isNotIterable (field c) = true → spreadsNotIterable c = true) →
  pushAll (spreadOf name field) entries = inl t →
  (∃ msg, t = ThrowError (TypeError msg)) ∧
  ∃ key entry, (key, entry) ∈ entries
               ∧ (entry = Response.CatNull ∨ spreadsNotIterable (asCategory entry) = true).
Proof.
  intros Hfield ([key entry] & Hin & Hthrown)%pushAll_inl. cbn [snd] in Hthrown.
  apply spreadOf_thrown in Hthrown as [[-> ->]|(_ & Hnot & ->)].
  - split; [by eexists|]. exists key, Response.CatNull. split; [done|by left].
  - split; [by eexists|]. exists key, entry. split; [done|]. right.
    apply Hfield. by rewrite Hnot.
Qed.

(** X9.  When [transformOpenAIResponse] throws.  It throws exactly when
    the parsed answer is [null], or one of its top-level properties is
    [null], or a category holds, under one of the eight properties that the
    code spreads into an array, a value that passes the test and is not
    iterable; what it throws is a [TypeError].  For every other answer (the
    empty object, unknown keys, categories without a score or without
    lists) it returns an analysis. *)
Theorem transformOpenAIResponse_throws_iff openaiResponse reviewData :
  match transformOpenAIResponse openaiResponse reviewData with
  | inl t =>
      (∃ msg, t = ThrowError (TypeError msg)) ∧
      (openaiResponse = Response.ParsedNull
       ∨ ∃ entries key entry,
           openaiResponse = Response.ParsedObject entries
           ∧ (key, entry) ∈ entries
           ∧ (entry = Response.CatNull ∨ spreadsNotIterable (asCategory entry) = true))
  | inr _ =>
      ∃ entries, openaiResponse = Response.ParsedObject entries
                 ∧ ∀ key entry, (key, entry) ∈ entries →
                     entry ≠ Response.CatNull
                     ∧ spreadsNotIterable (asCategory entry) = false
  end.
Proof.
  destruct openaiResponse as [|entries]; cbn [transformOpenAIResponse].
  { split; [by eexists|by left]. }
  assert (∀ t, (∃ msg, t = ThrowError (TypeError msg)) ∧
               (∃ key entry, (key, entry) ∈ entries
                  ∧ (entry = Response.CatNull
                     ∨ spreadsNotIterable (asCategory entry) = true)) →
               (∃ msg, t = ThrowError (TypeError msg)) ∧
               (Response.ParsedObject entries = Response.ParsedNull
                ∨ ∃ entries0 key entry,
                    Response.ParsedObject entries = Response.ParsedObject entries0
                    ∧ (key, entry) ∈ entries0
                    ∧ (entry = Response.CatNull
                       ∨ spreadsNotIterable (asCategory entry) = true))) as Hthrown.
  { intros t [Hmsg (key & entry & Hin & Hwhy)]. split; [done|]. right.
    by exists entries, key, entry. }
  assert (∀ {A} (field : Response.Specific → Response.Spread A) t,
            (∀ specific, isNotIterable (field specific) = true →
                         ∀ c, Response.specificContentSuggestions c = Some specific →
                              spreadsNotIterable c = true) →
            collect entries field = inl t →
            (∃ msg, t = ThrowError (TypeError msg)) ∧
            (∃ key entry, (key, entry) ∈ entries
               ∧ (entry = Response.CatNull
                  ∨ spreadsNotIterable (asCategory entry) = true))) as Hcollect.
  { intros A field t Hfield Hstep.
    destruct (collect_spreadsNotIterable _ _ _ Hfield Hstep)
      as [Hmsg (key & entry & Hin & Hnot)].
    split; [done|]. exists key, entry. split; [done|by right]. }
  transform_steps.
  - apply Hthrown. eapply pushAll_spreadsNotIterable; [|exact Hstep].
    intros c Hc. unfold spreadsNotIterable. by rewrite Hc.
  - apply Hthrown. eapply pushAll_spreadsNotIterable; [|exact Hstep0].
    intros c Hc. unfold spreadsNotIterable. by rewrite Hc, !orb_true_r.
  - apply Hthrown. eapply Hcollect; [|exact Hstep1].
    intros specific Hf c Hc. unfold spreadsNotIterable. rewrite Hc, Hf.
    by rewrite ?orb_true_r.
  - apply Hthrown. eapply Hcollect; [|exact Hstep2].
    intros specific Hf c Hc. unfold spreadsNotIterable. rewrite Hc, Hf.
    by rewrite ?orb_true_r.
  - apply Hthrown. eapply Hcollect; [|exact Hstep3].
    intros specific Hf c Hc. unfold spreadsNotIterable. rewrite Hc, Hf.
    by rewrite ?orb_true_r.
  - apply Hthrown. eapply Hcollect; [|exact Hstep4].
    intros specific Hf c Hc. unfold spreadsNotIterable. rewrite Hc, Hf.
    by rewrite ?orb_true_r.
  - apply Hthrown. eapply Hcollect; [|exact Hstep5].
    intros specific Hf c Hc. unfold spreadsNotIterable. rewrite Hc, Hf.
    by rewrite ?orb_true_r.
  - apply Hthrown. eapply Hcollect; [|exact Hstep6].
    intros specific Hf c Hc. unfold spreadsNotIterable. rewrite Hc, Hf.
    by rewrite ?orb_true_r.
  - exists entries. split; [done|]. intros key entry Hin.
    destruct (pushAll_inr _ _ _ Hstep _ Hin) as [items1 Hone].
    destruct (pushAll_inr _ _ _ Hstep0 _ Hin) as [items2 Htwo].
    cbn [snd] in Hone, Htwo.
    apply spreadOf_returned in Hone as [Hnull Hstrengths].
    apply spreadOf_returned in Htwo as [_ Hareas].
    split; [done|]. unfold spreadsNotIterable. rewrite Hstrengths, Hareas.
    destruct (Response.specificContentSuggestions (asCategory entry))
      as [specific|] eqn:Hspecific; [|done].
    rewrite (collect_returned _ _ _ _ _ Hstep1 Hin Hspecific).
    rewrite (collect_returned _ _ _ _ _ Hstep2 Hin Hspecific).
    rewrite (collect_returned _ _ _ _ _ Hstep3 Hin Hspecific).
    rewrite (collect_returned _ _ _ _ _ Hstep4 Hin Hspecific).
    rewrite (collect_returned _ _ _ _ _ Hstep5 Hin Hspecific).
    by rewrite (collect_returned _ _ _ _ _ Hstep6 Hin Hspecific).
Qed.

(** A category whose [strengths] is the number 3: the call of [push]
    throws. *)
Example transformOpenAIResponse_not_iterable :
  transformOpenAIResponse
    (Response.ParsedObject
       [("SemanticClarity"%string,
         Response.CatObject
           (Response.mkCategory (Some 80%float) Response.NotIterable Response.Skipped
                                None None None None None None None))])
    None
  = inl (ThrowError notIterable).
Proof. reflexivity. Qed.

(** ** The labels of the categories *)

Lemma trimStart_unfold s :
  trimStart s = match afterSpace s with
                | Some rest => trimStart rest
                | None => s
                end.
Proof.
  destruct s as [|c1 [|c2 [|c3 rest]]]; cbn [trimStart afterSpace]; try done.
  - by destruct (isSpace c1).
  - destruct (isSpace c1); [done|]. by destruct (isSpace2 c1 c2).
  - destruct (isSpace c1); [done|]. destruct (isSpace2 c1 c2); [done|].
    by destruct (isSpace3 c1 c2 c3).
Qed.

Lemma isUpper_range c :
  isUpper c = true → (65 ≤ nat_of_ascii c ≤ 90)%nat.
Proof.
  unfold isUpper. intros [H1 H2]%andb_true_iff.
  apply Nat.leb_le in H1, H2. lia.
Qed.

(** A capital letter starts no white-space character. *)
Lemma afterSpace_upper c rest : isUpper c = true → afterSpace (String c rest) = None.
Proof.
  intros Hupper%isUpper_range. unfold afterSpace, isSpace, isSpace2, isSpace3.
  cbn zeta.
  assert ((9 <=? nat_of_ascii c)%nat && (nat_of_ascii c <=? 13)%nat = false) as ->.
  { apply andb_false_iff. right. apply Nat.leb_gt. lia. }
  assert (∀ k, (90 < k)%nat → (nat_of_ascii c =? k)%nat = false) as Hne.
  { intros k Hk. apply Nat.eqb_neq. lia. }
  assert ((nat_of_ascii c =? 32)%nat = false) as -> by (apply Nat.eqb_neq; lia).
  rewrite !Hne by lia. cbn [andb orb].
  by destruct rest as [|c2 [|c3 rest]].
Qed.

Lemma isSpace2_space c : isSpace2 c " " = false.
Proof. unfold isSpace2. cbn. by rewrite andb_false_r. Qed.

Lemma isSpace3_space_second c c3 : isSpace3 c " " c3 = false.
Proof.
  unfold isSpace3. cbn zeta.
  change (nat_of_ascii " ") with 32%nat. cbn [Nat.eqb andb].
  by rewrite ?andb_false_r.
Qed.

Lemma isSpace3_space_third c c2 : isSpace3 c c2 " " = false.
Proof.
  unfold isSpace3. cbn zeta.
  change (nat_of_ascii " ") with 32%nat. cbn [Nat.eqb Nat.leb andb orb].
  by rewrite ?andb_false_r.
Qed.

(** Putting spaces before the capitals of the text after [c] makes no
    white-space character at [c]. *)
Lemma afterSpace_spaceCapitals c rest :
  afterSpace (String c rest) = None → afterSpace (String c (spaceCapitals rest)) = None.
Proof.
  destruct rest as [|c2 rest2]; [done|]. cbn [spaceCapitals afterSpace].
  destruct (isSpace c) eqn:Hc; [done|].
  destruct (isUpper c2) eqn:Hc2.
  - intros _. rewrite isSpace2_space. by rewrite isSpace3_space_second.
  - destruct (isSpace2 c c2); [done|].
    destruct rest2 as [|c3 rest3]; [done|]. cbn [spaceCapitals].
    destruct (isUpper c3).
    + intros _. by rewrite isSpace3_space_third.
    + by destruct (isSpace3 c c2 c3).
Qed.

Lemma noWhiteSpace_cons c rest :
  noWhiteSpace (String c rest) = true →
  afterSpace (String c rest) = None ∧ noWhiteSpace rest = true.
Proof.
  cbn [noWhiteSpace]. by destruct (afterSpace (String c rest)).
Qed.

Lemma noWhiteSpace_not_space c rest :
  noWhiteSpace (String c rest) = true → Ascii.eqb c " " = false.
Proof.
  intros [Hhead _]%noWhiteSpace_cons. apply Ascii.eqb_neq. intros ->. done.
Qed.

Lemma withoutSpaces_spaceCapitals s :
  noWhiteSpace s = true → withoutSpaces (spaceCapitals s) = s.
Proof.
  induction s as [|c rest IH]; [done|]. intros Hs.
  pose proof (noWhiteSpace_not_space _ _ Hs) as Hne.
  apply noWhiteSpace_cons in Hs as [_ Hrest]. cbn [spaceCapitals].
  destruct (isUpper c); cbn [withoutSpaces]; rewrite ?Ascii.eqb_refl, Hne;
    cbn [withoutSpaces]; rewrite ?Hne; by rewrite IH.
Qed.

(** The text from a character of the key on, with the spaces put in, has no
    white space at its head... *)
Lemma trimStart_spaceCapitals c rest :
  isUpper c = true ∨ afterSpace (String c rest) = None →
  trimStart (String c (spaceCapitals rest)) = String c (spaceCapitals rest).
Proof.
  intros Hhead. rewrite trimStart_unfold.
  destruct Hhead as [Hupper|Hnone].
  - by rewrite afterSpace_upper.
  - by rewrite afterSpace_spaceCapitals.
Qed.

Lemma trimEnd_cons c rest :
  trimEnd (String c rest)
  = if whiteSpaceOnly (String c rest) then EmptyString else String c (trimEnd rest).
Proof. reflexivity. Qed.

(** ... and none at its end. *)
Lemma trimEnd_spaceCapitals rest : ∀ c,
  isUpper c = true ∨ afterSpace (String c rest) = None →
  noWhiteSpace rest = true →
  trimEnd (String c (spaceCapitals rest)) = String c (spaceCapitals rest).
Proof.
  induction rest as [|c2 rest2 IH]; intros c Hhead Hrest.
  - pose proof (trimStart_spaceCapitals c "" Hhead) as Hstart.
    cbn [spaceCapitals] in *. rewrite trimEnd_cons. unfold whiteSpaceOnly.
    by rewrite Hstart.
  - rewrite trimEnd_cons. unfold whiteSpaceOnly.
    rewrite (trimStart_spaceCapitals c (String c2 rest2) Hhead).
    cbn [String.eqb]. f_equal.
    apply noWhiteSpace_cons in Hrest as [Hnone Hrest2].
    cbn [spaceCapitals]. destruct (isUpper c2) eqn:Hc2.
    + rewrite trimEnd_cons. unfold whiteSpaceOnly.
      change (trimStart (String " " ?x)) with (trimStart x).
      rewrite (trimStart_spaceCapitals c2 rest2) by (by left).
      cbn [String.eqb]. f_equal. apply IH; [by left|done].
    + apply IH; [by right|done].
Qed.

(** The label of a key: the space characters taken out of it give the key
    back. *)
Lemma withoutSpaces_label key :
  noWhiteSpace key = true → withoutSpaces (trim (spaceCapitals key)) = key.
Proof.
  intros Hkey. destruct key as [|c rest]; [done|].
  pose proof (noWhiteSpace_not_space _ _ Hkey) as Hne.
  pose proof (withoutSpaces_spaceCapitals _ Hkey) as Hall.
  apply noWhiteSpace_cons in Hkey as [Hnone Hrest].
  assert (trim (spaceCapitals (String c rest)) = String c (spaceCapitals rest)) as ->.
  { unfold trim. cbn [spaceCapitals]. destruct (isUpper c) eqn:Hc.
    - change (trimStart (String " " ?x)) with (trimStart x).
      rewrite trimStart_spaceCapitals by (by left).
      apply trimEnd_spaceCapitals; [by left|done].
    - rewrite trimStart_spaceCapitals by (by right).
      apply trimEnd_spaceCapitals; [by right|done]. }
  cbn [spaceCapitals] in Hall.
  destruct (isUpper c); cbn [withoutSpaces] in *;
    rewrite ?Ascii.eqb_refl, ?Hne in *; cbn [withoutSpaces] in *;
    rewrite ?Hne in *; done.
Qed.

(** X10.  The optimizations of an analysis.  [transformOpenAIResponse]
    makes one optimization of every top-level property of the answer, in
    the order of the properties, whatever the key is (also of a
    [reviewEnhancedRecommendations] block).  Its score is the score of the
    property, 0 when there is none; its category is a label made from the
    key, and for a key in which no white-space character of the language
    stands the label without its spaces is the key: two such keys never
    share a label. *)
Theorem llmOptimizations_follow_the_answer entries reviewData analysis :
  transformOpenAIResponse (Response.ParsedObject entries) reviewData = inr analysis →
  Forall2 (λ (kv : string * Response.Entry) optimization,
             Optimization.category optimization = trim (spaceCapitals kv.1) ∧
             Optimization.score optimization
             = scoreOrZero (Response.score (asCategory kv.2)) ∧
             (noWhiteSpace kv.1 = true →
              withoutSpaces (Optimization.category optimization) = kv.1))
          entries (ProductAnalysis.llmOptimizations analysis) ∧
  ∀ key1 key2, noWhiteSpace key1 = true → noWhiteSpace key2 = true →
               trim (spaceCapitals key1) = trim (spaceCapitals key2) → key1 = key2.
Proof.
  intros [_ ->]%transformOpenAIResponse_returns. split.
  - induction entries as [|kv rest IH]; [constructor|].
    cbn [List.map]. constructor; [|done].
    cbn [Optimization.category Optimization.score]. split_and!; [done..|].
    apply withoutSpaces_label.
  - intros key1 key2 H1 H2 Hlabel.
    by rewrite <-(withoutSpaces_label key1 H1), Hlabel, withoutSpaces_label.
Qed.

(** The answer with the five categories of the system prompt. *)
Lemma llmOptimizations_follow_the_answer_witness :
  List.map Optimization.category (ProductAnalysis.llmOptimizations Samples.sampleAnalysis)
  = ["Semantic Clarity"; "Intent Matching"; "Feature Benefit Structure";
     "Natural Language Optimization"; "Structured Information"]%string ∧
  Forall2 (λ (kv : string * Response.Entry) optimization,
             noWhiteSpace kv.1 = true →
             withoutSpaces (Optimization.category optimization) = kv.1)
          Samples.sampleEntries (ProductAnalysis.llmOptimizations Samples.sampleAnalysis).
Proof.
  split; [reflexivity|].
  destruct (llmOptimizations_follow_the_answer Samples.sampleEntries None
              Samples.sampleAnalysis eq_refl) as [Hall _].
  eapply Forall2_impl; [exact Hall|]. intros kv o (_ & _ & Hlabel). exact Hlabel.
Defined.

End TransformFacts.

Module EditFormFacts.
Import LlmAnalysis EditForm.

Lemma split_nonempty sep s : split sep s ≠ [].
Proof.
  destruct s as [|c rest]; [done|]. cbn [split].
  destruct (Ascii.eqb c sep); [done|]. by destruct (split sep rest).
Qed.

(** Splitting what was joined with the separator. *)
Lemma split_app sep a b :
  split sep (a +:+ String sep b) = split sep a ++ split sep b.
Proof.
  induction a as [|c rest IH]; simpl.
  - by rewrite Ascii.eqb_refl.
  - destruct (Ascii.eqb c sep); [by rewrite IH|].
    rewrite IH. pose proof (split_nonempty sep rest).
    by destruct (split sep rest).
Qed.

Lemma split_noComma s : noComma s = true → split "," s = [s].
Proof.
  induction s as [|c rest IH]; [done|]. cbn [noComma split].
  intros [Hc Hrest]%andb_true_iff. apply negb_true_iff in Hc. rewrite Hc.
  by rewrite (IH Hrest).
Qed.

(** A space before the first piece is trimmed away. *)
Lemma submittedTags_space s :
  List.map trim (split "," (String " " s)) = List.map trim (split "," s).
Proof.
  cbn [split]. change (Ascii.eqb " " ",") with false. cbn iota.
  pose proof (split_nonempty "," s). by destruct (split "," s).
Qed.

Lemma submittedTags_join items :
  items ≠ [] →
  submittedTags (Js.join ", " items) = flat_map submittedTags items.
Proof.
  unfold submittedTags.
  induction items as [|item rest IH]; [done|]. intros _.
  destruct rest as [|next rest].
  - cbn [Js.join flat_map]. by rewrite app_nil_r.
  - cbn [Js.join flat_map] in *.
    change (", " +:+ ?s) with (String "," (String " " s)).
    rewrite split_app, map_app, submittedTags_space. by rewrite IH.
Qed.

(** X11.  The tags of a product through the edit form.  [handleEditProduct]
    writes the tags into one field, joined by a comma and a space; the
    [update] action splits the field at the commas and trims the pieces.
    A list of at least one tag comes back as it was when no tag contains a
    comma or starts or ends with white space; a tag that contains a comma
    comes back as several tags.  A product with no tags does not come back
    with no tags: the empty field is split into one empty tag. *)
Theorem tags_through_the_edit_form :
  (∀ items, items ≠ [] →
     submittedTags (formTags (Product.TagsArray items))
     = flat_map submittedTags items) ∧
  (∀ items, items ≠ [] →
     Forall (λ tag, noComma tag = true ∧ trim tag = tag) items →
     submittedTags (formTags (Product.TagsArray items)) = items) ∧
  submittedTags (formTags (Product.TagsArray [])) = [""%string] ∧
  (∀ v, submittedTags (formTags (Product.TagsOther v)) = [""%string]).
Proof.
  split_and!.
  - intros items Hne. by apply submittedTags_join.
  - intros items Hne Hclean. cbn [formTags].
    rewrite submittedTags_join by done. clear Hne.
    induction Hclean as [|tag rest [Hcomma Htrim] _ IH]; [done|].
    cbn [flat_map]. rewrite IH. unfold submittedTags at 1.
    rewrite (split_noComma _ Hcomma). cbn [List.map app]. by rewrite Htrim.
  - reflexivity.
  - reflexivity.
Qed.

(** The tags of the repository's test product. *)
Lemma tags_through_the_edit_form_witness :
  submittedTags (formTags (Product.TagsArray ["snowboard"; "winter"; "sports"]%string))
  = ["snowboard"; "winter"; "sports"]%string.
Proof.
  apply (proj1 (proj2 tags_through_the_edit_form)); [done|].
  repeat constructor.
Defined.

End EditFormFacts.

Module BulkAnalysisFacts.
Import Builtins BuiltinsFacts ErrorHandler LlmAnalysis OrchestratorSpec OrchestratorFacts.
Import BulkAnalysis.

(** ** Comparisons of scores *)

Lemma is_nan_Prim2SF x : PrimFloat.is_nan x = false → Prim2SF x ≠ S754_nan.
Proof.
  unfold PrimFloat.is_nan. rewrite FloatAxioms.eqb_spec. intros Hnan Hx.
  rewrite Hx in Hnan. done.
Qed.

(** A score that is a number is below 60, or from 60 to below 80, or at
    least 80, and only one of the three. *)
Lemma score_band x :
  PrimFloat.is_nan x = false →
  ((x <? 60)%float = true ∧ (60 <=? x)%float = false ∧ (80 <=? x)%float = false) ∨
  ((x <? 60)%float = false ∧ (60 <=? x)%float = true ∧ (x <? 80)%float = true
   ∧ (80 <=? x)%float = false) ∨
  ((x <? 60)%float = false ∧ (60 <=? x)%float = true ∧ (x <? 80)%float = false
   ∧ (80 <=? x)%float = true).
Proof.
  intros Hnan%is_nan_Prim2SF.
  rewrite !FloatAxioms.ltb_spec, !FloatAxioms.leb_spec.
  change (Prim2SF 60) with (S754_finite false 8444249301319680 (-47)).
  change (Prim2SF 80) with (S754_finite false 5629499534213120 (-46)).
  destruct (Prim2SF x) as [s|s| |s m e]; [| |done|].
  - destruct s; left; done.
  - destruct s; [left; done|right; right; done].
  - destruct s; [left; done|].
    unfold SFltb, SFleb, SFcompare.
    destruct (Z.compare_spec e (-47)) as [->|Hlt|Hgt].
    + change (-47 ?= -46) with Lt. change (-46 ?= -47) with Gt.
      rewrite Z.compare_refl.
      assert (Pos.compare_cont Eq 8444249301319680 m = CompOpp (Pos.compare_cont Eq m 8444249301319680)) as ->
          by (symmetry; apply (Pos.compare_cont_antisym m 8444249301319680 Eq)).
      destruct (Pos.compare_cont Eq m 8444249301319680);
        [right; left; done|left; done|right; left; done].
    + rewrite (proj2 (Z.compare_lt_iff e (-46))) by lia.
      rewrite (proj2 (Z.compare_gt_iff (-47) e)) by lia.
      rewrite (proj2 (Z.compare_gt_iff (-46) e)) by lia.
      left; done.
    + rewrite (proj2 (Z.compare_lt_iff (-47) e)) by lia.
      destruct (Z.compare_spec e (-46)) as [->|Hlt'|Hgt'].
      * rewrite Z.compare_refl.
        assert (Pos.compare_cont Eq 5629499534213120 m = CompOpp (Pos.compare_cont Eq m 5629499534213120)) as ->
          by (symmetry; apply (Pos.compare_cont_antisym m 5629499534213120 Eq)).
        destruct (Pos.compare_cont Eq m 5629499534213120);
          [right; right; done|right; left; done|right; right; done].
      * lia.
      * rewrite (proj2 (Z.compare_lt_iff (-46) e)) by lia.
        right; right; done.
Qed.

(** ** One call without a session *)

Lemma upstreamCalls_app events1 events2 :
  upstreamCalls (events1 ++ events2)
  = (upstreamCalls events1 + upstreamCalls events2)%nat.
Proof. unfold upstreamCalls. by rewrite List.filter_app, length_app. Qed.

Lemma tryBlock_events `{Host} options env run :
  events (tryBlock options env run).2 = events run
  ∨ events (tryBlock options env run).2
    = events run ++ (callOpenAIWithRetry (upstream env) 3).2.
Proof.
  rewrite tryBlock_unfold.
  destruct (validateProductData (product run)); [by left|].
  assert (events (quotaStage options env run).2 = events run) as Hquota.
  { destruct (sessionOf options) as [session|] eqn:Hsession.
    - by rewrite (quotaStage_present _ _ _ _ Hsession).
    - by rewrite (quotaStage_absent _ _ _ Hsession). }
  destruct (quotaStage options env run) as [[t|[result|]] run1];
    cbn [snd] in Hquota; [by left|by left|].
  rewrite cacheStage_unfold.
  pose proof (generateContentHashM_spec (fetchedReviewData env) run1) as Hhash.
  destruct (generateContentHashM (fetchedReviewData env) run1) as [[t|h] run2];
    cbn [fst snd] in Hhash; destruct Hhash as (_ & Hevents & _).
  { left. cbn [snd]. congruence. }
  rewrite getCachedAnalysisM_spec. cbn [snd].
  destruct (getCachedAnalysis (nowLookup env) h (analysisCache (server run2))).1.
  { left. cbn [snd events]. congruence. }
  match goal with
  | |- context [upstreamStage env ?rd h ?r] =>
      pose proof (upstreamStage_spec env rd h r) as Hup
  end.
  cbn zeta in Hup. destruct Hup as (_ & _ & Hup & _).
  right. rewrite Hup. cbn [events]. congruence.
Qed.

(** A call without a session settles with a result, leaves the limiters as
    they were and makes at most three upstream calls. *)
Lemma analyze_without_session `{Host} product options env server :
  sessionOf options = None →
  let out := analyzeLLMDiscoverability product options env server in
  (∃ result, out.1 = inr result) ∧
  limiters (LlmAnalysis.server out.2) = limiters server ∧
  (upstreamCalls (events out.2) ≤ 3)%nat.
Proof.
  intros Hsession. cbn zeta.
  pose proof (analyze_of_tryBlock product options env server) as [Hrun Hout].
  pose proof (tryBlock_spec product options env server) as (_ & Hlimiters & _).
  rewrite Hrun. split_and!.
  - destruct (tryBlock options env _).1 as [t|r]; [|by exists r].
    destruct Hout as (e & _ & ->). by eexists.
  - by apply Hlimiters.
  - destruct (tryBlock_events options env (mkRun server product [])) as [->| ->];
      cbn [events app]; [unfold upstreamCalls; simpl; lia|].
    apply RetryFacts.retryLoop_calls.
Qed.

(** ** The loop *)

Lemma iteration_spec `{Host} shop loop item :
  let loop' := iteration shop loop item in
  limiters (loopServer loop') = limiters (loopServer loop) ∧
  (upstreamCalls (loopEvents loop') ≤ upstreamCalls (loopEvents loop) + 3)%nat ∧
  length (pushed loop') = S (length (pushed loop)) ∧
  (loopOk loop → loopOk loop').
Proof.
  destruct item as [node env]. unfold iteration.
  pose proof (analyze_without_session (contentOfNode node) (optionsOfNode shop node)
                env (loopServer loop) eq_refl) as Hcall.
  cbn zeta in Hcall.
  destruct (analyzeLLMDiscoverability _ _ env (loopServer loop)) as [settled run].
  cbn [fst snd] in Hcall. destruct Hcall as ((result & ->) & Hlimiters & Hcalls).
  cbn [loopServer loopEvents pushed lowScoreCount].
  rewrite upstreamCalls_app, length_app. cbn [length].
  split_and!; [done|lia|lia|].
  unfold loopOk. cbn [pushed lowScoreCount].
  intros [Hpushed Hlow]. split.
  - apply Forall_app. split; [done|]. constructor; [|constructor].
    split_and!; [done|by eexists|done].
  - rewrite List.filter_app, length_app, Hlow.
    cbn [List.filter productResult needsImprovement].
    destruct (_ <? 60)%float; cbn [length]; lia.
Qed.

Lemma loop_spec `{Host} shop products loop :
  let loop' := fold_left (iteration shop) products loop in
  limiters (loopServer loop') = limiters (loopServer loop) ∧
  (upstreamCalls (loopEvents loop')
   ≤ upstreamCalls (loopEvents loop) + 3 * length products)%nat ∧
  length (pushed loop') = (length (pushed loop) + length products)%nat ∧
  (loopOk loop → loopOk loop').
Proof.
  revert loop. induction products as [|item rest IH]; intros loop.
  - cbn [fold_left length]. split_and!; [done|lia|lia|done].
  - cbn [fold_left length].
    destruct (iteration_spec shop loop item) as (Hl1 & Hc1 & Hp1 & Hok1).
    destruct (IH (iteration shop loop item)) as (Hl2 & Hc2 & Hp2 & Hok2).
    cbn zeta in *. split_and!; [congruence|lia|lia|auto].
Qed.

(** X12.  A bulk analysis and the quota.  The [bulkAnalyze] branch calls
    [analyzeLLMDiscoverability] once for every product, without a session:
    whatever the number of products, neither limiter is touched (the bulk
    limiter is not consulted either), the upstream is called at most three
    times for each product, every product gets one result, and no result
    is the failed one of the [catch] block of the loop, since no call
    throws. *)
Theorem bulk_analysis_uses_no_quota `{Host} shop products server :
  let out := bulkAnalyze shop products server in
  limiters (bulkServer out) = limiters server ∧
  (upstreamCalls (bulkEvents out) ≤ 3 * length products)%nat ∧
  length (bulkResults out) = length products ∧
  totalProducts (storeMetrics out) = length products ∧
  Forall (λ r, failed r = false ∧ is_Some (resultScores r)) (bulkResults out).
Proof.
  cbn zeta. unfold bulkAnalyze.
  cbn [bulkServer bulkEvents bulkResults storeMetrics totalProducts].
  destruct (loop_spec shop products (mkLoop server [] 0%float 0%nat []))
    as (Hlimiters & Hcalls & Hpushed & Hok).
  cbn zeta in *. cbn [loopServer loopEvents pushed] in *.
  destruct Hok as [Hresults _]; [by split|].
  split_and!; [done|done| |done|].
  - by rewrite sortBy_length.
  - rewrite (sortBy_Permutation byScore).
    eapply Forall_impl; [exact Hresults|]. by intros r (? & ? & _).
Qed.

Lemma filter_length_Permutation {A : Type} (f : A → bool) l1 l2 :
  l1 ≡ₚ l2 → length (List.filter f l1) = length (List.filter f l2).
Proof.
  induction 1 as [|x l1 l2 _ IH|x y l|l1 l2 l3 _ IH1 _ IH2]; simpl.
  - done.
  - destruct (f x); simpl; by rewrite IH.
  - destruct (f x), (f y); done.
  - congruence.
Qed.

Lemma filter_In_subseteq {A : Type} (f : A → bool) (l : list A) :
  List.filter f l ⊆ l.
Proof.
  intros x Hx. apply list_elem_of_In. apply list_elem_of_In in Hx.
  by apply List.filter_In in Hx as [? _].
Qed.

(** The three bands of the scores. *)
Lemma bands_add_up results :
  Forall (λ r, PrimFloat.is_nan (discoveryScore r) = false
               ∧ needsImprovement r = (discoveryScore r <? 60)%float) results →
  (length (List.filter needsImprovement results)
   + length (List.filter (λ r, (60 <=? discoveryScore r)%float
                               && (discoveryScore r <? 80)%float) results)
   + length (List.filter (λ r, (80 <=? discoveryScore r)%float) results)
   = length results)%nat.
Proof.
  induction 1 as [|r rest [Hnan Hneeds] _ IH]; [done|].
  cbn [List.filter length]. rewrite Hneeds.
  destruct (score_band _ Hnan)
    as [(-> & -> & ->)|[(-> & -> & -> & ->)|(-> & -> & -> & ->)]];
    cbn [andb length]; lia.
Qed.

(** X13.  The store metrics of a bulk analysis.  [lowScoreCount] is the
    number of results that need improvement; [topPriorityFixes] lists
    results that need improvement, five of them or all when there are
    fewer; and when no score is [NaN] every product is counted once, as a
    low score (below 60), a medium performer (60 to below 80) or a high
    performer (80 and above). *)
Theorem store_metrics_add_up `{Host} shop products server :
  let out := bulkAnalyze shop products server in
  let metrics := storeMetrics out in
  lowScores metrics = length (List.filter needsImprovement (bulkResults out)) ∧
  length (topPriorityFixes metrics) = Nat.min 5 (lowScores metrics) ∧
  Forall (λ r, needsImprovement r = true ∧ r ∈ bulkResults out)
         (topPriorityFixes metrics) ∧
  (Forall (λ r, PrimFloat.is_nan (discoveryScore r) = false) (bulkResults out) →
   (lowScores metrics + mediumPerformers metrics + highPerformers metrics
    = totalProducts metrics)%nat).
Proof.
  cbn zeta. unfold bulkAnalyze.
  cbn [bulkResults storeMetrics totalProducts lowScores highPerformers
       mediumPerformers topPriorityFixes].
  destruct (loop_spec shop products (mkLoop server [] 0%float 0%nat []))
    as (_ & _ & Hpushed & Hok).
  cbn zeta in *. cbn [pushed length] in *.
  destruct Hok as [Hresults Hlow]; [by split|].
  set (loop := fold_left (iteration shop) products _) in *.
  pose proof (sortBy_Permutation byScore (pushed loop)) as Hperm.
  assert (lowScoreCount loop
          = length (List.filter needsImprovement (sortBy byScore (pushed loop))))
    as Hlow' by (by rewrite Hlow; apply filter_length_Permutation).
  split_and!.
  - done.
  - rewrite length_take, Hlow'. done.
  - apply Forall_forall. intros r Hr.
    apply elem_of_take in Hr as (i & Hr & _).
    apply list_elem_of_lookup_2 in Hr. apply list_elem_of_In in Hr.
    apply List.filter_In in Hr as [Hin Hneeds]. split; [done|].
    by apply list_elem_of_In.
  - intros Hnan. rewrite Hlow. replace (length products) with (length (pushed loop)) by lia.
    apply bands_add_up. apply Forall_forall. intros r Hr. split.
    + rewrite Forall_forall in Hnan. apply Hnan. by rewrite Hperm.
    + rewrite Forall_forall in Hresults. by destruct (Hresults r Hr) as (_ & _ & ?).
Qed.

(** Two products: one scores 60, the one without a title gets the
    fallback and scores 0. *)
Lemma store_metrics_add_up_witness :
  let out := @bulkAnalyze Samples.sampleHost (Some Samples.shop) sampleNodes
               Samples.initialServer in
  List.map discoveryScore (bulkResults out) = [0%float; 60%float] ∧
  (lowScores (storeMetrics out) + mediumPerformers (storeMetrics out)
   + highPerformers (storeMetrics out) = totalProducts (storeMetrics out))%nat.
Proof.
  intros out. split; [vm_compute; reflexivity|].
  apply (@store_metrics_add_up Samples.sampleHost (Some Samples.shop) sampleNodes
           Samples.initialServer).
  assert (List.map (λ r, PrimFloat.is_nan (discoveryScore r)) (bulkResults out)
          = [false; false]) as Hnan by (vm_compute; reflexivity).
  fold out. destruct (bulkResults out) as [|r1 [|r2 [|r3 rest]]]; try done.
  injection Hnan as H1 H2. by repeat constructor.
Defined.

End BulkAnalysisFacts.

Module ReviewDataFacts.
Import Builtins BuiltinsFacts ErrorHandler LlmAnalysis ReviewData.

(** ** The word counts *)

Lemma occurrences_snoc word seen x :
  occurrences word (seen ++ [x])
  = occurrences word seen + (if String.eqb word x then 1 else 0).
Proof.
  unfold occurrences. rewrite List.filter_app, length_app. cbn [List.filter].
  destruct (String.eqb word x); cbn [length]; lia.
Qed.

Lemma occurrences_nonneg word seen : 0 ≤ occurrences word seen.
Proof. unfold occurrences. lia. Qed.

Lemma occurrences_pos word seen : 0 < occurrences word seen → word ∈ seen.
Proof.
  unfold occurrences. induction seen as [|x seen IH]; cbn [List.filter length]; [lia|].
  destruct (String.eqb_spec word x) as [->|Hne]; [intros _; by left|].
  intros Hpos. right. by apply IH.
Qed.

Lemma occurrences_elem word seen : word ∈ seen → 0 < occurrences word seen.
Proof.
  unfold occurrences. induction seen as [|x seen IH]; [by intros ?%not_elem_of_nil|].
  cbn [List.filter]. intros [->|Hin]%elem_of_cons.
  - rewrite String.eqb_refl. cbn [length]. lia.
  - destruct (String.eqb word x); cbn [length]; [lia|by apply IH].
Qed.

Lemma countWord_counted wordCount seen x :
  (∀ word, mapGet word wordCount = counted word seen) →
  ∀ word, mapGet word (countWord wordCount x) = counted word (seen ++ [x]).
Proof.
  intros Hinv word. unfold countWord, counted. rewrite occurrences_snoc.
  pose proof (occurrences_nonneg word seen) as Hnonneg.
  destruct (Z.ltb_spec 3 (Z.of_nat (String.length x))) as [Hlong|Hshort].
  - destruct (String.eqb_spec word x) as [->|Hne].
    + rewrite mapGet_mapSet_eq, Hinv. unfold counted.
      destruct (Z.ltb_spec 3 (Z.of_nat (String.length x))); [|lia]. cbn [andb].
      destruct (Z.ltb_spec 0 (occurrences x seen)); cbn [default];
        (destruct (Z.ltb_spec 0 (occurrences x seen + 1)); [|lia]); f_equal; lia.
    + rewrite mapGet_mapSet_ne by done. rewrite Hinv. unfold counted.
      by rewrite Z.add_0_r.
  - rewrite Hinv. unfold counted.
    destruct (String.eqb_spec word x) as [->|Hne]; [|by rewrite Z.add_0_r].
    destruct (Z.ltb_spec 3 (Z.of_nat (String.length x))); [lia|done].
Qed.

Lemma fold_countWord_counted words wordCount seen :
  (∀ word, mapGet word wordCount = counted word seen) →
  ∀ word, mapGet word (fold_left countWord words wordCount)
          = counted word (seen ++ words).
Proof.
  revert wordCount seen. induction words as [|x words IH]; intros wordCount seen Hinv.
  - by rewrite app_nil_r.
  - cbn [fold_left]. intros word.
    rewrite (IH (countWord wordCount x) (seen ++ [x])).
    + by rewrite <-app_assoc.
    + by apply countWord_counted.
Qed.

(** What [wordCount] holds when the loop is done. *)
Lemma countWords_get words word :
  mapGet word (countWords words) = counted word words.
Proof.
  apply (fold_countWord_counted words [] []). intros w. unfold counted.
  by rewrite andb_false_r.
Qed.

Lemma countWords_NoDup words : NoDup (keys (countWords words)).
Proof.
  unfold countWords.
  assert (∀ m : JsMap Z, NoDup (keys m) → NoDup (keys (fold_left countWord words m)))
    as Hfold.
  { induction words as [|x words IH]; intros m Hm; [done|].
    cbn [fold_left]. apply IH. unfold countWord.
    destruct (3 <? _); [by apply mapSet_NoDup|done]. }
  apply Hfold. constructor.
Qed.

Lemma countWords_elem words word n :
  (word, n) ∈ countWords words ↔
  (3 < String.length word)%nat ∧ word ∈ words ∧ n = occurrences word words.
Proof.
  split.
  - intros Hin. apply (mapGet_elem _ _ _ (countWords_NoDup words)) in Hin.
    rewrite countWords_get in Hin. unfold counted in Hin.
    destruct (Z.ltb_spec 3 (Z.of_nat (String.length word))); [|done].
    destruct (Z.ltb_spec 0 (occurrences word words)); [|done].
    injection Hin as <-. split_and!; [lia|by apply occurrences_pos|done].
  - intros (Hlong & Hin & ->). apply mapGet_Some_elem.
    rewrite countWords_get. unfold counted.
    destruct (Z.ltb_spec 3 (Z.of_nat (String.length word))); [|lia].
    pose proof (occurrences_elem _ _ Hin).
    destruct (Z.ltb_spec 0 (occurrences word words)); [done|lia].
Qed.

(** ** Keywords *)

Lemma filter_sublist_of {A : Type} (f : A → bool) (l : list A) :
  sublist (List.filter f l) l.
Proof.
  induction l as [|x l IH]; cbn [List.filter]; [constructor|].
  destruct (f x); by constructor.
Qed.

(** X14.  [extractCommonPhrases] with keywords.  The keywords reported are
    reported in the order of the list given; a keyword is reported exactly
    when the text contains it and it stands at least twice in the text as a
    word of its own.  Words of three characters or fewer are not counted,
    so a keyword that short is never reported: of the complaint keywords,
    "bad" is never among the frequent complaints, whatever the reviews
    say. *)
Theorem keywords_reported :
  (∀ text keywords,
     let reported := extractCommonPhrases text (Some keywords) in
     sublist reported keywords ∧
     ∀ keyword,
       keyword ∈ reported ↔
       keyword ∈ keywords ∧ Js.includes keyword text = true ∧
       (3 < String.length keyword)%nat ∧
       2 ≤ occurrences keyword (matchWords text)) ∧
  (∀ reviews,
     sublist (analysisComplaints (analyzeReviewSentiment reviews)) complaintKeywords ∧
     "bad"%string ∉ analysisComplaints (analyzeReviewSentiment reviews)).
Proof.
  assert (∀ text keywords keyword,
            keyword ∈ extractCommonPhrases text (Some keywords) ↔
            keyword ∈ keywords ∧ Js.includes keyword text = true ∧
            (3 < String.length keyword)%nat ∧
            2 ≤ occurrences keyword (matchWords text)) as Hiff.
  { intros text keywords keyword. cbn [extractCommonPhrases].
    rewrite !list_elem_of_In, List.filter_In, countWords_get.
    rewrite andb_true_iff, Z.ltb_lt. unfold counted.
    pose proof (occurrences_nonneg keyword (matchWords text)).
    destruct (Z.ltb_spec 3 (Z.of_nat (String.length keyword)));
      destruct (Z.ltb_spec 0 (occurrences keyword (matchWords text)));
      cbn [andb default]; split; intros Hk; destruct_and?; split_and?;
      first [assumption | unfold id in *; lia]. }
  split.
  - intros text keywords. cbn zeta. split; [apply filter_sublist_of|apply Hiff].
  - intros reviews. cbn [analyzeReviewSentiment analysisComplaints].
    split; [apply filter_sublist_of|].
    intros (_ & _ & Hlong & _)%Hiff. cbn in Hlong. lia.
Qed.

(** ** The most frequent words *)

#[local] Instance byCount_consistent : Consistent byCount.
Proof. split; unfold byCount; intros; lia. Qed.

Lemma take_elem {A : Type} (x : A) n l : x ∈ take n l → x ∈ l.
Proof. intros (i & Hi & _)%elem_of_take. by eapply list_elem_of_lookup_2. Qed.

Lemma drop_elem {A : Type} (x : A) n l : x ∈ drop n l → x ∈ l.
Proof.
  revert n. induction l as [|y l IH]; intros n; [by rewrite drop_nil|].
  destruct n as [|n]; [done|]. cbn [drop]. intros Hx. right. by eapply IH.
Qed.

Lemma map_elem {A B : Type} (f : A → B) l y :
  y ∈ List.map f l ↔ ∃ x, y = f x ∧ x ∈ l.
Proof.
  rewrite list_elem_of_In, in_map_iff. split; intros (x & Hx & Hin); exists x.
  - by rewrite list_elem_of_In.
  - by rewrite <-list_elem_of_In.
Qed.

Lemma map_sublist {A B : Type} (f : A → B) l1 l2 :
  sublist l1 l2 → sublist (List.map f l1) (List.map f l2).
Proof. induction 1; cbn [List.map]; by constructor. Qed.

Lemma StronglySorted_take {A : Type} (R : A → A → Prop) n (l : list A) :
  StronglySorted R l → StronglySorted R (take n l).
Proof.
  intros Hsorted. revert n. induction Hsorted as [|x l _ IH Hx]; intros n.
  - rewrite take_nil. constructor.
  - destruct n as [|n]; [constructor|]. cbn [take]. constructor; [apply IH|].
    apply Forall_forall. intros y Hy. rewrite Forall_forall in Hx. apply Hx.
    by eapply take_elem.
Qed.

Lemma StronglySorted_take_drop {A : Type} (R : A → A → Prop) n (l : list A) x y :
  StronglySorted R l → x ∈ take n l → y ∈ drop n l → R x y.
Proof.
  intros Hsorted. revert n. induction Hsorted as [|z l _ IH Hz]; intros n Hx Hy.
  - rewrite take_nil in Hx. by apply not_elem_of_nil in Hx.
  - destruct n as [|n]; [by apply not_elem_of_nil in Hx|].
    cbn [take drop] in Hx, Hy. apply elem_of_cons in Hx as [->|Hx].
    + rewrite Forall_forall in Hz. apply Hz. by eapply drop_elem.
    + by eapply IH.
Qed.

(** X15.  [extractCommonPhrases] without keywords.  It lists at most ten
    words, none twice; each has more than three characters and is a word
    of the text; they are listed from the most frequent on; and a word of
    more than three characters that is left out is not more frequent than
    any listed word, and is left out only when ten words are listed. *)
Theorem common_phrases_most_frequent text :
  let phrases := extractCommonPhrases text None in
  let count word := occurrences word (matchWords text) in
  (length phrases ≤ 10)%nat ∧ NoDup phrases ∧
  (∀ word, word ∈ phrases →
           (3 < String.length word)%nat ∧ word ∈ matchWords text) ∧
  StronglySorted (λ a b, count b ≤ count a) phrases ∧
  (∀ word, word ∈ matchWords text → (3 < String.length word)%nat →
           word ∉ phrases →
           length phrases = 10%nat ∧ ∀ listed, listed ∈ phrases → count word ≤ count listed).
Proof.
  cbn zeta. cbn [extractCommonPhrases].
  set (words := matchWords text). fold byCount.
  set (sorted := sortBy byCount (countWords words)).
  assert (sorted ≡ₚ countWords words) as Hperm by apply sortBy_Permutation.
  assert (StronglySorted (notAfter byCount) sorted) as Hsorted
    by exact (@sortBy_sorted _ byCount byCount_consistent _).
  assert (NoDup (keys sorted)) as Hnodup.
  { unfold keys. rewrite Hperm. apply countWords_NoDup. }
  assert (∀ word n, (word, n) ∈ sorted ↔
            (3 < String.length word)%nat ∧ word ∈ words ∧ n = occurrences word words)
    as Helem.
  { intros word n. rewrite Hperm. apply countWords_elem. }
  split_and!.
  - rewrite length_map, length_take. lia.
  - eapply sublist_NoDup; [exact Hnodup|].
    unfold keys. apply map_sublist, sublist_take.
  - intros word Hword. apply map_elem in Hword as ([w n] & -> & Hin).
    apply take_elem in Hin. apply Helem in Hin as (? & ? & _). done.
  - assert (StronglySorted (notAfter byCount) (take 10 sorted)) as Htake
      by by apply StronglySorted_take.
    assert (∀ kv, kv ∈ take 10 sorted → kv.2 = occurrences kv.1 words) as Hcount.
    { intros [w n] Hin%take_elem. by apply Helem in Hin as (_ & _ & ->). }
    induction Htake as [|kv rest _ IH Hkv]; cbn [List.map]; constructor.
    + apply IH. intros kv' Hin. apply Hcount. by right.
    + apply Forall_forall. intros w Hw.
      apply map_elem in Hw as (kv' & -> & Hin).
      rewrite Forall_forall in Hkv. specialize (Hkv kv' Hin).
      unfold notAfter, byCount in Hkv.
      rewrite <-(Hcount kv) by by left. rewrite <-(Hcount kv') by by right. lia.
  - intros word Hin Hlong Hout.
    assert ((word, occurrences word words) ∈ sorted) as Hentry by by apply Helem.
    rewrite <-(take_drop 10 sorted) in Hentry.
    apply elem_of_app in Hentry as [Hentry|Hentry].
    { destruct Hout. apply map_elem. by exists (word, occurrences word words). }
    split.
    + rewrite length_map, length_take.
      apply list_elem_of_lookup in Hentry as [i Hi].
      apply lookup_lt_Some in Hi. rewrite length_drop in Hi. lia.
    + intros listed Hlisted.
      apply map_elem in Hlisted as ([w n] & -> & Hlisted).
      pose proof (StronglySorted_take_drop _ _ _ _ _ Hsorted Hlisted Hentry) as Hle.
      unfold notAfter, byCount in Hle. cbn [fst snd] in *.
      apply take_elem in Hlisted. apply Helem in Hlisted as (_ & _ & ->). lia.
Qed.

(** A text of three reviews. *)
Lemma common_phrases_most_frequent_witness :
  let text := "great board, great price; the board arrived late but great value"%string in
  extractCommonPhrases text None = ["great"; "board"; "price"; "arrived"; "late"; "value"]%string
  ∧ NoDup (extractCommonPhrases text None)
  ∧ ∀ word, word ∈ extractCommonPhrases text None → (3 < String.length word)%nat.
Proof.
  intros text. split; [reflexivity|].
  destruct (common_phrases_most_frequent text) as (_ & Hnodup & Hwords & _).
  split; [exact Hnodup|]. intros word Hword. by apply Hwords.
Defined.

(** ** Review data of a product *)

Lemma readField_other `{NumberHost} acc field :
  fieldNamespace field ≠ Some "reviews"%string →
  String.prefix "reviews." (fieldKey field) = false →
  readField acc field = acc.
Proof.
  intros Hnamespace Hkey. unfold readField.
  by rewrite bool_decide_eq_false_2, Hkey.
Qed.

(** X16.  Products without review metafields.  When no metafield is in the
    namespace [reviews] and no key starts with [reviews.],
    [fetchProductReviewData] resolves to [null], whatever the other
    arguments are: the Judge.me API is not asked.  The metafields of a
    [ProductContent] carry no namespace, so for them the keys decide. *)
Theorem no_review_metafields_no_review_data `{NumberHost} :
  (∀ network metafields shopDomain productId judgeMeApiToken,
     Forall (λ field, fieldNamespace field ≠ Some "reviews"%string
                      ∧ String.prefix "reviews." (fieldKey field) = false)
            metafields →
     fetchProductReviewData network metafields shopDomain productId judgeMeApiToken
     = None) ∧
  (∀ network metafields shopDomain productId judgeMeApiToken,
     Forall (λ m, String.prefix "reviews." (Product.key m) = false) metafields →
     fetchProductReviewData network (List.map fieldOf metafields)
                            shopDomain productId judgeMeApiToken
     = None).
Proof.
  assert (∀ metafields acc,
            Forall (λ field, fieldNamespace field ≠ Some "reviews"%string
                             ∧ String.prefix "reviews." (fieldKey field) = false)
                   metafields →
            fold_left readField metafields acc = acc) as Hfold.
  { induction metafields as [|field rest IH]; intros acc Hall; [done|].
    apply Forall_cons in Hall as [[Hnamespace Hkey] Hrest]. cbn [fold_left].
    rewrite readField_other by done. by apply IH. }
  split.
  - intros network metafields shopDomain productId token Hall.
    unfold fetchProductReviewData, extractJudgeMeMetafields.
    by rewrite Hfold.
  - intros network metafields shopDomain productId token Hall.
    unfold fetchProductReviewData, extractJudgeMeMetafields.
    rewrite Hfold; [done|].
    apply Forall_forall. intros field Hfield.
    apply map_elem in Hfield as (m & -> & Hm). split; [done|].
    rewrite Forall_forall in Hall. by apply Hall.
Qed.

(** A product of the route with two metafields of its own. *)
Lemma no_review_metafields_no_review_data_witness :
  @fetchProductReviewData sampleNumbers []
    (List.map fieldOf [Product.mkMetafield "material" "wood";
                       Product.mkMetafield "color" "red"])
    (Some "test-shop.myshopify.com"%string) (Some "gid://shopify/Product/1"%string) None
  = None.
Proof.
  apply (proj2 (@no_review_metafields_no_review_data sampleNumbers)).
  by repeat constructor.
Defined.

Lemma extractCommonPhrases_empty keywords :
  Forall (λ keyword, keyword ≠ ""%string) keywords →
  extractCommonPhrases "" (Some keywords) = [].
Proof.
  cbn [extractCommonPhrases]. induction 1 as [|keyword rest Hne _ IH]; [done|].
  cbn [List.filter]. rewrite IH. by destruct keyword.
Qed.

(** X17.  Review data when the Judge.me API is not asked.  Without a shop
    domain, a product id or an API token (the route passes no token) the
    detailed reviews are not fetched: the review data then holds the rating
    and the count of the metafields and four empty arrays, and the review
    context built from it for the prompt is the one line with the average
    rating, or empty when the rating or the count is missing, zero or
    [NaN]. *)
Theorem review_data_without_reviews `{NumberHost} network metafields
        shopDomain productId judgeMeApiToken reviewData :
  stringTruthy shopDomain && stringTruthy productId && stringTruthy judgeMeApiToken
  = false →
  fetchProductReviewData network metafields shopDomain productId judgeMeApiToken
  = Some reviewData →
  recentReviews reviewData = Some [] ∧
  commonPhrases reviewData = Some [] ∧
  frequentComplaints reviewData = Some [] ∧
  frequentPraises reviewData = Some [] ∧
  buildReviewContext reviewData
  = if negb (numberFalsy (averageRating reviewData))
       && negb (numberFalsy (reviewCount reviewData))
    then "Average Rating: "
           +:+ numberToString (default 0%float (averageRating reviewData))
           +:+ "/5 ("
           +:+ numberToString (default 0%float (reviewCount reviewData))
           +:+ " reviews)"
    else ""%string.
Proof.
  intros Hnot. unfold fetchProductReviewData. rewrite Hnot.
  destruct (_ && numberFalsy _); [done|]. intros [= <-].
  unfold buildReviewContext, reviewContextLines, convertToReviewData.
  cbn [recentReviews commonPhrases frequentComplaints frequentPraises averageRating
       reviewCount analyzeReviewSentiment analysisPhrases analysisComplaints
       analysisPraises List.filter List.map take Js.join Js.toLowerCase nonEmpty].
  assert (extractCommonPhrases "" None = []) as -> by reflexivity.
  rewrite !extractCommonPhrases_empty by (by repeat constructor).
  split_and!; [done..|].
  cbn [nonEmpty app]. destruct (negb _ && negb _); reflexivity.
Qed.

(** A product with a rating and a count in its metafields, as the route
    asks for its review data. *)
Lemma review_data_without_reviews_witness :
  ∃ reviewData,
    @fetchProductReviewData sampleNumbers []
      [mkField "reviews.rating" ("{" +:+ Js.quote "value" +:+ ":" +:+ Js.quote "4.3" +:+ "}")
               None;
       mkField "reviews.rating_count" "12" None]
      (Some "test-shop.myshopify.com"%string) (Some "gid://shopify/Product/1"%string) None
    = Some reviewData ∧
    averageRating reviewData = Some 4.3%float ∧
    @buildReviewContext sampleNumbers reviewData = "Average Rating: 4.3/5 (12 reviews)"%string.
Proof.
  eexists. split; [reflexivity|]. split; [reflexivity|].
  match goal with
  | |- @buildReviewContext _ ?rd = _ =>
      pose proof (@review_data_without_reviews sampleNumbers []
                    [mkField "reviews.rating"
                       ("{" +:+ Js.quote "value" +:+ ":" +:+ Js.quote "4.3" +:+ "}") None;
                     mkField "reviews.rating_count" "12" None]
                    (Some "test-shop.myshopify.com"%string)
                    (Some "gid://shopify/Product/1"%string) None rd eq_refl eq_refl)
        as (_ & _ & _ & _ & Hcontext)
  end.
  rewrite Hcontext. reflexivity.
Defined.

(** X18.  How the [rating] metafield is read.  The fallback that reads the
    value as a plain number is used only when [JSON.parse] throws on the
    value or gives [null].  A value that is JSON but not an object (the
    text [4.3], say, which parses to a number) has no property [value]:
    the rating then is what [parseFloat] makes of [undefined], three
    times, and the fallback is not tried. *)
Theorem rating_metafield_reading `{NumberHost} acc field :
  bool_decide (fieldNamespace field = Some "reviews"%string)
  || String.prefix "reviews." (fieldKey field) = true →
  removeFirst "reviews." (fieldKey field) = "rating"%string →
  rating_count (readField acc field) = rating_count acc ∧
  match JSON_parseValue (fieldValue field) with
  | None | Some Js.VNull | Some Js.VUndefined =>
      ratingOf (readField acc field)
      = if PrimFloat.is_nan (parseFloat (fieldValue field)) then ratingOf acc
        else Some (mkRating (parseFloat (fieldValue field)) 1 5)
  | Some (Js.VObj props) =>
      ratingOf (readField acc field)
      = Some (mkRating
                (parseFloat (toStringValue (default Js.VUndefined (mapGet "value" props))))
                (parseFloat (toStringValue (default Js.VUndefined (mapGet "scale_min" props))))
                (parseFloat (toStringValue (default Js.VUndefined (mapGet "scale_max" props)))))
  | Some _ =>
      ratingOf (readField acc field)
      = Some (mkRating (parseFloat "undefined") (parseFloat "undefined")
                       (parseFloat "undefined"))
  end.
Proof.
  intros Hreviews Hkey. unfold readField. rewrite Hreviews, Hkey.
  cbn [String.eqb Ascii.eqb Bool.eqb]. unfold ratingFromJson.
  destruct (JSON_parseValue (fieldValue field)) as [[| |b|n|s|items|props]|];
    cbn [property bind ret throw toStringValue ratingOf rating_count];
    try (split; [|done]); try done;
    by destruct (PrimFloat.is_nan _).
Qed.

(** The rating stored as the text [4.3]. *)
Lemma rating_metafield_reading_witness :
  ratingOf (@readField sampleNumbers (mkJudgeMe None None)
              (mkField "reviews.rating" "4.3" None))
  = Some (mkRating nan nan nan).
Proof.
  pose proof (@rating_metafield_reading sampleNumbers (mkJudgeMe None None)
                (mkField "reviews.rating" "4.3" None) eq_refl eq_refl) as [_ Hrating].
  exact Hrating.
Defined.

End ReviewDataFacts.

Module ScraperFacts.
Import LlmAnalysis Scraper.

Lemma firstOccurrences_ext l seen1 seen2 :
  (∀ y, y ∈ seen1 ↔ y ∈ seen2) →
  firstOccurrences seen1 l = firstOccurrences seen2 l.
Proof.
  revert seen1 seen2. induction l as [|y l IH]; intros seen1 seen2 Hsame; [done|].
  cbn [firstOccurrences].
  rewrite (bool_decide_ext (y ∈ seen1) (y ∈ seen2)) by apply Hsame.
  case_bool_decide; [by apply IH|]. f_equal. apply IH. intros z.
  rewrite !elem_of_cons. by rewrite Hsame.
Qed.

Lemma fold_setAdd items set :
  fold_left setAdd items set = set ++ firstOccurrences set items.
Proof.
  revert set. induction items as [|x items IH]; intros set; cbn [fold_left firstOccurrences].
  - by rewrite app_nil_r.
  - rewrite IH. unfold setAdd. case_bool_decide as Hin; [done|].
    rewrite <-app_assoc. cbn [app].
    rewrite (firstOccurrences_ext items (set ++ [x]) (x :: set)); [done|].
    intros y. rewrite elem_of_app, !elem_of_cons, elem_of_nil. tauto.
Qed.

Lemma firstOccurrences_app seen l1 l2 :
  firstOccurrences seen (l1 ++ l2)
  = firstOccurrences seen l1
    ++ firstOccurrences (seen ++ firstOccurrences seen l1) l2.
Proof.
  rewrite <-(app_nil_l (firstOccurrences seen (l1 ++ l2))).
  apply (app_inv_head seen). rewrite app_nil_l.
  rewrite <-fold_setAdd, fold_left_app, !fold_setAdd. by rewrite app_assoc.
Qed.

Lemma firstOccurrences_spec seen l :
  NoDup (firstOccurrences seen l) ∧
  ∀ x, x ∈ firstOccurrences seen l ↔ x ∈ l ∧ x ∉ seen.
Proof.
  revert seen. induction l as [|y l IH]; intros seen; cbn [firstOccurrences].
  - split; [constructor|]. intros x. rewrite elem_of_nil. tauto.
  - case_bool_decide as Hin.
    + destruct (IH seen) as [Hnd Helem]. split; [done|]. intros x.
      rewrite Helem, elem_of_cons. split; [tauto|].
      intros [[->|?] ?]; tauto.
    + destruct (IH (y :: seen)) as [Hnd Helem]. split.
      * constructor; [|done]. rewrite Helem, elem_of_cons. tauto.
      * intros x. rewrite !elem_of_cons, Helem, elem_of_cons.
        destruct (decide (x = y)) as [->|Hne]; tauto.
Qed.

Lemma issues_firstOccurrences results set :
  fold_left (λ issues result,
               fold_left setAdd (ProductAnalysis.contentGaps result) issues)
            results set
  = set ++ firstOccurrences set (allGaps results).
Proof.
  unfold allGaps. revert set.
  induction results as [|result results IH]; intros set; cbn [fold_left flat_map].
  - by rewrite app_nil_r.
  - rewrite IH, fold_setAdd, firstOccurrences_app. by rewrite app_assoc.
Qed.

Lemma opportunities_firstOccurrences results set :
  fold_left (λ opportunities result,
               fold_left (λ opportunities opt,
                            fold_left setAdd (Optimization.suggestions opt)
                                      opportunities)
                         (ProductAnalysis.llmOptimizations result) opportunities)
            results set
  = set ++ firstOccurrences set (allSuggestions results).
Proof.
  unfold allSuggestions. revert set.
  induction results as [|result results IH]; intros set; cbn [fold_left flat_map].
  - by rewrite app_nil_r.
  - rewrite IH. clear IH.
    assert (∀ opts set,
              fold_left (λ opportunities opt,
                           fold_left setAdd (Optimization.suggestions opt) opportunities)
                        opts set
              = set ++ firstOccurrences set (flat_map Optimization.suggestions opts))
      as Hopts.
    { induction opts as [|opt opts IH]; intros set'; cbn [fold_left flat_map].
      - by rewrite app_nil_r.
      - rewrite IH, fold_setAdd, firstOccurrences_app. by rewrite app_assoc. }
    rewrite Hopts, firstOccurrences_app. by rewrite app_assoc.
Qed.

(** X21.  The site metrics of the scraper.  [topIssues] are the first five
    different content gaps of the analyses, in the order in which the
    analyses list them, and [improvement_opportunities] the first five
    different suggestions: no entry stands twice, each comes from an
    analysis, and an entry is left out only when five are listed.  For a
    site without products the average score is not 0 but [NaN]: the sum 0
    is divided by the length 0. *)
Theorem site_metrics_list_each_issue_once products analysisResults :
  let metrics := calculateSiteMetrics products analysisResults in
  topIssues metrics = take 5 (firstOccurrences [] (allGaps analysisResults)) ∧
  improvement_opportunities metrics
  = take 5 (firstOccurrences [] (allSuggestions analysisResults)) ∧
  NoDup (topIssues metrics) ∧ (length (topIssues metrics) ≤ 5)%nat ∧
  (∀ gap, gap ∈ topIssues metrics → gap ∈ allGaps analysisResults) ∧
  (∀ gap, gap ∈ allGaps analysisResults → gap ∉ topIssues metrics →
          length (topIssues metrics) = 5%nat) ∧
  averageProductScore (calculateSiteMetrics [] []) = nan.
Proof.
  cbn zeta. unfold calculateSiteMetrics.
  cbn [topIssues improvement_opportunities averageProductScore].
  rewrite issues_firstOccurrences, opportunities_firstOccurrences. cbn [app].
  destruct (firstOccurrences_spec [] (allGaps analysisResults)) as [Hnd Helem].
  split_and!; [done|done| | | | |reflexivity].
  - eapply sublist_NoDup; [exact Hnd|apply sublist_take].
  - rewrite length_take. lia.
  - intros gap Hgap. apply Helem. by eapply ReviewDataFacts.take_elem.
  - intros gap Hgap Hout.
    assert (gap ∈ firstOccurrences [] (allGaps analysisResults)) as Hin.
    { apply Helem. split; [done|apply not_elem_of_nil]. }
    rewrite <-(take_drop 5 (firstOccurrences [] (allGaps analysisResults))) in Hin.
    apply elem_of_app in Hin as [Hin|Hin]; [done|].
    rewrite length_take. apply list_elem_of_lookup in Hin as [i Hi].
    apply lookup_lt_Some in Hi. rewrite length_drop in Hi. lia.
Qed.

(** Two analyses that failed: the gap of the fallback is listed once. *)
Lemma site_metrics_list_each_issue_once_witness :
  let fallback := ErrorHandler.createFallbackAnalysis (Js.VStr "Board") in
  topIssues (calculateSiteMetrics [] [fallback; fallback])
  = ["Analysis temporarily unavailable - please try again"%string] ∧
  NoDup (topIssues (calculateSiteMetrics [] [fallback; fallback])).
Proof.
  intros fallback. split; [reflexivity|].
  by destruct (site_metrics_list_each_issue_once [] [fallback; fallback])
    as (_ & _ & Hnd & _).
Defined.

End ScraperFacts.

Module OrchestratorCache.
Import Builtins BuiltinsFacts ErrorHandler LlmAnalysis OrchestratorSpec OrchestratorFacts.

(** The state after the quota stage of a call that goes on. *)
Lemma quotaStage_passed options env run run1 :
  quotaStage options env run = (inr None, run1) →
  analysisCache (server run1) = analysisCache (server run) ∧
  product run1 = product run ∧ events run1 = events run.
Proof.
  destruct (sessionOf options) as [session|] eqn:Hsession.
  - rewrite (quotaStage_present _ _ _ _ Hsession). cbn zeta.
    destruct (RateLimiter.isAllowed _ _ _).1; [|done]. by intros [= <-].
  - rewrite (quotaStage_absent _ _ _ Hsession). by intros [= <-].
Qed.

Lemma quotaStage_cache options env run :
  analysisCache (server (quotaStage options env run).2) = analysisCache (server run).
Proof.
  destruct (sessionOf options) as [session|] eqn:Hsession.
  - by rewrite (quotaStage_present _ _ _ _ Hsession).
  - by rewrite (quotaStage_absent _ _ _ Hsession).
Qed.

(** The cache after a [try] block that throws holds nothing new. *)
Lemma tryBlock_throws_cache `{Host} options env run t :
  (tryBlock options env run).1 = inl t →
  ∀ kv, kv ∈ analysisCache (server (tryBlock options env run).2) →
        kv ∈ analysisCache (server run).
Proof.
  rewrite tryBlock_unfold.
  destruct (validateProductData (product run)); [done|].
  pose proof (quotaStage_cache options env run) as Hquota.
  destruct (quotaStage options env run) as [[t'|[result|]] run1];
    cbn [fst snd] in *; [by rewrite Hquota|done|].
  rewrite cacheStage_unfold.
  pose proof (generateContentHashM_spec (fetchedReviewData env) run1) as Hhash.
  destruct (generateContentHashM (fetchedReviewData env) run1) as [[t'|h] run2];
    cbn [fst snd] in Hhash |- *; destruct Hhash as (Hserver & _ & _ & Hthrow).
  { intros _ kv. by rewrite Hserver, Hquota. }
  rewrite getCachedAnalysisM_spec. cbn [snd].
  destruct (getCachedAnalysis (nowLookup env) h (analysisCache (server run2))).1
    eqn:Hfound; [done|].
  match goal with
  | |- context [upstreamStage env ?rd h ?r] =>
      pose proof (upstreamStage_spec env rd h r) as Hup;
      destruct (upstreamStage env rd h r) as [[t'|r'] run3]
  end; cbn [fst snd] in Hup |- *; [|done].
  destruct Hup as (_ & _ & _ & Hcache & _). cbn [server analysisCache] in Hcache.
  intros _ kv. rewrite Hcache, Hserver, Hquota.
  destruct (CacheFacts.getCachedAnalysis_cache (nowLookup env) h (analysisCache (server run)))
    as [-> | ->]; [done|apply elem_of_mapDelete].
Qed.

(** X19.  Failures are not cached.  When the [try] block of a call throws
    (the validation fails, the hash cannot be computed, the upstream fails
    for good, its answer is empty or is not JSON, or it cannot be
    transformed), the call returns the fallback and the cache holds no
    entry it did not hold before the call: the fallback is not stored, and
    the next call for the product asks the upstream again. *)
Theorem failures_are_not_cached `{Host} product options env server t :
  (tryBlock options env (mkRun server product [])).1 = inl t →
  let out := analyzeLLMDiscoverability product options env server in
  (∃ e, t = ThrowError e
        ∧ out.1 = inr (failureResult (Product.title product) (isRateLimitError e))) ∧
  (∀ kv, kv ∈ analysisCache (LlmAnalysis.server out.2) → kv ∈ analysisCache server) ∧
  (length (analysisCache (LlmAnalysis.server out.2)) ≤ length (analysisCache server))%nat.
Proof.
  intros Hthrows. cbn zeta.
  pose proof (analyze_of_tryBlock product options env server) as [Hrun Hout].
  cbn zeta in Hrun, Hout. rewrite Hthrows in Hout. rewrite Hrun.
  split; [done|].
  pose proof (tryBlock_throws_cache options env (mkRun server product []) t Hthrows)
    as Hsub.
  split; [exact Hsub|].
  revert Hthrows. rewrite tryBlock_unfold. cbn [LlmAnalysis.product].
  destruct (validateProductData product); [done|].
  pose proof (quotaStage_cache options env (mkRun server product [])) as Hquota.
  destruct (quotaStage options env _) as [[t'|[result|]] run1];
    cbn [fst snd] in *; [by rewrite Hquota|done|].
  rewrite cacheStage_unfold.
  pose proof (generateContentHashM_spec (fetchedReviewData env) run1) as Hhash.
  destruct (generateContentHashM (fetchedReviewData env) run1) as [[t'|h] run2];
    cbn [fst snd] in Hhash |- *; destruct Hhash as (Hserver & _ & _ & Hthrow).
  { intros _. by rewrite Hserver, Hquota. }
  rewrite getCachedAnalysisM_spec. cbn [snd].
  destruct (getCachedAnalysis (nowLookup env) h (analysisCache (LlmAnalysis.server run2))).1
    eqn:Hfound; [done|].
  match goal with
  | |- context [upstreamStage env ?rd h ?r] =>
      pose proof (upstreamStage_spec env rd h r) as Hup;
      destruct (upstreamStage env rd h r) as [[t'|r'] run3]
  end; cbn [fst snd] in Hup |- *; [|done].
  destruct Hup as (_ & _ & _ & Hcache & _).
  cbn [LlmAnalysis.server analysisCache] in Hcache.
  intros _. rewrite Hcache, Hserver, Hquota. cbn [LlmAnalysis.server analysisCache].
  destruct (CacheFacts.getCachedAnalysis_cache (nowLookup env) h (analysisCache server))
    as [-> | ->]; [done|].
  rewrite mapDelete_length. case_decide; lia.
Qed.

(** The upstream never answers: the call returns the fallback and the
    cache stays empty. *)
Lemma failures_are_not_cached_witness :
  let out := @analyzeLLMDiscoverability Samples.sampleHost Samples.sampleProduct None
               (Samples.envWith Samples.silentUpstream) Samples.initialServer in
  out.1 = inr (failureResult (Js.VStr "Test Snowboard") false) ∧
  analysisCache (LlmAnalysis.server out.2) = [].
Proof.
  intros out.
  destruct (@failures_are_not_cached Samples.sampleHost Samples.sampleProduct None
              (Samples.envWith Samples.silentUpstream) Samples.initialServer
              (ThrowError (OpenAIError "Request timeout")))
    as ((e & He & Hout) & Hsub & _); [vm_compute; reflexivity|].
  injection He as <-. split; [exact Hout|].
  fold out in Hsub. destruct (analysisCache (LlmAnalysis.server out.2)) as [|kv rest];
    [done|].
  specialize (Hsub kv ltac:(by left)). by apply not_elem_of_nil in Hsub.
Defined.

(** The record [generateContentHashM] hashes. *)
Lemma generateContentHashM_unfold `{Host} reviewData run :
  generateContentHashM reviewData run
  = match generateContentHash
            {| Product.title := Product.title (product run);
               Product.description := Product.description (product run);
               Product.tags := Product.tags (product run);
               Product.vendor := Product.vendor (product run);
               Product.productType := Product.productType (product run);
               Product.metafields := Product.metafields (product run);
               Product.reviewData := reviewData |} with
    | inl e => (inl e, run)
    | inr (contentHash, after) =>
        (inr contentHash,
         mkRun (server run)
               {| Product.title := Product.title (product run);
                  Product.description := Product.description (product run);
                  Product.tags := Product.tags after;
                  Product.vendor := Product.vendor (product run);
                  Product.productType := Product.productType (product run);
                  Product.metafields := Product.metafields after;
                  Product.reviewData := Product.reviewData (product run) |}
               (events run))
    end.
Proof. reflexivity. Qed.

(** A fresh analysis is in the cache when the call returns. *)
Lemma cacheStage_fresh_stored `{Host} env run a run1 :
  NoDup (keys (analysisCache (server run))) →
  (length (analysisCache (server run)) ≤ 1000)%nat →
  (∀ kv, kv ∈ analysisCache (server run) → timestamp kv.2 ≤ nowStore env) →
  cacheStage env run = (inr (mkResult a (Some Fresh) None), run1) →
  ∃ h after,
    generateContentHash
      {| Product.title := Product.title (product run);
         Product.description := Product.description (product run);
         Product.tags := Product.tags (product run);
         Product.vendor := Product.vendor (product run);
         Product.productType := Product.productType (product run);
         Product.metafields := Product.metafields (product run);
         Product.reviewData := fetchedReviewData env |} = inr (h, after) ∧
    mapGet h (analysisCache (server run1)) = Some (mkCacheEntry a (nowStore env) h).
Proof.
  intros Hnd Hlen Hts. rewrite cacheStage_unfold, generateContentHashM_unfold.
  match goal with
  | |- context [generateContentHash ?q] =>
      destruct (generateContentHash q) as [t|[h after]] eqn:Hhash
  end; [done|].
  cbn [server analysisCache]. rewrite getCachedAnalysisM_spec.
  cbn [server product events analysisCache limiters snd].
  destruct (getCachedAnalysis (nowLookup env) h (analysisCache (server run))).1
    as [cached|] eqn:Hmiss; [done|].
  intros Hfirst.
  match type of Hfirst with
  | upstreamStage env ?rd h ?r = _ =>
      pose proof (upstreamStage_spec env rd h r) as Hup
  end.
  rewrite Hfirst in Hup. cbn [fst snd] in Hup.
  destruct Hup as (_ & _ & _ & a' & parsed & [= <-] & _ & Hcache).
  cbn [server analysisCache] in Hcache.
  exists h, after. split; [done|]. rewrite Hcache.
  destruct (CacheFacts.getCachedAnalysis_cache (nowLookup env) h
              (analysisCache (server run))) as [-> | ->].
  - by apply CacheFacts.setCachedAnalysis_present.
  - apply CacheFacts.setCachedAnalysis_present.
    + by apply mapDelete_NoDup.
    + rewrite mapDelete_length. case_decide; lia.
    + intros kv Hkv. by apply Hts, (elem_of_mapDelete h).
Qed.

(** X20.  The cache does not tell callers apart.  The key of an entry is
    the hash of the content (and of the review data); the shop, the
    product id and the session are not part of it.  So when a call,
    whoever made it, has returned a fresh analysis, a call with the same
    content and review data within 24 hours is answered from the cache
    with that analysis and without an upstream call, whatever its options
    are, unless a session is given and its quota denies the request. *)
Theorem cache_is_shared_between_callers `{Host}
        product options1 options2 env1 env2 server a run1 :
  NoDup (keys (analysisCache server)) →
  (length (analysisCache server) ≤ 1000)%nat →
  (∀ kv, kv ∈ analysisCache server → timestamp kv.2 ≤ nowStore env1) →
  tryBlock options1 env1 (mkRun server product [])
  = (inr (mkResult a (Some Fresh) None), run1) →
  fetchedReviewData env2 = fetchedReviewData env1 →
  nowLookup env2 - nowStore env1 ≤ CACHE_EXPIRATION_MS →
  match sessionOf options2 with
  | Some session =>
      (RateLimiter.isAllowed (nowQuota env2)
         (RateLimiter.getRateLimitIdentifier session)
         (RateLimiter.openaiRateLimiter (limiters (LlmAnalysis.server run1)))).1 = true
  | None => True
  end →
  let again := analyzeLLMDiscoverability product options2 env2 (LlmAnalysis.server run1) in
  again.1 = inr (mkResult a (Some Cached) None) ∧ events again.2 = [].
Proof.
  intros Hnd Hlen Hts Hfirst Hreview Hage Hquota2. cbn zeta.
  rewrite tryBlock_unfold in Hfirst. cbn [LlmAnalysis.product] in Hfirst.
  destruct (validateProductData product) as [t|[]] eqn:Hvalid; [done|].
  destruct (quotaStage options1 env1 (mkRun server product [])) as [[t|[result|]] run0]
    eqn:Hquota1; [done| |].
  { exfalso. destruct (sessionOf options1) as [session|] eqn:Hsession.
    - rewrite (quotaStage_present _ _ _ _ Hsession) in Hquota1. cbn zeta in Hquota1.
      destruct (RateLimiter.isAllowed _ _ _).1; [done|].
      injection Hquota1 as <- <-. done.
    - by rewrite (quotaStage_absent _ _ _ Hsession) in Hquota1. }
  apply quotaStage_passed in Hquota1 as (Hcache0 & Hproduct0 & _).
  cbn [LlmAnalysis.server LlmAnalysis.product] in Hcache0, Hproduct0.
  destruct (cacheStage_fresh_stored env1 run0 a run1) as (h & after & Hhash & Hstored);
    [by rewrite Hcache0..|done|].
  rewrite Hproduct0 in Hhash.
  (* the second call *)
  unfold analyzeLLMDiscoverability. rewrite tryBlock_unfold.
  cbn [LlmAnalysis.product]. rewrite Hvalid.
  assert (∃ run2, quotaStage options2 env2 (mkRun (LlmAnalysis.server run1) product [])
                  = (inr None, run2)) as [run2 Hquota].
  { destruct (sessionOf options2) as [session|] eqn:Hsession.
    - rewrite (quotaStage_present _ _ _ _ Hsession). cbn zeta.
      cbn [LlmAnalysis.server limiters]. rewrite Hquota2. by eexists.
    - rewrite (quotaStage_absent _ _ _ Hsession). by eexists. }
  rewrite Hquota. apply quotaStage_passed in Hquota as (Hcache2 & Hproduct2 & Hevents2).
  cbn [LlmAnalysis.server LlmAnalysis.product events] in Hcache2, Hproduct2, Hevents2.
  rewrite cacheStage_unfold, generateContentHashM_unfold.
  rewrite Hproduct2, Hreview, Hhash.
  cbn [LlmAnalysis.server analysisCache]. rewrite getCachedAnalysisM_spec.
  cbn [LlmAnalysis.server LlmAnalysis.product events analysisCache].
  rewrite Hcache2.
  rewrite (CacheFacts.getCachedAnalysis_fresh _ _ _ _ Hstored) by done.
  cbn [fst snd events]. by rewrite Hevents2.
Qed.

(** An analysis made for the bulk path (no session) is served ten minutes
    later to the shop that asks with its session. *)
Lemma cache_is_shared_between_callers_witness :
  let first := @tryBlock Samples.sampleHost None (Samples.envWith Samples.flakyUpstream)
                 (mkRun Samples.initialServer Samples.sampleProduct []) in
  ∃ a,
    first.1 = inr (mkResult a (Some Fresh) None) ∧
    let again := @analyzeLLMDiscoverability Samples.sampleHost Samples.sampleProduct
                   Samples.withSession Samples.laterEnv (LlmAnalysis.server first.2) in
    again.1 = inr (mkResult a (Some Cached) None) ∧ events again.2 = [].
Proof.
  intros first.
  set (a := match first.1 with
            | inr r => analysisOf r
            | inl _ => createFallbackAnalysis Js.VUndefined
            end).
  assert (@tryBlock Samples.sampleHost None (Samples.envWith Samples.flakyUpstream)
            (mkRun Samples.initialServer Samples.sampleProduct [])
          = (inr (mkResult a (Some Fresh) None), first.2)) as Hfirst
      by (vm_compute; reflexivity).
  assert (first.1 = inr (mkResult a (Some Fresh) None)) as Hresult
      by (vm_compute; reflexivity).
  assert ((RateLimiter.isAllowed (nowQuota Samples.laterEnv)
             (RateLimiter.getRateLimitIdentifier (RateLimiter.mkSession (Some Samples.shop)))
             (RateLimiter.openaiRateLimiter (limiters (LlmAnalysis.server first.2)))).1
          = true) as Hallowed by (vm_compute; reflexivity).
  clearbody a. clearbody first.
  exists a. split; [exact Hresult|].
  apply (@cache_is_shared_between_callers Samples.sampleHost Samples.sampleProduct
           None Samples.withSession (Samples.envWith Samples.flakyUpstream)
           Samples.laterEnv Samples.initialServer a first.2).
  - apply NoDup_nil_2.
  - simpl. lia.
  - intros kv Hkv. by apply not_elem_of_nil in Hkv.
  - exact Hfirst.
  - reflexivity.
  - vm_compute. discriminate.
  - exact Hallowed.
Defined.

End OrchestratorCache.

Module ContentStringFacts.
Import Builtins BuiltinsFacts ErrorHandler LlmAnalysis FingerprintSpec ContentString.

(** ** Quoted strings are a prefix code *)

Lemma unescapeHead_escapeChar c rest :
  unescapeHead (Js.escapeChar c +:+ rest) = Some (c, rest).
Proof. destruct c as [[] [] [] [] [] [] [] []]; reflexivity. Qed.

Lemma unescapeHead_quote rest : unescapeHead (String (ascii_of_nat 34) rest) = None.
Proof. reflexivity. Qed.

Lemma append_nil (b : string) : "" +:+ b = b.
Proof. reflexivity. Qed.

Lemma append_cons x (a b : string) : String x a +:+ b = String x (a +:+ b).
Proof. reflexivity. Qed.

Lemma append_assoc (a b c : string) : (a +:+ b) +:+ c = a +:+ (b +:+ c).
Proof.
  induction a as [|x a IH]; [by rewrite !append_nil|].
  by rewrite !append_cons, IH.
Qed.

(** Appends with a literal on the left are computed; quoted strings are
    left as they are. *)
Ltac literals :=
  repeat first
    [ progress change (String ?c ?a +:+ ?b) with (String c (a +:+ b))
    | progress change (EmptyString +:+ ?b) with b ].
Ltac literals_in H :=
  repeat first
    [ progress change (String ?c ?a +:+ ?b) with (String c (a +:+ b)) in H
    | progress change (EmptyString +:+ ?b) with b in H ].

Lemma String_inj c (a b : string) : String c a = String c b → a = b.
Proof. by intros [= ->]. Qed.

Lemma escapeString_prefix_free a b r1 r2 :
  Js.escapeString a +:+ String (ascii_of_nat 34) r1
  = Js.escapeString b +:+ String (ascii_of_nat 34) r2 →
  a = b ∧ r1 = r2.
Proof.
  revert b. induction a as [|c a IH]; intros [|c' b]; cbn [Js.escapeString];
    rewrite ?append_assoc, ?append_nil.
  - by intros [= ->].
  - intros Heq. apply (f_equal unescapeHead) in Heq.
    by rewrite unescapeHead_quote, unescapeHead_escapeChar in Heq.
  - intros Heq. apply (f_equal unescapeHead) in Heq.
    by rewrite unescapeHead_quote, unescapeHead_escapeChar in Heq.
  - intros Heq. pose proof (f_equal unescapeHead Heq) as Hhead.
    rewrite !unescapeHead_escapeChar in Hhead. injection Hhead as -> Hrest.
    destruct (IH b Hrest) as [-> ->]. done.
Qed.

Lemma quote_prefix_free a b r1 r2 :
  Js.quote a +:+ r1 = Js.quote b +:+ r2 → a = b ∧ r1 = r2.
Proof.
  unfold Js.quote. literals. rewrite !append_assoc. literals.
  intros Heq%String_inj. by apply escapeString_prefix_free.
Qed.

(** ** Joined arrays *)

Lemma append_nil_r (a : string) : a +:+ "" = a.
Proof. induction a as [|x a IH]; [done|]. by rewrite append_cons, IH. Qed.

Lemma join_cons part parts :
  Js.join "," (part :: parts) = part +:+ joinTail parts.
Proof. destruct parts; cbn [Js.join joinTail]; [by rewrite append_nil_r|done]. Qed.

Section Joined.
Context {A : Type} (enc : A → string).
Hypothesis enc_prefix_free :
  ∀ x y r1 r2, enc x +:+ r1 = enc y +:+ r2 → x = y ∧ r1 = r2.
Hypothesis enc_not_bracket : ∀ x r r', enc x +:+ r ≠ String "]" r'.

Lemma joinTail_prefix_free l1 l2 r1 r2 :
  joinTail (List.map enc l1) +:+ String "]" r1
  = joinTail (List.map enc l2) +:+ String "]" r2 →
  l1 = l2 ∧ r1 = r2.
Proof.
  revert l2. induction l1 as [|x l1 IH]; intros [|y l2]; cbn [List.map joinTail];
    rewrite ?join_cons, ?append_assoc; literals.
  - by intros ->%String_inj.
  - done.
  - done.
  - intros Heq%String_inj. apply enc_prefix_free in Heq as [-> Heq].
    by destruct (IH l2 Heq) as [-> ->].
Qed.

Lemma join_prefix_free l1 l2 r1 r2 :
  Js.join "," (List.map enc l1) +:+ String "]" r1
  = Js.join "," (List.map enc l2) +:+ String "]" r2 →
  l1 = l2 ∧ r1 = r2.
Proof.
  destruct l1 as [|x l1], l2 as [|y l2]; cbn [List.map];
    rewrite ?join_cons, ?append_assoc; cbn [Js.join]; literals.
  - by intros ->%String_inj.
  - intros Heq. symmetry in Heq. by apply enc_not_bracket in Heq.
  - intros Heq. by apply enc_not_bracket in Heq.
  - intros Heq. apply enc_prefix_free in Heq as [-> Heq].
    by destruct (joinTail_prefix_free l1 l2 r1 r2 Heq) as [-> ->].
Qed.

End Joined.

Lemma metafieldString_prefix_free m1 m2 r1 r2 :
  metafieldString m1 +:+ r1 = metafieldString m2 +:+ r2 → m1 = m2 ∧ r1 = r2.
Proof.
  unfold metafieldString. rewrite !append_assoc. literals. intros Heq%String_inj.
  apply quote_prefix_free in Heq as [_ Heq]. literals_in Heq. apply String_inj in Heq.
  apply quote_prefix_free in Heq as [Hkey Heq]. literals_in Heq. apply String_inj in Heq.
  apply quote_prefix_free in Heq as [_ Heq]. literals_in Heq. apply String_inj in Heq.
  apply quote_prefix_free in Heq as [Hvalue Heq]. literals_in Heq. apply String_inj in Heq.
  destruct m1, m2; cbn in *. by subst.
Qed.

(** ** The form of the content string *)

Lemma stringify_array items :
  Js.stringify (Js.VArr items)
  = Some ("[" +:+ Js.join "," (List.map (λ x, default "null"%string (Js.stringify x)) items)
              +:+ "]").
Proof. reflexivity. Qed.

Lemma stringify_tags tags :
  List.map (λ x, default "null"%string (Js.stringify x)) (List.map Js.VStr tags)
  = List.map Js.quote tags.
Proof. induction tags as [|tag tags IH]; [done|]. cbn [List.map]. by rewrite IH. Qed.

Lemma stringify_metafields metafields :
  List.map (λ x, default "null"%string (Js.stringify x))
           (List.map Product.metafieldValue metafields)
  = List.map metafieldString metafields.
Proof.
  induction metafields as [|m metafields IH]; [done|]. cbn [List.map]. rewrite IH.
  f_equal. unfold metafieldString, Product.metafieldValue. cbn.
  by rewrite !append_assoc.
Qed.

Lemma contentString_form title description tags vendor productType metafields reviewData :
  default ""%string
    (Js.stringify (contentObject (Js.VStr title) (Js.VStr description) tags vendor
                                 productType metafields reviewData))
  = "{" +:+ Js.quote "title" +:+ ":" +:+ Js.quote title
        +:+ "," +:+ Js.quote "description" +:+ ":" +:+ Js.quote description
        +:+ "," +:+ Js.quote "tags" +:+ ":" +:+ "["
        +:+ Js.join "," (List.map Js.quote tags) +:+ "]"
        +:+ "," +:+ Js.quote "vendor" +:+ ":" +:+ Js.quote vendor
        +:+ "," +:+ Js.quote "productType" +:+ ":" +:+ Js.quote productType
        +:+ "," +:+ Js.quote "metafields" +:+ ":" +:+ "["
        +:+ Js.join "," (List.map metafieldString metafields) +:+ "]"
        +:+ match Js.stringify (default Js.VUndefined reviewData) with
            | Some s => "," +:+ Js.quote "reviewData" +:+ ":" +:+ s
            | None => ""
            end
        +:+ "}".
Proof.
  unfold contentObject.
  change (Js.stringify (Js.VObj ?props))
    with (Some ("{" +:+ Js.join ","
                  (omap (λ kv : string * Js.Value,
                           match Js.stringify kv.2 with
                           | Some s => Some (Js.quote kv.1 +:+ ":" +:+ s)
                           | None => None
                           end) props) +:+ "}")).
  cbn [default omap list_omap fst snd].
  rewrite !stringify_array, stringify_tags, stringify_metafields.
  change (Js.stringify (Js.VStr ?s)) with (Some (Js.quote s)).
  cbn iota. cbn [omap list_omap fst snd].
  destruct (Js.stringify (default Js.VUndefined reviewData)) as [s|];
    cbn [Js.join]; by rewrite !append_assoc, ?append_nil.
Qed.

Lemma list_ascii_of_append (a b : string) :
  list_ascii_of_string (a +:+ b) = list_ascii_of_string a ++ list_ascii_of_string b.
Proof.
  induction a as [|x a IH]; [done|].
  change (String x a +:+ b) with (String x (a +:+ b)).
  cbn [list_ascii_of_string app]. by rewrite IH.
Qed.

Lemma append_inv_tail (a b c : string) : a +:+ c = b +:+ c → a = b.
Proof.
  intros Heq. apply (f_equal list_ascii_of_string) in Heq.
  rewrite !list_ascii_of_append in Heq. apply app_inv_tail in Heq.
  apply (f_equal string_of_list_ascii) in Heq.
  by rewrite !string_of_list_ascii_of_string in Heq.
Qed.

Lemma quote_not_bracket s r r' : Js.quote s +:+ r ≠ String "]" r'.
Proof. unfold Js.quote. literals. done. Qed.

Lemma metafieldString_not_bracket m r r' : metafieldString m +:+ r ≠ String "]" r'.
Proof. unfold metafieldString. rewrite !append_assoc. literals. done. Qed.

(** X22.  The content string determines the record.  For products whose
    title and description are strings, [generateContentHash] hashes a
    string ([contentString]) from which every field can be read back:
    two such products with the same content string have the same title,
    description, vendor and product type, the same tags and the same
    metafields up to their order, and review data with the same
    serialization.  Together with the order-independence of the digest,
    two products get the same cache key without being the same up to order
    only if SHA-256 collides. *)
Theorem content_string_determines_the_record `{Host} :
  (∀ product, fingerprint product = Sha256.sha256_hex <$> contentStringOf product) ∧
  (∀ product1 product2 title1 description1 title2 description2,
     Product.title product1 = Js.VStr title1 →
     Product.description product1 = Js.VStr description1 →
     Product.title product2 = Js.VStr title2 →
     Product.description product2 = Js.VStr description2 →
     is_Some (contentStringOf product1) →
     contentStringOf product1 = contentStringOf product2 →
     title1 = title2 ∧ description1 = description2 ∧
     Product.vendor product1 = Product.vendor product2 ∧
     Product.productType product1 = Product.productType product2 ∧
     Js.stringify (default Js.VUndefined (Product.reviewData product1))
     = Js.stringify (default Js.VUndefined (Product.reviewData product2)) ∧
     Product.metafields product1 ≡ₚ Product.metafields product2 ∧
     ∃ tags1 tags2,
       Product.tags product1 = Product.TagsArray tags1 ∧
       Product.tags product2 = Product.TagsArray tags2 ∧ tags1 ≡ₚ tags2).
Proof.
  split.
  { intros product. unfold fingerprint, generateContentHash, contentStringOf.
    by destruct (Product.tags product) as [items|[]]. }
  intros product1 product2 title1 description1 title2 description2
         Htitle1 Hdescription1 Htitle2 Hdescription2 [s Hsome] Hsame.
  rewrite Hsome in Hsame. symmetry in Hsame. revert Hsome Hsame.
  unfold contentStringOf. rewrite Htitle1, Hdescription1, Htitle2, Hdescription2.
  destruct (Product.tags product1) as [tags1|]; [|done].
  destruct (Product.tags product2) as [tags2|]; [|done].
  rewrite !contentString_form. intros [= <-] Heq. apply (inj Some) in Heq.
  literals_in Heq. apply String_inj in Heq.
  apply quote_prefix_free in Heq as [_ Heq]. literals_in Heq. apply String_inj in Heq.
  apply quote_prefix_free in Heq as [Htitle Heq]. literals_in Heq. apply String_inj in Heq.
  apply quote_prefix_free in Heq as [_ Heq]. literals_in Heq. apply String_inj in Heq.
  apply quote_prefix_free in Heq as [Hdescription Heq].
  literals_in Heq. apply String_inj in Heq.
  apply quote_prefix_free in Heq as [_ Heq]. literals_in Heq.
  apply String_inj in Heq. apply String_inj in Heq.
  apply (join_prefix_free Js.quote quote_prefix_free quote_not_bracket) in Heq
    as [Htags Heq].
  literals_in Heq. apply String_inj in Heq.
  apply quote_prefix_free in Heq as [_ Heq]. literals_in Heq. apply String_inj in Heq.
  apply quote_prefix_free in Heq as [Hvendor Heq]. literals_in Heq. apply String_inj in Heq.
  apply quote_prefix_free in Heq as [_ Heq]. literals_in Heq. apply String_inj in Heq.
  apply quote_prefix_free in Heq as [Htype Heq]. literals_in Heq. apply String_inj in Heq.
  apply quote_prefix_free in Heq as [_ Heq]. literals_in Heq.
  apply String_inj in Heq. apply String_inj in Heq.
  apply (join_prefix_free metafieldString metafieldString_prefix_free
           metafieldString_not_bracket) in Heq as [Hmetafields Heq].
  split_and!; [done| done| done| done| | |].
  - destruct (Js.stringify (default Js.VUndefined (Product.reviewData product1))) as [s1|],
      (Js.stringify (default Js.VUndefined (Product.reviewData product2))) as [s2|];
      literals_in Heq; rewrite ?append_assoc in Heq; literals_in Heq; try done.
    apply String_inj in Heq.
    apply quote_prefix_free in Heq as [_ Heq]. literals_in Heq. apply String_inj in Heq.
    by apply append_inv_tail in Heq as ->.
  - rewrite <-(sortBy_Permutation byKey (Product.metafields product1)).
    rewrite <-(sortBy_Permutation byKey (Product.metafields product2)).
    unfold byKey. by rewrite Hmetafields.
  - exists tags1, tags2. split_and!; [done..|].
    rewrite <-(sortBy_Permutation compareStrings tags1).
    rewrite <-(sortBy_Permutation compareStrings tags2). by rewrite Htags.
Qed.

(** The product of the repository's test, with its tags in two orders. *)
Lemma content_string_determines_the_record_witness :
  let other :=
    {| Product.title := Js.VStr "Test Snowboard";
       Product.description := Js.VStr "A great snowboard for beginners";
       Product.tags := Product.TagsArray ["sports"; "snowboard"; "winter"]%string;
       Product.vendor := "Test Vendor";
       Product.productType := "Snowboard";
       Product.metafields := [];
       Product.reviewData := None |} in
  @contentStringOf Samples.sampleHost Samples.sampleProduct
  = @contentStringOf Samples.sampleHost other ∧
  ∃ tags1 tags2,
    Product.tags Samples.sampleProduct = Product.TagsArray tags1 ∧
    Product.tags other = Product.TagsArray tags2 ∧ tags1 ≡ₚ tags2.
Proof.
  intros other.
  assert (@contentStringOf Samples.sampleHost Samples.sampleProduct
          = @contentStringOf Samples.sampleHost other) as Hsame by reflexivity.
  split; [exact Hsame|].
  destruct (proj2 (@content_string_determines_the_record Samples.sampleHost)
              Samples.sampleProduct other _ _ _ _ eq_refl eq_refl eq_refl eq_refl
              ltac:(by eexists) Hsame)
    as (_ & _ & _ & _ & _ & _ & Htags).
  exact Htags.
Defined.

End ContentStringFacts.

Module PromptFacts.
Import Builtins BuiltinsFacts ErrorHandler LlmAnalysis ReviewData ContentString Prompt.
Import ContentStringFacts.

(** ** Strings *)

Lemma prefix_nil s : String.prefix "" s = true.
Proof. by destruct s. Qed.

Lemma prefix_app p rest : String.prefix p (p +:+ rest) = true.
Proof.
  induction p as [|c p IH]; [apply prefix_nil|].
  rewrite append_cons. cbn [String.prefix]. by destruct (ascii_dec c c).
Qed.

Lemma length_app (a b : string) :
  String.length (a +:+ b) = (String.length a + String.length b)%nat.
Proof. induction a as [|c a IH]; [done|]. rewrite append_cons. cbn. by rewrite IH. Qed.

Lemma substring_whole s : String.substring 0 (String.length s) s = s.
Proof. induction s as [|c s IH]; [done|]. cbn. by rewrite IH. Qed.

Lemma substring_head a b : String.substring 0 (String.length a) (a +:+ b) = a.
Proof.
  induction a as [|c a IH]; [by destruct b|]. rewrite append_cons. cbn. by rewrite IH.
Qed.

Lemma substring_skip a n m b :
  String.substring (String.length a + n) m (a +:+ b) = String.substring n m b.
Proof. induction a as [|c a IH]; [done|]. rewrite append_cons. cbn. by rewrite IH. Qed.

Lemma includes_char c d s :
  Js.includes (String c "") (String d s)
  = Ascii.eqb c d || Js.includes (String c "") s.
Proof.
  cbn [Js.includes String.prefix]. rewrite prefix_nil.
  destruct (ascii_dec c d) as [->|Hne].
  - by rewrite Ascii.eqb_refl.
  - by apply Ascii.eqb_neq in Hne as ->.
Qed.

Lemma noBrace_cons c s : noBrace (String c s) = negb (Ascii.eqb "{" c) && noBrace s.
Proof. unfold noBrace. rewrite includes_char. by rewrite negb_orb. Qed.

Lemma noBrace_app a b : noBrace (a +:+ b) = noBrace a && noBrace b.
Proof.
  induction a as [|c a IH]; [done|].
  by rewrite append_cons, !noBrace_cons, IH, andb_assoc.
Qed.

(** ** [replace] *)

Lemma indexOf_noBrace x pattern rest :
  noBrace x = true →
  indexOf (String "{" pattern) (x +:+ String "{" pattern +:+ rest)
  = Some (String.length x).
Proof.
  induction x as [|c x IH]; intros Hx.
  - rewrite append_nil.
    change (String "{" pattern +:+ rest) with (String "{" (pattern +:+ rest)).
    cbn [indexOf String.prefix]. destruct (ascii_dec "{" "{"); [|done].
    by rewrite prefix_app.
  - rewrite noBrace_cons in Hx. apply andb_true_iff in Hx as [Hc Hx].
    rewrite append_cons. cbn [indexOf String.prefix].
    destruct (ascii_dec "{" c) as [<-|_]; [done|].
    by rewrite (IH Hx).
Qed.

Lemma getSubstitution_literal matched preceding following replacement :
  literalDollars replacement = true →
  getSubstitution matched preceding following replacement = replacement.
Proof.
  induction replacement as [|c tail IH]; [done|].
  cbn [literalDollars getSubstitution]. intros [Hc Htail]%andb_true_iff.
  rewrite (IH Htail). destruct (Ascii.eqb_spec c "$") as [->|_]; [|done].
  destruct tail as [|d rest]; [done|].
  cbn [plainStart] in Hc. unfold patternCharacter in Hc.
  rewrite !negb_orb in Hc.
  apply andb_true_iff in Hc as [[[H1 H2]%andb_true_iff H3]%andb_true_iff H4].
  apply negb_true_iff in H1, H2, H3, H4. by rewrite H1, H2, H3, H4.
Qed.

(** The placeholder after a text without braces is the one replaced. *)
Lemma replace_placeholder s x pattern replacement rest :
  s = x +:+ String "{" pattern +:+ rest →
  noBrace x = true →
  literalDollars replacement = true →
  replace (String "{" pattern) replacement s = x +:+ replacement +:+ rest.
Proof.
  intros -> Hx Hr. unfold replace. rewrite (indexOf_noBrace _ _ _ Hx).
  rewrite (getSubstitution_literal _ _ _ _ Hr), substring_head.
  rewrite substring_skip, !length_app.
  replace (String.length x + (String.length (String "{" pattern) + String.length rest)
           - String.length x - String.length (String "{" pattern))%nat
    with (String.length rest) by lia.
  replace (String.length (String "{" pattern))
    with (String.length (String "{" pattern) + 0)%nat at 1 by lia.
  by rewrite substring_skip, substring_whole.
Qed.


(** ** Texts in which the dollar signs stand for themselves *)

Lemma literalDollars_app a b :
  literalDollars a = true → literalDollars b = true → plainStart b = true →
  literalDollars (a +:+ b) = true.
Proof.
  intros Ha Hb Hstart. induction a as [|c a IH]; [done|].
  rewrite append_cons. cbn [literalDollars] in *.
  apply andb_true_iff in Ha as [Hc Ha]. rewrite (IH Ha), andb_true_r.
  destruct (Ascii.eqb c "$"); [|done].
  destruct a as [|d a]; [by rewrite append_nil|done].
Qed.

Lemma literalDollars_escapeChar c rest :
  Ascii.eqb c "$" = false →
  literalDollars (Js.escapeChar c +:+ rest) = literalDollars rest.
Proof. destruct c as [[] [] [] [] [] [] [] []]; intros Hc; try done. Qed.

Lemma plainStart_escapeChar c rest :
  patternCharacter c = false → plainStart (Js.escapeChar c +:+ rest) = true.
Proof. destruct c as [[] [] [] [] [] [] [] []]; intros Hc; try done. Qed.

Lemma literalDollars_escapeString s rest :
  literalDollars s = true → literalDollars rest = true → plainStart rest = true →
  literalDollars (Js.escapeString s +:+ rest) = true.
Proof.
  intros Hs Hrest Hstart. induction s as [|c s IH]; [done|].
  cbn [Js.escapeString literalDollars] in *. rewrite append_assoc.
  apply andb_true_iff in Hs as [Hc Hs]. specialize (IH Hs).
  destruct (Ascii.eqb c "$") eqn:Hdollar.
  - apply Ascii.eqb_eq in Hdollar as ->.
    change (Js.escapeChar "$" +:+ ?z) with (String "$" z).
    cbn [literalDollars]. rewrite IH, andb_true_r.
    change (Ascii.eqb "$" "$") with true. cbn iota.
    destruct s as [|d s]; [done|].
    cbn [Js.escapeString]. rewrite append_assoc.
    apply plainStart_escapeChar. cbn [plainStart] in Hc. by apply negb_true_iff.
  - by rewrite literalDollars_escapeChar.
Qed.

Lemma literalDollars_cons c s :
  Ascii.eqb c "$" = false → literalDollars (String c s) = literalDollars s.
Proof. intros Hc. cbn [literalDollars]. by rewrite Hc. Qed.

Lemma literalDollars_quote s rest :
  literalDollars s = true → literalDollars rest = true →
  literalDollars (Js.quote s +:+ rest) = true.
Proof.
  intros Hs Hrest. unfold Js.quote. literals. rewrite append_assoc. literals.
  rewrite literalDollars_cons by done.
  apply literalDollars_escapeString; [done| |done].
  by rewrite literalDollars_cons.
Qed.

Lemma literalDollars_metafieldString m rest :
  literalDollars (Product.key m) = true → literalDollars (Product.value m) = true →
  literalDollars rest = true →
  literalDollars (metafieldString m +:+ rest) = true.
Proof.
  intros Hkey Hvalue Hrest. unfold metafieldString. rewrite !append_assoc. literals.
  rewrite literalDollars_cons by done.
  apply (literalDollars_quote "key"); [done|]. literals.
  rewrite literalDollars_cons by done.
  apply (literalDollars_quote (Product.key m)); [done|]. literals.
  rewrite literalDollars_cons by done.
  apply (literalDollars_quote "value"); [done|]. literals.
  rewrite literalDollars_cons by done.
  apply (literalDollars_quote (Product.value m)); [done|]. literals.
  by rewrite literalDollars_cons.
Qed.

Lemma literalDollars_joinTail metafields rest :
  Forall (λ m, literalDollars (Product.key m) = true
               ∧ literalDollars (Product.value m) = true) metafields →
  literalDollars rest = true →
  literalDollars (joinTail (List.map metafieldString metafields) +:+ rest) = true.
Proof.
  intros Hall Hrest. induction Hall as [|m metafields [Hkey Hvalue] _ IH]; [done|].
  cbn [List.map]. unfold joinTail at 1. rewrite join_cons. literals.
  rewrite append_assoc. by apply literalDollars_metafieldString.
Qed.

Lemma literalDollars_metafields metafields :
  Forall (λ m, literalDollars (Product.key m) = true
               ∧ literalDollars (Product.value m) = true) metafields →
  literalDollars
    (default ""%string
       (Js.stringify (Js.VArr (List.map Product.metafieldValue metafields)))) = true.
Proof.
  intros Hall. rewrite stringify_array, stringify_metafields. cbn [default].
  destruct Hall as [|m metafields [Hkey Hvalue] Hall]; [done|].
  cbn [List.map]. rewrite join_cons. literals. rewrite append_assoc.
  apply literalDollars_metafieldString; [done..|].
  by apply literalDollars_joinTail.
Qed.

Lemma plainText_join tags :
  Forall (λ tag, plainText tag = true) tags → plainText (Js.join ", " tags) = true.
Proof.
  induction 1 as [|tag tags Htag Hall IH]; [done|].
  destruct tags as [|next tags]; [done|].
  change (Js.join ", " (tag :: next :: tags))
    with (tag +:+ String "," (String " " (Js.join ", " (next :: tags)))).
  unfold plainText in *.
  apply andb_true_iff in Htag as [Hbrace Hdollars].
  apply andb_true_iff in IH as [IHbrace IHdollars].
  apply andb_true_iff. split.
  - by rewrite noBrace_app, !noBrace_cons, Hbrace, IHbrace.
  - by apply literalDollars_app.
Qed.


(** ** The template *)

(** The six replacements, each at the placeholder of the template. *)
Lemma template_filled title description productType tags vendor metafields :
  plainText title = true → plainText description = true →
  plainText productType = true → plainText tags = true →
  plainText vendor = true → literalDollars metafields = true →
  replace "{metafields}" metafields
    (replace "{vendor}" vendor
       (replace "{tags}" tags
          (replace "{productType}" productType
             (replace "{description}" description
                (replace "{title}" title ANALYSIS_USER_PROMPT)))))
  = lines ([ promptIntroduction;
             "";
             "Title: " +:+ title;
             "Description: " +:+ description;
             "Product Type: " +:+ productType;
             "Tags: " +:+ tags;
             "Vendor: " +:+ vendor;
             "Additional Metadata: " +:+ metafields ] ++ promptGuidance).
Proof.
  unfold plainText.
  intros [Ht1 Ht2]%andb_true_iff [Hd1 Hd2]%andb_true_iff [Hp1 Hp2]%andb_true_iff
         [Hg1 Hg2]%andb_true_iff [Hv1 Hv2]%andb_true_iff Hm.
  pose (guidance := newline +:+ lines promptGuidance).
  pose (beforeTitle := promptIntroduction +:+ newline +:+ newline +:+ "Title: ").
  pose (s1 := newline +:+ "Description: ").
  pose (s2 := newline +:+ "Product Type: ").
  pose (s3 := newline +:+ "Tags: ").
  pose (s4 := newline +:+ "Vendor: ").
  pose (s5 := newline +:+ "Additional Metadata: ").
  rewrite (replace_placeholder ANALYSIS_USER_PROMPT beforeTitle "title}" title
             (s1 +:+ "{description}" +:+ s2 +:+ "{productType}" +:+ s3 +:+ "{tags}"
                 +:+ s4 +:+ "{vendor}" +:+ s5 +:+ "{metafields}" +:+ guidance));
    [|vm_compute; reflexivity|vm_compute; reflexivity|exact Ht2].
  rewrite (replace_placeholder _ (beforeTitle +:+ title +:+ s1) "description}" description
             (s2 +:+ "{productType}" +:+ s3 +:+ "{tags}"
                 +:+ s4 +:+ "{vendor}" +:+ s5 +:+ "{metafields}" +:+ guidance));
    [|by rewrite !append_assoc
     |rewrite !noBrace_app, Ht1; vm_compute; reflexivity|exact Hd2].
  rewrite (replace_placeholder _
             ((beforeTitle +:+ title +:+ s1) +:+ description +:+ s2)
             "productType}" productType
             (s3 +:+ "{tags}" +:+ s4 +:+ "{vendor}" +:+ s5 +:+ "{metafields}" +:+ guidance));
    [|by rewrite !append_assoc
     |rewrite !noBrace_app, Ht1, Hd1; vm_compute; reflexivity|exact Hp2].
  rewrite (replace_placeholder _
             (((beforeTitle +:+ title +:+ s1) +:+ description +:+ s2)
                +:+ productType +:+ s3)
             "tags}" tags
             (s4 +:+ "{vendor}" +:+ s5 +:+ "{metafields}" +:+ guidance));
    [|by rewrite !append_assoc
     |rewrite !noBrace_app, Ht1, Hd1, Hp1; vm_compute; reflexivity|exact Hg2].
  rewrite (replace_placeholder _
             ((((beforeTitle +:+ title +:+ s1) +:+ description +:+ s2)
                 +:+ productType +:+ s3) +:+ tags +:+ s4)
             "vendor}" vendor
             (s5 +:+ "{metafields}" +:+ guidance));
    [|by rewrite !append_assoc
     |rewrite !noBrace_app, Ht1, Hd1, Hp1, Hg1; vm_compute; reflexivity|exact Hv2].
  rewrite (replace_placeholder _
             (((((beforeTitle +:+ title +:+ s1) +:+ description +:+ s2)
                  +:+ productType +:+ s3) +:+ tags +:+ s4) +:+ vendor +:+ s5)
             "metafields}" metafields guidance);
    [|by rewrite !append_assoc
     |rewrite !noBrace_app, Ht1, Hd1, Hp1, Hg1, Hv1; vm_compute; reflexivity|exact Hm].
  unfold beforeTitle, s1, s2, s3, s4, s5, guidance. rewrite !append_assoc.
  reflexivity.
Qed.


(** X24.  The user prompt is the template with the product's fields at
    their placeholders.  For a product whose title and description are
    strings and whose tags are an array, when no text field and no tag
    contains an opening brace, and no dollar sign in a text field, a tag or
    a metafield is followed by [$], [&], [`] or ['] (the patterns of
    [String.prototype.replace]): the content hash is computed, and the
    prompt built after it is the template's lines with every placeholder
    replaced by its field, followed by the paragraph on the review data.
    The tags and the metafields appear in the order [generateContentHash]
    sorted them into, not in the order the caller gave. *)
Theorem user_prompt_fills_the_template `{Host} `{NumberHost}
    (run : Run) (reviewJson : option Js.Value) (reviewData : option ReviewData.t)
    (title description : string) (tags : list string) :
  Product.title (LlmAnalysis.product run) = Js.VStr title →
  Product.description (LlmAnalysis.product run) = Js.VStr description →
  Product.tags (LlmAnalysis.product run) = Product.TagsArray tags →
  plainText title = true →
  plainText description = true →
  plainText (Product.productType (LlmAnalysis.product run)) = true →
  plainText (Product.vendor (LlmAnalysis.product run)) = true →
  Forall (λ tag, plainText tag = true) tags →
  Forall (λ m, literalDollars (Product.key m) = true
               ∧ literalDollars (Product.value m) = true)
         (Product.metafields (LlmAnalysis.product run)) →
  ∃ contentHash run',
    generateContentHashM reviewJson run = (inr contentHash, run') ∧
    userPrompt (LlmAnalysis.product run') reviewData
    = ret (lines ([ promptIntroduction;
                    "";
                    "Title: " +:+ title;
                    "Description: " +:+ description;
                    "Product Type: " +:+ Product.productType (LlmAnalysis.product run);
                    "Tags: " +:+ Js.join ", " (sortBy compareStrings tags);
                    "Vendor: " +:+ Product.vendor (LlmAnalysis.product run);
                    "Additional Metadata: "
                      +:+ default ""%string
                            (Js.stringify
                               (Js.VArr
                                  (List.map Product.metafieldValue
                                     (sortBy (λ a b, localeCompare (Product.key a)
                                                                   (Product.key b))
                                             (Product.metafields
                                                (LlmAnalysis.product run)))))) ]
                    ++ promptGuidance)
             +:+ reviewParagraph reviewData).
Proof.
  intros Htitle Hdescription Htags Ht Hd Hp Hv Hg Hm.
  unfold generateContentHashM, generateContentHash.
  cbn [Product.tags Product.title Product.description Product.vendor
       Product.productType Product.metafields Product.reviewData].
  rewrite Htags. cbn [ret]. eexists _, _. split; [reflexivity|].
  unfold userPrompt.
  cbn [LlmAnalysis.product Product.tags Product.title Product.description
       Product.vendor Product.productType Product.metafields].
  rewrite Htitle, Hdescription. cbn [toStringValue joinedTags bind ret].
  rewrite template_filled; [done|done..| |done| ].
  - apply plainText_join. by rewrite sortBy_Permutation.
  - apply literalDollars_metafields. by rewrite sortBy_Permutation.
Qed.

(** The sample product: its tags are listed in sorted order. *)
Lemma user_prompt_fills_the_template_witness :
  ∃ contentHash run',
    @generateContentHashM Samples.sampleHost None
      (mkRun Samples.initialServer Samples.sampleProduct [])
    = (inr contentHash, run') ∧
    @userPrompt sampleNumbers (LlmAnalysis.product run') None
    = ret (lines ([ promptIntroduction;
                    "";
                    "Title: Test Snowboard";
                    "Description: A great snowboard for beginners";
                    "Product Type: Snowboard";
                    "Tags: snowboard, sports, winter";
                    "Vendor: Test Vendor";
                    "Additional Metadata: []" ] ++ promptGuidance)
             +:+ @reviewParagraph sampleNumbers None).
Proof.
  exact (@user_prompt_fills_the_template Samples.sampleHost sampleNumbers
           (mkRun Samples.initialServer Samples.sampleProduct []) None None
           "Test Snowboard" "A great snowboard for beginners"
           ["snowboard"; "winter"; "sports"]%string
           eq_refl eq_refl eq_refl eq_refl eq_refl eq_refl eq_refl
           ltac:(repeat constructor) ltac:(constructor)).
Defined.

End PromptFacts.
